(** * specfile: tag blocks, source lists and the forced-parse pipeline

    A shallow embedding of [specfile/tags.py], [specfile/sourcelist.py] and
    [specfile/spec_parser.py], and the properties of the specification
    settled against it.

    Conventions of the embedding.
    - A Python [str] is a [string]; its characters are read as the code
      points 0..255.  On that range [\s] and [str.lstrip] see the code points
      9-13, 28-32, 133 and 160 as white space, [\d] sees the ten ASCII digits
      and [re.IGNORECASE] relates an ASCII letter of a pattern to its two
      cases only.
    - A Python exception is a value of [exn]; a call that may raise returns a
      [result].
    - [re.match] is a backtracking matcher ([Re.exec]) that lists the ways a
      pattern can match in the order in which Python's engine tries them;
      [re.match] returns the first one.
    - Lists that the source mutates in place ([lines[:] = ...],
      [del lines[:k]]) belong to exactly one object in these models (the
      constructors [Tag.__init__], [Comments.__init__] and [Tags.__init__]
      copy the lists they are given), so an in-place update is the
      replacement of that object's field. *)

From Stdlib Require Import Ascii String List ZArith Lia Bool.
From stdpp Require Import gmap strings list fin_maps.

Set Default Proof Using "Type".
#[local] Arguments String.append : simpl nomatch.

(** ** Python values *)

Inductive exn : Type :=
| ValueError
| IndexError
| UnboundLocalError
| KeyError
| RPMException.

Inductive result (A : Type) : Type :=
| Ok (a : A)
| Raise (e : exn).
Arguments Ok {A} a.
Arguments Raise {A} e.

Definition bind {A B : Type} (r : result A) (k : A -> result B) : result B :=
  match r with
  | Ok a => k a
  | Raise e => Raise e
  end.

Module Py.

(** The line feed, the only character [.] refuses. *)
Definition LF : ascii := "010"%char.

(** [str.isspace] on one character, which is also the class [\s]. *)
Definition isspace (c : ascii) : bool :=
  let n := N_of_ascii c in
  (N.leb 9 n && N.leb n 13) || (N.leb 28 n && N.leb n 32)
  || N.eqb n 133 || N.eqb n 160.

(** The class [\d]. *)
Definition isdigit (c : ascii) : bool :=
  let n := N_of_ascii c in N.leb 48 n && N.leb n 57.

(** Lower case of an ASCII letter; other characters are kept. *)
Definition lower (c : ascii) : ascii :=
  let n := N_of_ascii c in
  if N.leb 65 n && N.leb n 90 then ascii_of_N (n + 32) else c.

(** [not s] for a string: the empty string is the only falsy one. *)
Definition falsy (s : string) : bool :=
  match s with
  | EmptyString => true
  | String _ _ => false
  end.

(** [s.startswith(p)] *)
Fixpoint startswith (p s : string) : bool :=
  match p, s with
  | EmptyString, _ => true
  | String a p', String c s' => Ascii.eqb a c && startswith p' s'
  | String _ _, EmptyString => false
  end.

(** [s.endswith(p)] *)
Definition endswith (p s : string) : bool :=
  startswith (String.rev p) (String.rev s).

(** [s.lstrip()] *)
Fixpoint lstrip (s : string) : string :=
  match s with
  | String c s' => if isspace c then lstrip s' else s
  | EmptyString => EmptyString
  end.

(** A string with no line feed in it: what [str.splitlines] produces. *)
Fixpoint single_line (s : string) : bool :=
  match s with
  | EmptyString => true
  | String c s' => negb (Ascii.eqb c LF) && single_line s'
  end.

(** [itertools.dropwhile] *)
Fixpoint dropwhile {A : Type} (p : A -> bool) (l : list A) : list A :=
  match l with
  | [] => []
  | x :: l' => if p x then dropwhile p l' else l
  end.

(** [next((x for x in l if p x), None)] *)
Fixpoint first_some {A B : Type} (f : A -> option B) (l : list A) : option B :=
  match l with
  | [] => None
  | x :: l' => match f x with
               | Some y => Some y
               | None => first_some f l'
               end
  end.

End Py.

(** ** The fragment of Python's [re] that the sources use *)

Module Re.

Inductive regex : Type :=
| Lit (s : string)              (* literal text, as written or as [re.escape] gives it *)
| Cls (p : ascii -> bool)       (* one character of a class *)
| Star (p : ascii -> bool)      (* greedy [p*] over a class *)
| Plus (p : ascii -> bool)      (* greedy [p+] over a class *)
| Opt (r : regex)               (* greedy [(?:r)?] *)
| Cat (r1 r2 : regex)           (* concatenation *)
| Grp (g : string) (r : regex)  (* capturing group; numbered groups are named "1", "2" *)
| Bol                           (* [^] *)
| Eol.                          (* [$]: at the end, or before a final line feed *)

(** The classes of the patterns. *)
Definition space : ascii -> bool := Py.isspace.                       (* \s *)
Definition digit : ascii -> bool := Py.isdigit.                       (* \d *)
Definition dot (c : ascii) : bool := negb (Ascii.eqb c Py.LF).        (* . *)
Definition arg_char (c : ascii) : bool :=                             (* [^\s)] *)
  negb (Py.isspace c) && negb (Ascii.eqb c ")"%char).

(** One way of matching: the text consumed, the text left, the groups. *)
Record thread : Type := Thread {
  eaten : string;
  rest : string;
  groups : list (string * string)
}.

Definition chr_eq (ignorecase : bool) (a c : ascii) : bool :=
  if ignorecase then Ascii.eqb (Py.lower a) (Py.lower c) else Ascii.eqb a c.

Fixpoint lit (ignorecase : bool) (l s : string) : option (string * string) :=
  match l, s with
  | EmptyString, _ => Some (EmptyString, s)
  | String a l', String c s' =>
      if chr_eq ignorecase a c
      then match lit ignorecase l' s' with
           | Some (m, r) => Some (String c m, r)
           | None => None
           end
      else None
  | String _ _, EmptyString => None
  end.

(** The ways [p*] can match at the head of [s], longest first. *)
Fixpoint star (p : ascii -> bool) (s : string) : list (string * string) :=
  match s with
  | String c s' =>
      if p c
      then map (fun m => (String c (fst m), snd m)) (star p s') ++ [(EmptyString, s)]
      else [(EmptyString, s)]
  | EmptyString => [(EmptyString, EmptyString)]
  end.

Definition at_eol (s : string) : bool :=
  match s with
  | EmptyString => true
  | String c EmptyString => Ascii.eqb c Py.LF
  | _ => false
  end.

Definition unit_thread (s : string) : thread := Thread EmptyString s [].

(** [exec ic r bol s]: every way [r] matches at the head of [s], in the
    order of Python's backtracking; [bol] says that [s] starts at the
    beginning of the subject, [ic] is [re.IGNORECASE]. *)
Fixpoint exec (ic : bool) (r : regex) (bol : bool) (s : string) : list thread :=
  match r with
  | Lit l =>
      match lit ic l s with
      | Some (m, s') => [Thread m s' []]
      | None => []
      end
  | Cls p =>
      match s with
      | String c s' => if p c then [Thread (String c EmptyString) s' []] else []
      | EmptyString => []
      end
  | Star p => map (fun m => Thread (fst m) (snd m) []) (star p s)
  | Plus p =>
      match s with
      | String c s' =>
          if p c
          then map (fun m => Thread (String c (fst m)) (snd m) []) (star p s')
          else []
      | EmptyString => []
      end
  | Opt r' => exec ic r' bol s ++ [unit_thread s]
  | Cat r1 r2 =>
      flat_map
        (fun t1 =>
           map (fun t2 => Thread (eaten t1 +:+ eaten t2) (rest t2)
                                 (groups t1 ++ groups t2))
               (exec ic r2 (bol && Py.falsy (eaten t1)) (rest t1)))
        (exec ic r1 bol s)
  | Grp g r' =>
      map (fun t => Thread (eaten t) (rest t) (groups t ++ [(g, eaten t)]))
          (exec ic r' bol s)
  | Bol => if bol then [unit_thread s] else []
  | Eol => if at_eol s then [unit_thread s] else []
  end.

(** [re.compile(r, flags).match(s)] *)
Definition match_ (ic : bool) (r : regex) (s : string) : option thread :=
  hd_error (exec ic r true s).

(** [m.group(g)] *)
Fixpoint lookup (g : string) (gs : list (string * string)) : string :=
  match gs with
  | [] => EmptyString
  | (k, v) :: gs' => if String.eqb g k then v else lookup g gs'
  end.

Definition group (g : string) (m : thread) : string := lookup g (groups m).

(** Every character of a string is in a class. *)
Fixpoint all_in (p : ascii -> bool) (s : string) : bool :=
  match s with
  | EmptyString => true
  | String c s' => p c && all_in p s'
  end.

(** Patterns without [$]. *)
Fixpoint eol_free (r : regex) : bool :=
  match r with
  | Eol => false
  | Opt r' | Grp _ r' => eol_free r'
  | Cat r1 r2 => eol_free r1 && eol_free r2
  | _ => true
  end.

(** Patterns without a capturing group. *)
Fixpoint group_free (r : regex) : bool :=
  match r with
  | Grp _ _ => false
  | Opt r' => group_free r'
  | Cat r1 r2 => group_free r1 && group_free r2
  | _ => true
  end.

End Re.

(** ** tags.py: comments *)

Module Comment.

Record t : Type := Comment { text : string; prefix : string }.

(** [Comment.__str__] *)
Definition str (c : t) : string := prefix c +:+ text c.

End Comment.

Module Comments.

Record t : Type := Comments {
  data : list Comment.t;
  _preceding_lines : list string
}.

(** The pattern of [Comments.parse], written with blanks between its
    parts: [^ ( \s* # \s* ) ( .* ) $]; the two groups are numbered. *)
Definition comment_regex : Re.regex :=
  Re.Cat Re.Bol
    (Re.Cat (Re.Grp "1" (Re.Cat (Re.Star Re.space)
                           (Re.Cat (Re.Lit "#") (Re.Star Re.space))))
       (Re.Cat (Re.Grp "2" (Re.Star Re.dot)) Re.Eol)).

(** One turn of the loop of [Comments.parse]; the state is the pair
    [(comments, preceding_lines)]. *)
Definition parse_step (st : list Comment.t * list string) (line : string)
  : list Comment.t * list string :=
  let '(comments, preceding_lines) := st in
  match Re.match_ false comment_regex line with
  | None => (comments, line :: preceding_lines)
  | Some m =>
      match preceding_lines with
      | _ :: _ => (comments, line :: preceding_lines)
      | [] => (Comment.Comment (Re.group "2" m) (Re.group "1" m) :: comments,
               preceding_lines)
      end
  end.

(** [Comments.parse] *)
Definition parse (lines : list string) : t :=
  let '(comments, preceding_lines) := fold_left parse_step (rev lines) ([], []) in
  Comments comments preceding_lines.

(** [Comments.get_raw_data] *)
Definition get_raw_data (c : t) : list string :=
  _preceding_lines c ++ map Comment.str (data c).

(** [Comments.copy] *)
Definition copy (c : t) : t := Comments (data c) (_preceding_lines c).

End Comments.


(** ** tags.py: tags *)

(** [TAG_NAMES].  The source holds the names in a set, whose iteration order
    is not fixed; [Tags.parse] below takes that order as an argument (and
    is shown not to depend on it). *)
Definition TAG_NAMES : list string :=
  [ "name"; "version"; "release"; "epoch"; "summary"; "license";
    "distribution"; "disturl"; "vendor"; "group"; "packager"; "url"; "vcs";
    "source"; "patch"; "nosource"; "nopatch"; "excludearch"; "exclusivearch";
    "excludeos"; "exclusiveos"; "icon"; "provides"; "requires"; "recommends";
    "suggests"; "supplements"; "enhances"; "prereq"; "conflicts"; "obsoletes";
    "prefixes"; "prefix"; "buildroot"; "buildarchitectures"; "buildarch";
    "buildconflicts"; "buildprereq"; "buildrequires"; "autoreqprov";
    "autoreq"; "autoprov"; "docdir"; "disttag"; "bugurl"; "translationurl";
    "upstreamreleases"; "orderwithrequires"; "removepathpostfixes";
    "modularitylabel" ].

(** [TAGS_WITH_ARG] *)
Definition TAGS_WITH_ARG : list string :=
  [ "summary"; "group"; "requires"; "prereq"; "orderwithrequires" ].

(** [name in names] for strings. *)
Definition str_in (name : string) (names : list string) : bool :=
  existsb (String.eqb name) names.

(** The optional argument of a tag name, [(?: \s* \( \s* [^\s)]* \s* \) )?]. *)
Definition tag_arg_regex : Re.regex :=
  Re.Opt (Re.Cat (Re.Star Re.space)
            (Re.Cat (Re.Lit "(")
               (Re.Cat (Re.Star Re.space)
                  (Re.Cat (Re.Star Re.arg_char)
                     (Re.Cat (Re.Star Re.space) (Re.Lit ")")))))).

(** [get_tag_name_regex] *)
Definition get_tag_name_regex (name : string) : Re.regex :=
  let regex := Re.Lit name in
  if str_in name TAGS_WITH_ARG then Re.Cat regex tag_arg_regex
  else if str_in name ["source"; "patch"] then Re.Cat regex (Re.Star Re.digit)
  else regex.

Module Tag.

Record t : Type := Tag {
  name : string;
  value : string;
  _expanded_value : option string;
  _separator : string;
  comments : Comments.t
}.

(** The test of [Tag.__init__]: [any(r.match(name) for r in name_regexes)],
    every pattern compiled with [re.IGNORECASE]. *)
Definition name_ok (name : string) : bool :=
  existsb (fun t => bool_decide (is_Some (Re.match_ true (get_tag_name_regex t) name)))
          TAG_NAMES.

(** [Tag.__init__] *)
Definition init (name value : string) (expanded_value : option string)
    (separator : string) (comments : Comments.t) : result t :=
  if Py.falsy name || negb (name_ok name)
  then Raise ValueError
  else Ok (Tag name value expanded_value separator (Comments.copy comments)).

(** [Tag.valid] *)
Definition valid (tag : t) : bool := bool_decide (is_Some (_expanded_value tag)).

(** The tag with its [comments._preceding_lines] replaced. *)
Definition with_preceding_lines (lines : list string) (tag : t) : t :=
  Tag (name tag) (value tag) (_expanded_value tag) (_separator tag)
      (Comments.Comments (Comments.data (comments tag)) lines).

Definition preceding_lines (tag : t) : list string :=
  Comments._preceding_lines (comments tag).

(** The line of a tag, [name + separator + value]. *)
Definition line (tag : t) : string :=
  name tag +:+ _separator tag +:+ value tag.

End Tag.

(** Python's indexing of a list by an integer: the position that [l[i]]
    denotes, [None] where Python raises [IndexError]. *)
Definition py_index {A : Type} (l : list A) (i : Z) : option nat :=
  let n := Z.of_nat (length l) in
  if (0 <=? i)%Z && (i <? n)%Z then Some (Z.to_nat i)
  else if (- n <=? i)%Z && (i <? 0)%Z then Some (Z.to_nat (n + i))
  else None.

(** [l.insert(i, x)]: the position is clipped to the list. *)
Definition py_insert {A : Type} (l : list A) (i : Z) (x : A) : list A :=
  let n := Z.of_nat (length l) in
  let k := if (i <? 0)%Z then Z.to_nat (Z.max 0 (n + i)) else Z.to_nat (Z.min i n) in
  take k l ++ x :: drop k l.

Module Tags.

Record t : Type := Tags {
  data : list Tag.t;
  _remainder : list string
}.

(** The pattern of [regex_pattern(tag)], with blanks between its parts:
    [^ (?P<n> name_regex ) (?P<s> \s* : \s* ) (?P<v> .+ )]. *)
Definition regex_pattern (tag : string) : Re.regex :=
  let name_regex := get_tag_name_regex tag in
  Re.Cat Re.Bol
    (Re.Cat (Re.Grp "n" name_regex)
       (Re.Cat (Re.Grp "s" (Re.Cat (Re.Star Re.space)
                              (Re.Cat (Re.Lit ":") (Re.Star Re.space))))
          (Re.Grp "v" (Re.Plus Re.dot)))).

(** The blank-line seam of [delete]: the lines of the deleted tag without
    their trailing empty lines, one empty line if either side had one at
    the seam, the target's lines without their leading empty lines. *)
Definition seam (preceding_lines lines : list string) : list string :=
  let delimiter :=
    if match last preceding_lines with Some l => Py.falsy l | None => false end
       || match head lines with Some l => Py.falsy l | None => false end
    then [EmptyString] else [] in
  rev (Py.dropwhile Py.falsy (rev preceding_lines))
  ++ delimiter
  ++ Py.dropwhile Py.falsy lines.

(** The local function [delete] of [Tags.__delitem__].  The collection
    is returned next to the outcome, because the tag is removed before the
    second lookup can raise. *)
Definition delete (index : Z) (self : t) : result unit * t :=
  match py_index (data self) index with
  | None => (Raise IndexError, self)
  | Some k =>
      let preceding_lines :=
        match data self !! k with
        | Some tag => Tag.preceding_lines tag
        | None => []
        end in
      let data1 := base.delete k (data self) in
      if (index <? Z.of_nat (length data1))%Z
      then match py_index data1 index with
           | None => (Raise IndexError, Tags data1 (_remainder self))
           | Some j =>
               (Ok tt,
                Tags (alter (fun tag => Tag.with_preceding_lines
                                          (seam preceding_lines (Tag.preceding_lines tag))
                                          tag) j data1)
                     (_remainder self))
           end
      else (Ok tt, Tags data1 (seam preceding_lines (_remainder self)))
  end.

(** [Tags.__delitem__] with an integer index.  (With a slice the source
    repeats [delete] over [range(len(self.data))[i]], highest index
    first.) *)
Definition delitem (i : Z) (self : t) : result unit * t := delete i self.

(** Position of the first line that starts with [%endif]:
    [next((i for i, line in enumerate(lines) if line.startswith(...)), -1)],
    [None] standing for -1. *)
Fixpoint endif_index (lines : list string) : option nat :=
  match lines with
  | [] => None
  | line :: lines' =>
      if Py.startswith "%endif" line then Some 0
      else option_map S (endif_index lines')
  end.

(** What [insert] does to the new tag and to the lines below it. *)
Definition reattach (item : Tag.t) (lines : list string) : Tag.t * list string :=
  match endif_index lines with
  | Some index =>
      (Tag.with_preceding_lines (take (S index) lines ++ Tag.preceding_lines item) item,
       drop (S index) lines)
  | None => (item, lines)
  end.

(** [Tags.insert] *)
Definition insert (i : Z) (item : Tag.t) (self : t) : result unit * t :=
  let len := Z.of_nat (length (data self)) in
  let i := if (i >? len)%Z then len else i in
  if (i <? len)%Z
  then match py_index (data self) i with
       | None => (Raise IndexError, self)
       | Some k =>
           match data self !! k with
           | None => (Raise IndexError, self)
           | Some next =>
               let '(item', lines') := reattach item (Tag.preceding_lines next) in
               (Ok tt,
                Tags (py_insert (<[k := Tag.with_preceding_lines lines' next]> (data self))
                                i item')
                     (_remainder self))
           end
       end
  else
    let '(item', lines') := reattach item (_remainder self) in
    (Ok tt, Tags (py_insert (data self) i item') lines').

(** One turn of the loop of [Tags.parse]; the state is [(data, buffer)].
    [order] is the order in which the set [TAG_NAMES] is iterated,
    [parsed_lines] is [parsed_section or []]. *)
Definition parse_step (order : list string) (parsed_lines : list string)
    (st : result (list Tag.t * list string)) (line : string)
  : result (list Tag.t * list string) :=
  bind st (fun '(data, buffer) =>
    match Py.first_some (fun t => Re.match_ true (regex_pattern t) line) order with
    | Some m =>
        let tag_regex := regex_pattern (Re.group "n" m) in
        let e := Py.first_some (fun pl => Re.match_ false tag_regex pl) parsed_lines in
        let expanded_value := option_map (Re.group "v") e in
        bind (Tag.init (Re.group "n" m) (Re.group "v" m) expanded_value
                       (Re.group "s" m) (Comments.parse buffer))
             (fun tag => Ok (data ++ [tag], []))
    | None => Ok (data, buffer ++ [line])
    end).

(** [Tags.parse].  A [Section] is the list of its lines; an absent or
    empty [parsed_section] gives no expanded lines. *)
Definition parse (order : list string) (raw_section : list string)
    (parsed_section : option (list string)) : result t :=
  bind (fold_left (parse_step order (default [] parsed_section)) raw_section (Ok ([], [])))
       (fun '(data, buffer) => Ok (Tags data buffer)).

(** [Tags.get_raw_section_data] *)
Definition get_raw_section_data (self : t) : list string :=
  flat_map (fun tag => Comments.get_raw_data (Tag.comments tag) ++ [Tag.line tag])
           (data self)
  ++ _remainder self.

End Tags.

(** ** sourcelist.py *)

Module SourcelistEntry.

(** The [context] of an entry only serves [expanded_location]; it is kept
    as an opaque value. *)
Record t (Specfile : Type) : Type := SourcelistEntry {
  location : string;
  comments : Comments.t;
  _context : option Specfile
}.
Arguments SourcelistEntry {Specfile} _ _ _.
Arguments location {Specfile} _.
Arguments comments {Specfile} _.
Arguments _context {Specfile} _.

(** [SourcelistEntry.__init__] *)
Definition init {Specfile : Type} (location : string) (comments : Comments.t)
    (context : option Specfile) : t Specfile :=
  SourcelistEntry location (Comments.copy comments) context.

End SourcelistEntry.

Module Sourcelist.

Record t (Specfile : Type) : Type := Sourcelist {
  data : list (SourcelistEntry.t Specfile);
  _remainder : list string
}.
Arguments Sourcelist {Specfile} _ _.
Arguments data {Specfile} _.
Arguments _remainder {Specfile} _.

(** One turn of the loop of [Sourcelist.parse]. *)
Definition parse_step {Specfile : Type} (context : option Specfile)
    (st : list (SourcelistEntry.t Specfile) * list string) (line : string)
  : list (SourcelistEntry.t Specfile) * list string :=
  let '(data, buffer) := st in
  if negb (Py.falsy line) && negb (Py.startswith "#" (Py.lstrip line))
  then (data ++ [SourcelistEntry.init line (Comments.parse buffer) context], [])
  else (data, buffer ++ [line]).

(** [Sourcelist.parse] *)
Definition parse {Specfile : Type} (section : list string)
    (context : option Specfile) : t Specfile :=
  let '(data, buffer) := fold_left (parse_step context) section ([], []) in
  Sourcelist data buffer.

(** [Sourcelist.get_raw_section_data] *)
Definition get_raw_section_data {Specfile : Type} (self : t Specfile) : list string :=
  flat_map (fun source => Comments.get_raw_data (SourcelistEntry.comments source)
                          ++ [SourcelistEntry.location source])
           (data self)
  ++ _remainder self.

End Sourcelist.


(** ** spec_parser.py

    The source directory is the map of its regular files by name; a path
    [self.sourcedir / filename] is its file name.  Writing and removing a
    file there succeed, and the oracle reads the directory without changing
    it.  The temporary file that holds the document and the capture of the
    oracle's standard error live elsewhere and are left out.  A Python set
    is a [gset]; a loop over it follows [elements]. *)

Module SpecParser.

Definition bytes : Type := list Byte.byte.

(** An operation on a file of [sourcedir]. *)
Inductive fs_op : Type :=
| WriteBytes (filename : string) (content : bytes)   (* path.write_bytes *)
| WriteText (filename : string) (content : bytes)    (* path.write_text *)
| Unlink (filename : string).                        (* path.unlink *)

(** What a call can see and change: the regular files of [sourcedir] by
    name, the process environment, and the operations performed on
    [sourcedir] so far, oldest first. *)
Record world : Type := World {
  files : gmap string bytes;
  environ : gmap string string;
  ops : list fs_op
}.

(** Computations that change the world and may raise. *)
Definition M (A : Type) : Type := world -> result A * world.

Definition ret {A : Type} (a : A) : M A := fun w => (Ok a, w).
Definition raise {A : Type} (e : exn) : M A := fun w => (Raise e, w).
Definition bindM {A B : Type} (c : M A) (k : A -> M B) : M B :=
  fun w => match c w with
           | (Ok a, w') => k a w'
           | (Raise e, w') => (Raise e, w')
           end.

(** [try: c finally: f] *)
Definition finally {A : Type} (c : M A) (f : M unit) : M A :=
  fun w => match c w with
           | (r, w') => match f w' with
                        | (Ok _, w'') => (r, w'')
                        | (Raise e, w'') => (Raise e, w'')
                        end
           end.

Declare Scope pyM_scope.
Delimit Scope pyM_scope with pyM.
Notation "x <- c1 ;; c2" := (bindM c1 (fun x => c2))
  (at level 100, c1 at next level, right associativity) : pyM_scope.
Notation "c1 ;; c2" := (bindM c1 (fun _ => c2))
  (at level 100, right associativity) : pyM_scope.

(** File operations. *)
Definition is_file (filename : string) (w : world) : bool :=
  bool_decide (is_Some (files w !! filename)).
Definition write_bytes (filename : string) (content : bytes) : M unit :=
  fun w => (Ok tt, World (<[filename := content]> (files w)) (environ w)
                         (ops w ++ [WriteBytes filename content])).
Definition write_text (filename : string) (content : bytes) : M unit :=
  fun w => (Ok tt, World (<[filename := content]> (files w)) (environ w)
                         (ops w ++ [WriteText filename content])).
Definition unlink (filename : string) : M unit :=
  fun w => (Ok tt, World (base.delete filename (files w)) (environ w)
                         (ops w ++ [Unlink filename])).

(** [SIGNATURES] *)
Definition SIGNATURES : list (string * bytes) :=
  [ (".bz2", [Byte.x42; Byte.x5a; Byte.x68]);
    (".zip", [Byte.x50; Byte.x4b; Byte.x30; Byte.x30]);
    (".xz", [Byte.xfd; Byte.x37; Byte.x7a; Byte.x58; Byte.x5a; Byte.x00]);
    (".zst", [Byte.x28; Byte.xb5; Byte.x2f]);
    (".lz", [Byte.x4c; Byte.x5a; Byte.x49; Byte.x50]);
    (".lrz", [Byte.x4c; Byte.x52; Byte.x5a; Byte.x49]);
    (".gz", [Byte.x1f; Byte.x8b]);
    (".7z", [Byte.x37; Byte.x7a; Byte.xbc; Byte.xaf; Byte.x27; Byte.x1c]) ].

(** [MAGIC_LENGTH] *)
Definition MAGIC_LENGTH : nat := 13.

(** [b.ljust(n, fill)] *)
Definition ljust (n : nat) (fill : Byte.byte) (b : bytes) : bytes :=
  b ++ replicate (n - length b) fill.

(** The [for]/[else] over [SIGNATURES]: the content written for a file
    name. *)
Definition signature (filename : string) : bytes :=
  match find (fun sig => Py.endswith (fst sig) filename) SIGNATURES with
  | Some sig => ljust MAGIC_LENGTH Byte.x00 (snd sig)
  | None => replicate MAGIC_LENGTH Byte.x00
  end.

(** The text [DUMMY], encoded. *)
Definition DUMMY : bytes := [Byte.x44; Byte.x55; Byte.x4d; Byte.x4d; Byte.x59].

(** [RPMSPEC_ANYARCH | RPMSPEC_FORCE] and [RPMSPEC_ANYARCH]. *)
Record flags : Type := Flags { RPMSPEC_ANYARCH : bool; RPMSPEC_FORCE : bool }.

Section Parser.

(** The collaborators that are not part of these sources. *)
Variable Spec : Type.                               (* an [rpm.spec] instance *)
Variable spec_sources : Spec -> gset string.        (* [{s for s, _, _ in spec.sources}] *)
(** [rpm.spec(tmp.name, flags)] on a temporary file that holds [content],
    after [Macros.reinit()] and the definitions of [self.macros],
    [extra_macros] and [_sourcedir]: a function of the files of
    [sourcedir]; [None] stands for [ValueError]. *)
Variable rpm_spec : gmap string bytes -> string -> flags -> option Spec.
Variable get_filename_from_location : string -> string.
(** The two static scans of [_do_parse]; they read the macro context and
    write no file. *)
Variable collect_included_sources : string -> gset string.
Variable collect_sources_referenced_from_tags : string -> gset string.

(** One turn of the first loop of [_make_dummy_sources]; the state is
    the list [dummy_sources]. *)
Definition fake_source (dummy_sources : list string) (source : string)
  : M (list string) :=
  let filename := get_filename_from_location source in
  if Py.falsy filename then ret dummy_sources
  else fun w =>
    if is_file filename w then (Ok dummy_sources, w)
    else (write_bytes filename (signature filename) ;;
          ret (dummy_sources ++ [filename]))%pyM w.

(** One turn of its second loop. *)
Definition fake_non_empty_source (dummy_sources : list string) (source : string)
  : M (list string) :=
  let filename := get_filename_from_location source in
  if Py.falsy filename then ret dummy_sources
  else fun w =>
    if is_file filename w then (Ok dummy_sources, w)
    else (write_text filename DUMMY ;;
          ret (dummy_sources ++ [filename]))%pyM w.

(** [for x in xs: acc = body acc x] *)
Fixpoint for_each {A B : Type} (body : B -> A -> M B) (xs : list A) (acc : B) : M B :=
  match xs with
  | [] => ret acc
  | x :: xs' => (acc' <- body acc x ;; for_each body xs' acc')%pyM
  end.

(** [_make_dummy_sources] up to its [yield]. *)
Definition create_dummy_sources (sources non_empty_sources : gset string)
  : M (list string) :=
  (dummy_sources <- for_each fake_source (elements sources) [] ;;
   for_each fake_non_empty_source (elements non_empty_sources) dummy_sources)%pyM.

(** [_make_dummy_sources] after its [yield]. *)
Definition remove_dummy_sources (dummy_sources : list string) : M unit :=
  for_each (fun _ path => unlink path) dummy_sources tt.

(** [with self._make_dummy_sources(sources, non_empty_sources) as
    dummy_sources: body].  The generator has no [try]/[finally] around
    its [yield]: when the body raises, [contextlib] throws the exception
    into the generator at the [yield] and the loop of [unlink] calls is
    not reached. *)
Definition _make_dummy_sources {A : Type} (sources non_empty_sources : gset string)
    (body : list string -> M A) : M A :=
  (dummy_sources <- create_dummy_sources sources non_empty_sources ;;
   a <- body dummy_sources ;;
   remove_dummy_sources dummy_sources ;;
   ret a)%pyM.

Definition setenv (key value : string) : M unit :=
  fun w => (Ok tt, World (files w) (<[key := value]> (environ w)) (ops w)).

(** The local function [restore] of [_sanitize_environment]:
    [os.environ[key] = env[key]], and [del os.environ[key]] when [env] has
    no such key, which raises [KeyError] when the variable is not set. *)
Definition restore (env : gmap string string) (key : string) : M unit :=
  fun w =>
    match env !! key with
    | Some v => (Ok tt, World (files w) (<[key := v]> (environ w)) (ops w))
    | None =>
        match environ w !! key with
        | Some _ => (Ok tt, World (files w) (base.delete key (environ w)) (ops w))
        | None => (Raise KeyError, w)
        end
    end.

(** [with self._sanitize_environment(): body]; this generator does wrap
    its [yield] in [try]/[finally]. *)
Definition _sanitize_environment {A : Type} (body : M A) : M A :=
  fun w =>
    let env := environ w in
    let keys := ["LANG"; "LC_ALL"] in
    (for_each (fun _ key => setenv key "C.UTF-8") keys tt ;;
     finally body (for_each (fun _ key => restore env key) keys tt))%pyM w.

(** The local function [get_rpm_spec] of [_do_parse]. *)
Definition get_rpm_spec (content : string) (fl : flags) : M Spec :=
  _sanitize_environment
    (fun w => match rpm_spec (files w) content fl with
              | Some spec => (Ok spec, w)
              | None => (Raise RPMException, w)
              end).

Definition non_build : flags := Flags true true.
Definition full : flags := Flags true false.

(** The local variables of [_do_parse] after its [try] statement;
    [spec] is unbound when no parse has returned. *)
Record locals : Type := Locals {
  spec : option Spec;
  sources : gset string;
  non_empty_sources : gset string;
  tainted : bool
}.

(** The [except RPMException] branch of [_do_parse]. *)
Definition forced (force_parse : bool) (content : string) : M locals :=
  if negb force_parse then raise RPMException
  else
    let sources := collect_included_sources content in
    let non_empty_sources := collect_sources_referenced_from_tags content in
    if bool_decide (sources = ∅) && bool_decide (non_empty_sources = ∅)
    then raise RPMException
    else
      _make_dummy_sources sources non_empty_sources (fun dummy_sources =>
        match dummy_sources with
        | _ :: _ =>
            (spec <- get_rpm_spec content non_build ;;
             ret (Locals (Some spec) (spec_sources spec ∖ non_empty_sources)
                         non_empty_sources true))%pyM
        | [] => ret (Locals None sources non_empty_sources false)
        end).

(** [SpecParser._do_parse] *)
Definition _do_parse (force_parse : bool) (content : string) : M (Spec * bool) :=
  fun w =>
    let first :=
      match get_rpm_spec content non_build w with
      | (Ok spec, w1) => (Ok (Locals (Some spec) (spec_sources spec) ∅ false), w1)
      | (Raise RPMException, w1) => forced force_parse content w1
      | (Raise e, w1) => (Raise e, w1)
      end in
    match first with
    | (Raise e, w2) => (Raise e, w2)
    | (Ok l, w2) =>
        match spec l with
        | None => (Raise UnboundLocalError, w2)          (* [del spec] *)
        | Some _ =>
            _make_dummy_sources (sources l) (non_empty_sources l) (fun _ =>
              (spec <- get_rpm_spec content full ;;
               ret (spec, tainted l))%pyM) w2
        end
    end.

(** The attributes of a [SpecParser] that [parse] reads and writes;
    [self_spec] is [None] before the first parse and after [del]. *)
Record parser : Type := Parser {
  force_parse : bool;
  self_spec : option Spec;
  self_tainted : bool
}.

(** [SpecParser.parse] *)
Definition parse (self : parser) (content : string) : world -> result unit * parser * world :=
  fun w =>
    match _do_parse (force_parse self) content w with
    | (Ok (spec, tainted), w') => (Ok tt, Parser (force_parse self) (Some spec) tainted, w')
    | (Raise e, w') => (Raise e, Parser (force_parse self) None (self_tainted self), w')
    end.

End Parser.

End SpecParser.

(** ** Equality of comments

    [Comment] defines no [__eq__], so Python compares two comments by
    identity; [Comments] defines none either and inherits
    [UserList.__eq__], which returns [self.data == other.data] for two
    [UserList] objects.  Objects are therefore told apart by their address
    here. *)

Module Objects.

(** The address of a [Comment] object. *)
Definition ref : Type := nat.

(** The [Comment] objects that exist, by address. *)
Definition heap : Type := gmap nat Comment.t.

(** A [Comments] object: its [data] list holds references. *)
Record comments : Type := CommentsObj {
  data : list ref;
  _preceding_lines : list string
}.

(** [object.__eq__] on two comments: identity. *)
Definition Comment_eq (a b : ref) : bool := bool_decide (a = b).

(** [list.__eq__]: equal lengths, and [x is y or x == y] at each
    position. *)
Fixpoint list_eq (l1 l2 : list ref) : bool :=
  match l1, l2 with
  | [], [] => true
  | a :: l1', b :: l2' => (bool_decide (a = b) || Comment_eq a b) && list_eq l1' l2'
  | _, _ => false
  end.

(** [UserList.__eq__] on two [Comments] objects. *)
Definition Comments_eq (x y : comments) : bool := list_eq (data x) (data y).

(** The value that a [Comments] object holds in a heap. *)
Definition value (h : heap) (x : comments) : option Comments.t :=
  option_map (fun cs => Comments.Comments cs (_preceding_lines x))
             (mapM (fun r => h !! r) (data x)).

(** Structural equality, in the words of the specification: the comment
    sequences are element-wise equal in text and prefix, and the
    preceding lines are equal. *)
Definition structurally_equal (h : heap) (x y : comments) : Prop :=
  is_Some (value h x) /\ value h x = value h y.

End Objects.

(** ** Readings of the specification used in the statements *)

(** A tag name is recognized when one pattern of [TAG_NAMES] matches the
    whole of it, letter case aside. *)
Definition recognized (name : string) : bool :=
  existsb (fun t => existsb (fun m => Py.falsy (Re.rest m))
                            (Re.exec true (get_tag_name_regex t) true name))
          TAG_NAMES.

(** The values of the lines of the expanded section that match the pattern
    built from [name], in the order of the lines. *)
Definition matching_values (name : string) (parsed_lines : list string) : list string :=
  omap (fun pl => option_map (Re.group "v")
                             (Re.match_ false (Tags.regex_pattern name) pl))
       parsed_lines.

(** How many of the first [k] tags have the name of tag [k]. *)
Definition occurrence (tags : list Tag.t) (k : nat) : nat :=
  match tags !! k with
  | Some tag => length (filter (fun t => Tag.name t = Tag.name tag) (take k tags))
  | None => 0
  end.

(** Positional pairing: tag [k] takes the value of the line that has, among
    the matching expanded lines, the rank that tag [k] has among the raw
    tags of its name. *)
Definition positional_pairing (tags : Tags.t) (parsed_lines : list string) : Prop :=
  forall k tag, Tags.data tags !! k = Some tag ->
    Tag._expanded_value tag
    = matching_values (Tag.name tag) parsed_lines !! occurrence (Tags.data tags) k.

(** The longest head of [s] inside the class [p], and what follows it. *)
Fixpoint span (p : ascii -> bool) (s : string) : string * string :=
  match s with
  | String c s' =>
      if p c then (String c (fst (span p s')), snd (span p s'))
      else (EmptyString, s)
  | EmptyString => (EmptyString, EmptyString)
  end.

(** [s] without its final line feed, if it has one. *)
Fixpoint chomp (s : string) : string :=
  match s with
  | EmptyString => EmptyString
  | String c s' =>
      match s' with
      | EmptyString => if Ascii.eqb c Py.LF then EmptyString else s
      | String _ _ => String c (chomp s')
      end
  end.

(** The comment pattern in the words of the specification: optional
    leading white space, the number sign, optional white space, free text.
    The two parts of a comment are the prefix, which runs to the end of
    the white space after the number sign, and the text, which is the rest
    of the line, a final line feed aside; a text that spans more than one
    line is not the text of a comment. *)
Definition comment_pattern (line : string) : option (string * string) :=
  let (leading, r1) := span Py.isspace line in
  match r1 with
  | String c r2 =>
      if Ascii.eqb c "#"
      then let (blank, r3) := span Py.isspace r2 in
           if Py.single_line (chomp r3)
           then Some (leading +:+ String "#" blank, chomp r3)
           else None
      else None
  | EmptyString => None
  end.

(** ** Definitions for the statements and their proofs *)

(** A line is a comment line when the pattern of [Comments.parse] matches
    it. *)
Definition is_comment_line (line : string) : bool :=
  bool_decide (is_Some (Re.match_ false Comments.comment_regex line)).

(** The comment that [Comments.parse] makes of a comment line. *)
Definition comment_of_line (line : string) : Comment.t :=
  match Re.match_ false Comments.comment_regex line with
  | Some m => Comment.Comment (Re.group "2" m) (Re.group "1" m)
  | None => Comment.Comment EmptyString EmptyString
  end.

(** The scan of [Comments.parse], last line first. *)
Definition comments_scan (lines : list string) : list Comment.t * list string :=
  fold_right (fun line st => Comments.parse_step st line) ([], []) lines.

(** A line that does not end with a line feed. *)
Definition no_final_LF (line : string) : Prop :=
  forall a, line <> a +:+ String Py.LF EmptyString.

(** The expression of [Tags.parse] for [expanded_value]. *)
Definition first_expanded_value (name : string) (parsed_lines : list string)
  : option string :=
  option_map (Re.group "v")
    (Py.first_some (fun pl => Re.match_ false (Tags.regex_pattern name) pl) parsed_lines).

(** The tag that [Tags.parse] builds from a match. *)
Definition tag_of_match (parsed_lines buffer : list string) (m : Re.thread) : Tag.t :=
  Tag.Tag (Re.group "n" m) (Re.group "v" m)
          (first_expanded_value (Re.group "n" m) parsed_lines)
          (Re.group "s" m) (Comments.copy (Comments.parse buffer)).

(** One turn of the loop of [Tags.parse] when no constructor raises. *)
Definition tags_scan_step (order parsed_lines : list string)
    (st : list Tag.t * list string) (line : string) : list Tag.t * list string :=
  match Py.first_some (fun t => Re.match_ true (Tags.regex_pattern t) line) order with
  | Some m => (fst st ++ [tag_of_match parsed_lines (snd st) m], [])
  | None => (fst st, snd st ++ [line])
  end.

Definition render_state (st : list Tag.t * list string) : list string :=
  Tags.get_raw_section_data (Tags.Tags (fst st) (snd st)).

Definition sourcelist_render_state {Specfile : Type}
    (st : list (SourcelistEntry.t Specfile) * list string) : list string :=
  Sourcelist.get_raw_section_data (Sourcelist.Sourcelist (fst st) (snd st)).

(** Where [list.insert] puts an item in a list of [n] items. *)
Definition insert_position (n : nat) (i : Z) : nat :=
  if (i <? 0)%Z then Z.to_nat (Z.max 0 (Z.of_nat n + i))
  else Z.to_nat (Z.min i (Z.of_nat n)).

(** The lines directly above position [p] of a collection: the preceding
    lines of the tag at [p], or the remainder below the last tag. *)
Definition lines_above (self : Tags.t) (p : nat) : list string :=
  match Tags.data self !! p with
  | Some next => Tag.preceding_lines next
  | None => Tags._remainder self
  end.

Definition is_endif (line : string) : bool := Py.startswith "%endif" line.

(** [new] names the files that exist in [w'] and not in [w]; each holds
    [content] of its name, and nothing else differs between the worlds but
    the record of the operations. *)
Definition placed (content : string -> SpecParser.bytes) (new : list string)
    (w w' : SpecParser.world) : Prop :=
  NoDup new
  /\ (forall f, f ∈ new ->
        SpecParser.files w !! f = None /\ SpecParser.files w' !! f = Some (content f))
  /\ (forall f, f ∉ new -> SpecParser.files w' !! f = SpecParser.files w !! f)
  /\ SpecParser.environ w' = SpecParser.environ w.

(** Concrete collaborators and values for the examples. *)
Module Demo.

(** A location's file name: the text after its last slash. *)
Fixpoint basename_from (acc s : string) : string :=
  match s with
  | EmptyString => acc
  | String c s' =>
      if Ascii.eqb c "/"%char then basename_from EmptyString s'
      else basename_from (acc +:+ String c EmptyString) s'
  end.
Definition basename (s : string) : string := basename_from EmptyString s.

(** An [rpm.spec] instance is represented by its set of sources. *)
Definition Spec : Type := gset string.
Definition spec_sources (spec : Spec) : gset string := spec.

(** A document with one remote source and nothing that can fail: every
    parse succeeds, whatever is on disk. *)
Definition remote_source : string := "https://example.com/pkg-1.0.tar.gz".
Definition oracle_ok (fs : gmap string SpecParser.bytes) (content : string)
    (fl : SpecParser.flags) : option Spec :=
  Some {[ remote_source ]}.

(** A document that includes [macros.inc]: a parse succeeds only when the
    file exists and holds something else than zero bytes. *)
Definition oracle_include (fs : gmap string SpecParser.bytes) (content : string)
    (fl : SpecParser.flags) : option Spec :=
  match fs !! "macros.inc" with
  | Some b => if forallb (Byte.eqb Byte.x00) b then None else Some ∅
  | None => None
  end.

(** A document with one remote source whose full parse fails: only the
    non-build parse, which has [RPMSPEC_FORCE], succeeds. *)
Definition oracle_non_build_only (fs : gmap string SpecParser.bytes) (content : string)
    (fl : SpecParser.flags) : option Spec :=
  if SpecParser.RPMSPEC_FORCE fl then Some {[ remote_source ]} else None.

Definition no_sources (content : string) : gset string := ∅.
Definition includes_macros (content : string) : gset string := {[ "macros.inc" ]}.

(** An empty source directory. *)
Definition empty_world : SpecParser.world := SpecParser.World ∅ ∅ [].

(** A parser with [force_parse] set, before its first parse. *)
Definition forcing_parser : SpecParser.parser Spec := SpecParser.Parser Spec true None false.

Definition gz_placeholder : SpecParser.bytes :=
  [Byte.x1f; Byte.x8b] ++ replicate 11 Byte.x00.

(** A tag whose value holds a line feed, and a source with a comment that
    ends with one. *)
Definition tags_with_LF : Tags.t :=
  Tags.Tags [Tag.Tag "Name" ("a" +:+ String Py.LF "b") None ": "
               (Comments.Comments [] [])] [].
Definition sourcelist_with_LF : Sourcelist.t unit :=
  Sourcelist.Sourcelist
    [SourcelistEntry.SourcelistEntry "pkg.tar.gz"
       (Comments.Comments [Comment.Comment ("a" +:+ String Py.LF EmptyString) "# "] [])
       None] [].

(** A tag and a source, each below an empty line and a comment. *)
Definition tags_plain : Tags.t :=
  Tags.Tags [Tag.Tag "Name" "test" None ": "
               (Comments.Comments [Comment.Comment "c" "# "] [""])]
            ["%description"].
Definition sourcelist_plain : Sourcelist.t unit :=
  Sourcelist.Sourcelist
    [SourcelistEntry.SourcelistEntry "pkg.tar.gz"
       (Comments.Comments [Comment.Comment "c" "# "] [""]) None] [].

End Demo.

(** The line ends with a line feed. *)
Fixpoint final_LF (s : string) : bool :=
  match s with
  | EmptyString => false
  | String c EmptyString => Ascii.eqb c Py.LF
  | String _ s' => final_LF s'
  end.

(** A line that opens a conditional block: [%if], [%ifarch], [%ifos] and
    the like. *)
Definition is_if (line : string) : bool := Py.startswith "%if" line.

(** The number of conditional blocks open after some lines. *)
Fixpoint conditional_depth (lines : list string) : Z :=
  match lines with
  | [] => 0
  | line :: lines' =>
      ((if is_if line then 1 else if is_endif line then -1 else 0)
       + conditional_depth lines')%Z
  end.

(** A lower-case ASCII letter. *)
Definition is_lower_letter (c : ascii) : bool :=
  let n := N_of_ascii c in N.leb 97 n && N.leb n 122.

(** The run of ASCII letters at the head of a line, in lower case. *)
Fixpoint letters_prefix (s : string) : string :=
  match s with
  | String c s' =>
      if is_lower_letter (Py.lower c) then String (Py.lower c) (letters_prefix s')
      else EmptyString
  | EmptyString => EmptyString
  end.

(** [new] names the files that a run of [_make_dummy_sources] up to its
    [yield] has created between [w] and [w']: none of them existed, each
    holds the signature of its name or the dummy text, and no other file and
    no environment variable has changed. *)
Definition placeholders (new : list string) (w w' : SpecParser.world) : Prop :=
  NoDup new
  /\ (forall f, f ∈ new ->
        SpecParser.files w !! f = None
        /\ (SpecParser.files w' !! f = Some (SpecParser.signature f)
            \/ SpecParser.files w' !! f = Some SpecParser.DUMMY))
  /\ (forall f, f ∉ new -> SpecParser.files w' !! f = SpecParser.files w !! f)
  /\ SpecParser.environ w' = SpecParser.environ w.

(** The files of [w'] are those of [w] and, possibly, placeholders for
    names that [w] does not have. *)
Definition only_placeholders_added (w w' : SpecParser.world) : Prop :=
  forall f,
    SpecParser.files w' !! f = SpecParser.files w !! f
    \/ (SpecParser.files w !! f = None
        /\ (SpecParser.files w' !! f = Some (SpecParser.signature f)
            \/ SpecParser.files w' !! f = Some SpecParser.DUMMY)).

(** The files and the environment of two worlds are the same. *)
Definition same_files (w w' : SpecParser.world) : Prop :=
  SpecParser.files w' = SpecParser.files w
  /\ SpecParser.environ w' = SpecParser.environ w.

(** The files of [w'] are those of [w] plus, possibly, placeholders; the
    environment is the same. *)
Definition placeholders_left (w w' : SpecParser.world) : Prop :=
  only_placeholders_added w w' /\ SpecParser.environ w' = SpecParser.environ w.

(** The lines that [Tags.get_raw_section_data] emits for one tag. *)
Definition render_tag (tag : Tag.t) : list string :=
  Comments.get_raw_data (Tag.comments tag) ++ [Tag.line tag].

(** The lines it emits for a run of tags. *)
Definition render_tags (tags : list Tag.t) : list string := flat_map render_tag tags.

(** The test of [Sourcelist.parse] for a line that holds a source. *)
Definition is_source_line (line : string) : bool :=
  negb (Py.falsy line) && negb (Py.startswith "#" (Py.lstrip line)).

(** [out] is [inp], or [inp] cut before one of its line feeds. *)
Definition cut_at_LF (out inp : string) : Prop :=
  inp = out \/ exists t, inp = out +:+ String Py.LF t.

(** [s.lower()] on a string of the code points of the model. *)
Fixpoint lower_str (s : string) : string :=
  match s with
  | String c s' => String (Py.lower c) (lower_str s')
  | EmptyString => EmptyString
  end.

(** What [Tags.parse] guarantees of the fields of a tag it builds. *)
Definition parsed_tag_fields (tag : Tag.t) : Prop :=
  Py.falsy (Tag.name tag) = false
  /\ Tag.name_ok (Tag.name tag) = true
  /\ Py.falsy (Tag.value tag) = false
  /\ Py.single_line (Tag.value tag) = true
  /\ exists a b, Tag._separator tag = a +:+ ":" +:+ b
                 /\ Re.all_in Re.space a = true /\ Re.all_in Re.space b = true.

(** What [Comments.get_raw_data] gives back of a line that went through
    [Comments.parse]: the line, or a comment line without its final line
    feed. *)
Definition raw_data_line (out inp : string) : Prop :=
  inp = out
  \/ (is_comment_line inp = true /\ inp = out +:+ String Py.LF EmptyString).

(** A string that is empty or starts outside the class [p]. *)
Definition stops (p : ascii -> bool) (s : string) : bool :=
  match s with
  | EmptyString => true
  | String c _ => negb (p c)
  end.

(** A comment as [Comments.parse] makes them: the prefix is the number
    sign with whitespace around it, the text has no line feed and does
    not start with whitespace. *)
Definition parsed_comment (c : Comment.t) : Prop :=
  (exists a b, Comment.prefix c = a +:+ "#" +:+ b
               /\ Re.all_in Re.space a = true /\ Re.all_in Re.space b = true)
  /\ Py.single_line (Comment.text c) = true
  /\ stops Re.space (Comment.text c) = true.

(** Lines that start with two empty lines. *)
Definition starts_with_two_empty (lines : list string) : bool :=
  match lines with
  | a :: b :: _ => Py.falsy a && Py.falsy b
  | _ => false
  end.

(** ** The attribute [spec] of a parser

    [SpecParser.parse] above keeps one value for a [spec] that is [None]
    and for a [spec] that [del] has removed.  Here the attribute is
    followed through [del]: reading an attribute that is not there raises
    [AttributeError]. *)

Module ParserObject.

Inductive attribute (A : Type) : Type :=
| Absent                     (* after [del self.spec] *)
| Bound (a : A).
Arguments Absent {A}.
Arguments Bound {A} _.

(** What a call of [parse] raises: [AttributeError] of its own, or what
    [_do_parse] raised. *)
Inductive raised : Type :=
| AttributeError
| Propagated (e : exn).

Inductive outcome : Type :=
| Returned
| Raised (e : raised).

Record t (Spec : Type) : Type := ParserObject {
  force_parse : bool;
  spec : attribute (option Spec);     (* [None] from [__init__] on *)
  tainted : bool
}.
Arguments ParserObject {Spec} _ _ _.
Arguments force_parse {Spec} _.
Arguments spec {Spec} _.
Arguments tainted {Spec} _.

Section Parse.

Variable Spec : Type.
Variable spec_sources : Spec -> gset string.
Variable rpm_spec : gmap string SpecParser.bytes -> string -> SpecParser.flags -> option Spec.
Variable get_filename_from_location : string -> string.
Variable collect_included_sources : string -> gset string.
Variable collect_sources_referenced_from_tags : string -> gset string.
(** The truth value of an [rpm.spec] instance. *)
Variable truthy : Spec -> bool.

(** [SpecParser.parse] *)
Definition parse (self : t Spec) (content : string) (w : SpecParser.world)
  : outcome * t Spec * SpecParser.world :=
  match spec self with
  | Absent => (Raised AttributeError, self, w)
  | Bound v =>
      let self1 :=
        if match v with Some s => truthy s | None => false end
        then ParserObject (force_parse self) Absent (tainted self)
        else self in
      match SpecParser._do_parse Spec spec_sources rpm_spec get_filename_from_location
              collect_included_sources collect_sources_referenced_from_tags
              (force_parse self) content w with
      | (Ok (s, t), w') => (Returned, ParserObject (force_parse self) (Bound (Some s)) t, w')
      | (Raise e, w') => (Raised (Propagated e), self1, w')
      end
  end.

End Parse.

End ParserObject.

(** [os.environ] after [restore(key)] has returned: the variable has the
    value it has in [before], or none. *)
Definition put_back (before : gmap string string) (key : string)
    (m : gmap string string) : gmap string string :=
  match before !! key with
  | Some v => <[key := v]> m
  | None => base.delete key m
  end.

(** [after] with [LANG] and [LC_ALL] put back to what they are in
    [before]. *)
Definition restored (before after : gmap string string) : gmap string string :=
  put_back before "LC_ALL" (put_back before "LANG" after).

(** The world in which [_sanitize_environment] runs its body. *)
Definition sanitized (w : SpecParser.world) : SpecParser.world :=
  SpecParser.World (SpecParser.files w)
    (<["LC_ALL" := "C.UTF-8"]> (<["LANG" := "C.UTF-8"]> (SpecParser.environ w)))
    (SpecParser.ops w).

(** * Properties *)

(** ** Examples *)

Example comments_parse_ex :
  Comments.parse ["%if 1"; "# old"; ""; "# a"; "  #b"]
  = Comments.Comments [Comment.Comment "a" "# "; Comment.Comment "b" "  #"]
                      ["%if 1"; "# old"; ""].
Proof. vm_compute. reflexivity. Qed.

Example tags_parse_ex :
  Tags.parse TAG_NAMES ["# c"; "Name: test"; ""; "Requires(post):  a"; "x"]
             (Some ["Name: test"])
  = Ok (Tags.Tags
          [ Tag.Tag "Name" "test" (Some "test") ": "
              (Comments.Comments [Comment.Comment "c" "# "] []);
            Tag.Tag "Requires(post)" "a" None ":  "
              (Comments.Comments [] [""]) ]
          ["x"]).
Proof. vm_compute. reflexivity. Qed.

(** ** Strings *)

Lemma str_app_cons (c : ascii) (a b : string) : String c a +:+ b = String c (a +:+ b).
Proof. reflexivity. Qed.

Lemma str_app_nil_l (a : string) : EmptyString +:+ a = a.
Proof. reflexivity. Qed.

Lemma str_app_nil_r (a : string) : a +:+ EmptyString = a.
Proof. induction a as [|c a IH]; [reflexivity|]. rewrite str_app_cons, IH. reflexivity. Qed.

Lemma str_app_assoc (a b c : string) : (a +:+ b) +:+ c = a +:+ (b +:+ c).
Proof.
  induction a as [|x a IH]; [reflexivity|].
  rewrite !str_app_cons, IH. reflexivity.
Qed.

Lemma single_line_app (a b : string) :
  Py.single_line (a +:+ b) = Py.single_line a && Py.single_line b.
Proof.
  induction a as [|x a IH]; [reflexivity|].
  rewrite str_app_cons. simpl. rewrite IH. apply andb_assoc.
Qed.

Lemma falsy_true (s : string) : Py.falsy s = true -> s = EmptyString.
Proof. destruct s; [reflexivity|discriminate]. Qed.

(** ** The matcher *)

Lemma hd_error_In {A : Type} (l : list A) (x : A) : hd_error l = Some x -> In x l.
Proof. destruct l; simpl; [discriminate|]. intros [= ->]. left. reflexivity. Qed.

Lemma hd_error_map {A B : Type} (f : A -> B) (l : list A) :
  hd_error (map f l) = option_map f (hd_error l).
Proof. destruct l; reflexivity. Qed.

Lemma hd_error_flat_map {A B : Type} (f : A -> list B) (l : list A) (y : B) :
  hd_error (flat_map f l) = Some y ->
  exists x, In x l /\ hd_error (f x) = Some y.
Proof.
  induction l as [|x l IH]; simpl; [discriminate|].
  destruct (f x) as [|z zs] eqn:E; simpl.
  - intros H. destruct (IH H) as (x' & Hin & Hx'). exists x'. split; [right|]; assumption.
  - intros [= ->]. exists x. split; [left; reflexivity|]. rewrite E. reflexivity.
Qed.

Lemma lit_sound (ic : bool) (l s m r : string) :
  Re.lit ic l s = Some (m, r) -> m +:+ r = s.
Proof.
  revert s m r. induction l as [|a l IH]; intros s m r; simpl.
  - intros [= <- <-]. reflexivity.
  - destruct s as [|c s]; [discriminate|].
    destruct (Re.chr_eq ic a c); [|discriminate].
    destruct (Re.lit ic l s) as [[m' r']|] eqn:E; [|discriminate].
    intros [= <- <-]. rewrite str_app_cons, (IH _ _ _ E). reflexivity.
Qed.

Lemma lit_frame (ic : bool) (l s m r s' : string) :
  Re.lit ic l s = Some (m, r) -> Re.lit ic l (m +:+ s') = Some (m, s').
Proof.
  revert s m r. induction l as [|a l IH]; intros s m r; simpl.
  - intros [= <- <-]. reflexivity.
  - destruct s as [|c s]; [discriminate|].
    destruct (Re.chr_eq ic a c) eqn:Ec; [|discriminate].
    destruct (Re.lit ic l s) as [[m' r']|] eqn:E; [|discriminate].
    intros [= <- <-]. rewrite str_app_cons, Ec, (IH _ _ _ E). reflexivity.
Qed.

Lemma lit_nonempty (ic : bool) (a : ascii) (l s m r : string) :
  Re.lit ic (String a l) s = Some (m, r) -> Py.falsy m = false.
Proof.
  simpl. destruct s as [|c s]; [discriminate|].
  destruct (Re.chr_eq ic a c); [|discriminate].
  destruct (Re.lit ic l s) as [[m' r']|]; [|discriminate].
  intros [= <- <-]. reflexivity.
Qed.

Lemma star_spec (p : ascii -> bool) (s e r : string) :
  In (e, r) (Re.star p s) <-> e +:+ r = s /\ Re.all_in p e = true.
Proof.
  revert e r. induction s as [|c s IH]; intros e r; simpl.
  - split.
    + intros [[= <- <-]|[]]. split; reflexivity.
    + intros [H _]. destruct e; [|discriminate]. simpl in H. subst r. left. reflexivity.
  - destruct (p c) eqn:Hp.
    + rewrite in_app_iff, in_map_iff. split.
      * intros [((e', r') & [= <- <-] & Hin)|[[= <- <-]|[]]].
        -- apply IH in Hin as [<- Hall]. simpl. rewrite Hp, Hall. split; reflexivity.
        -- split; reflexivity.
      * intros [H Hall]. destruct e as [|x e].
        -- right. left. simpl in H. subst r. reflexivity.
        -- left. rewrite str_app_cons in H. injection H as -> <-.
           simpl in Hall. apply andb_prop in Hall as [_ Hall].
           exists (e, r). split; [reflexivity|]. apply IH. split; [reflexivity|assumption].
    + split.
      * intros [[= <- <-]|[]]. split; reflexivity.
      * intros [H Hall]. destruct e as [|x e].
        -- left. simpl in H. subst r. reflexivity.
        -- rewrite str_app_cons in H. injection H as -> <-.
           simpl in Hall. rewrite Hp in Hall. discriminate.
Qed.

Lemma star_head (p : ascii -> bool) (s : string) :
  Re.all_in p s = true -> hd_error (Re.star p s) = Some (s, EmptyString).
Proof.
  induction s as [|c s IH]; simpl; [reflexivity|].
  intros H. apply andb_prop in H as [Hc Hs]. rewrite Hc.
  specialize (IH Hs). destruct (Re.star p s) as [|x xs]; [discriminate|].
  simpl in *. injection IH as ->. reflexivity.
Qed.

Lemma in_exec_cat (ic : bool) (r1 r2 : Re.regex) (bol : bool) (s : string) (t : Re.thread) :
  In t (Re.exec ic (Re.Cat r1 r2) bol s) <->
  exists t1 t2,
    In t1 (Re.exec ic r1 bol s)
    /\ In t2 (Re.exec ic r2 (bol && Py.falsy (Re.eaten t1)) (Re.rest t1))
    /\ t = Re.Thread (Re.eaten t1 +:+ Re.eaten t2) (Re.rest t2)
                     (Re.groups t1 ++ Re.groups t2).
Proof.
  simpl. rewrite in_flat_map. split.
  - intros (t1 & H1 & H). apply in_map_iff in H as (t2 & <- & H2). eauto.
  - intros (t1 & t2 & H1 & H2 & ->). exists t1. split; [assumption|].
    apply in_map_iff. eauto.
Qed.

Lemma hd_exec_cat (ic : bool) (r1 r2 : Re.regex) (bol : bool) (s : string) (t : Re.thread) :
  hd_error (Re.exec ic (Re.Cat r1 r2) bol s) = Some t ->
  exists t1 t2,
    In t1 (Re.exec ic r1 bol s)
    /\ hd_error (Re.exec ic r2 (bol && Py.falsy (Re.eaten t1)) (Re.rest t1)) = Some t2
    /\ t = Re.Thread (Re.eaten t1 +:+ Re.eaten t2) (Re.rest t2)
                     (Re.groups t1 ++ Re.groups t2).
Proof.
  simpl. intros H. apply hd_error_flat_map in H as (t1 & H1 & H).
  rewrite hd_error_map in H.
  destruct (hd_error _) as [t2|] eqn:E; [|discriminate].
  injection H as <-. eauto.
Qed.

Lemma in_exec_grp (ic : bool) (g : string) (r : Re.regex) (bol : bool) (s : string)
    (t : Re.thread) :
  In t (Re.exec ic (Re.Grp g r) bol s) <->
  exists t', In t' (Re.exec ic r bol s)
             /\ t = Re.Thread (Re.eaten t') (Re.rest t') (Re.groups t' ++ [(g, Re.eaten t')]).
Proof.
  simpl. rewrite in_map_iff. split.
  - intros (t' & <- & H). eauto.
  - intros (t' & H & ->). eauto.
Qed.

Lemma in_exec_opt (ic : bool) (r : Re.regex) (bol : bool) (s : string) (t : Re.thread) :
  In t (Re.exec ic (Re.Opt r) bol s) <->
  In t (Re.exec ic r bol s) \/ t = Re.unit_thread s.
Proof.
  simpl. rewrite in_app_iff. simpl. split; intros [H|H]; auto.
  - destruct H as [H|[]]. auto.
Qed.

(** A thread splits the subject into what it consumed and what is left. *)
Lemma exec_sound (ic : bool) (r : Re.regex) (bol : bool) (s : string) (t : Re.thread) :
  In t (Re.exec ic r bol s) -> Re.eaten t +:+ Re.rest t = s.
Proof.
  revert bol s t. induction r as [l|p|p|p|r IH|r1 IH1 r2 IH2|g r IH| |]; intros bol s t.
  - simpl. destruct (Re.lit ic l s) as [[m s']|] eqn:E; [|intros []].
    intros [<-|[]]. simpl. eapply lit_sound, E.
  - simpl. destruct s as [|c s]; [intros []|]. destruct (p c); [|intros []].
    intros [<-|[]]. reflexivity.
  - simpl. rewrite in_map_iff. intros ([e r'] & <- & H). simpl.
    apply star_spec in H. tauto.
  - simpl. destruct s as [|c s]; [intros []|]. destruct (p c); [|intros []].
    rewrite in_map_iff. intros ([e r'] & <- & H). simpl.
    apply star_spec in H as [<- _]. reflexivity.
  - simpl. rewrite in_app_iff. intros [H|[<-|[]]]; [eapply IH, H|reflexivity].
  - rewrite in_exec_cat. intros (t1 & t2 & H1 & H2 & ->). simpl.
    rewrite str_app_assoc, (IH2 _ _ _ H2). eapply IH1, H1.
  - rewrite in_exec_grp. intros (t' & H & ->). simpl. eapply IH, H.
  - simpl. destruct bol; [|intros []]. intros [<-|[]]. reflexivity.
  - simpl. destruct (Re.at_eol s); [|intros []]. intros [<-|[]]. reflexivity.
Qed.

(** What a pattern without [$] consumes does not depend on what follows. *)
Lemma exec_frame (ic : bool) (r : Re.regex) (bol : bool) (s : string) (t : Re.thread)
    (s' : string) :
  Re.eol_free r = true ->
  In t (Re.exec ic r bol s) ->
  In (Re.Thread (Re.eaten t) s' (Re.groups t)) (Re.exec ic r bol (Re.eaten t +:+ s')).
Proof.
  revert bol s t s'.
  induction r as [l|p|p|p|r IH|r1 IH1 r2 IH2|g r IH| |]; intros bol s t s' Hfree.
  - simpl. destruct (Re.lit ic l s) as [[m r']|] eqn:E; [|intros []].
    intros [<-|[]]. simpl. rewrite (lit_frame _ _ _ _ _ s' E). left. reflexivity.
  - simpl. destruct s as [|c s]; [intros []|]. destruct (p c) eqn:Hp; [|intros []].
    intros [<-|[]]. simpl. rewrite Hp. left. reflexivity.
  - simpl. rewrite !in_map_iff. intros ([e r'] & <- & H). simpl.
    apply star_spec in H as [_ Hall].
    exists (e, s'). split; [reflexivity|]. apply star_spec. split; [reflexivity|assumption].
  - simpl. destruct s as [|c s]; [intros []|]. destruct (p c) eqn:Hp; [|intros []].
    rewrite in_map_iff. intros ([e r'] & <- & H). simpl.
    apply star_spec in H as [_ Hall]. rewrite Hp.
    apply in_map_iff. exists (e, s'). split; [reflexivity|].
    apply star_spec. split; [reflexivity|assumption].
  - simpl in *. rewrite !in_app_iff. intros [H|[<-|[]]].
    + left. eapply IH; eassumption.
    + right. left. reflexivity.
  - simpl in Hfree. apply andb_prop in Hfree as [Hf1 Hf2].
    rewrite !in_exec_cat. intros (t1 & t2 & H1 & H2 & ->). simpl.
    exists (Re.Thread (Re.eaten t1) (Re.eaten t2 +:+ s') (Re.groups t1)),
           (Re.Thread (Re.eaten t2) s' (Re.groups t2)).
    simpl. split; [|split].
    + rewrite str_app_assoc. eapply IH1; eassumption.
    + eapply IH2; eassumption.
    + reflexivity.
  - simpl in Hfree. rewrite !in_exec_grp. intros (t' & H & ->). simpl.
    exists (Re.Thread (Re.eaten t') s' (Re.groups t')). split; [|reflexivity].
    eapply IH; eassumption.
  - simpl. destruct bol; [|intros []]. intros [<-|[]]. left. reflexivity.
  - discriminate.
Qed.

Lemma exec_group_free (ic : bool) (r : Re.regex) (bol : bool) (s : string) (t : Re.thread) :
  Re.group_free r = true -> In t (Re.exec ic r bol s) -> Re.groups t = [].
Proof.
  revert bol s t.
  induction r as [l|p|p|p|r IH|r1 IH1 r2 IH2|g r IH| |]; intros bol s t Hfree; simpl.
  - destruct (Re.lit ic l s) as [[m s']|]; [|intros []]. intros [<-|[]]. reflexivity.
  - destruct s as [|c s]; [intros []|]. destruct (p c); [|intros []].
    intros [<-|[]]. reflexivity.
  - rewrite in_map_iff. intros (x & <- & _). reflexivity.
  - destruct s as [|c s]; [intros []|]. destruct (p c); [|intros []].
    rewrite in_map_iff. intros (x & <- & _). reflexivity.
  - rewrite in_app_iff. intros [H|[<-|[]]]; [eapply IH; eassumption|reflexivity].
  - simpl in Hfree. apply andb_prop in Hfree as [Hf1 Hf2].
    intros H. apply in_exec_cat in H as (t1 & t2 & H1 & H2 & ->). simpl.
    rewrite (IH1 _ _ _ Hf1 H1), (IH2 _ _ _ Hf2 H2). reflexivity.
  - discriminate.
  - destruct bol; [|intros []]. intros [<-|[]]. reflexivity.
  - destruct (Re.at_eol s); [|intros []]. intros [<-|[]]. reflexivity.
Qed.

Lemma in_exec_eol (ic bol : bool) (s : string) (t : Re.thread) :
  In t (Re.exec ic Re.Eol bol s) -> t = Re.unit_thread s /\ Re.at_eol s = true.
Proof.
  simpl. destruct (Re.at_eol s); [|intros []]. intros [<-|[]]. split; reflexivity.
Qed.

Lemma in_exec_bol (ic bol : bool) (s : string) (t : Re.thread) :
  In t (Re.exec ic Re.Bol bol s) -> t = Re.unit_thread s /\ bol = true.
Proof.
  simpl. destruct bol; [|intros []]. intros [<-|[]]. split; reflexivity.
Qed.

(** The first way of matching, built from the first ways of the parts. *)
Lemma star_head_stops (p : ascii -> bool) (a r : string) :
  Re.all_in p a = true -> stops p r = true ->
  hd_error (Re.star p (a +:+ r)) = Some (a, r).
Proof.
  intros Ha Hr. induction a as [|c a IH].
  - rewrite str_app_nil_l. destruct r as [|x r]; [reflexivity|]. simpl in *.
    apply negb_true_iff in Hr. rewrite Hr. reflexivity.
  - cbn [Re.all_in] in Ha. apply andb_prop in Ha as [Hc Ha]. specialize (IH Ha).
    rewrite str_app_cons. cbn [Re.star]. rewrite Hc.
    destruct (Re.star p (a +:+ r)) as [|x xs]; [discriminate|].
    simpl in *. injection IH as ->. reflexivity.
Qed.

Lemma hd_cat_intro (ic : bool) (r1 r2 : Re.regex) (bol : bool) (s : string)
    (t1 t2 : Re.thread) :
  hd_error (Re.exec ic r1 bol s) = Some t1 ->
  hd_error (Re.exec ic r2 (bol && Py.falsy (Re.eaten t1)) (Re.rest t1)) = Some t2 ->
  hd_error (Re.exec ic (Re.Cat r1 r2) bol s)
  = Some (Re.Thread (Re.eaten t1 +:+ Re.eaten t2) (Re.rest t2)
                    (Re.groups t1 ++ Re.groups t2)).
Proof.
  intros H1 H2. cbn [Re.exec].
  destruct (Re.exec ic r1 bol s) as [|x xs]; [discriminate|].
  injection H1 as ->. cbn [flat_map].
  destruct (Re.exec ic r2 _ (Re.rest t1)) as [|y ys]; [discriminate|].
  injection H2 as ->. reflexivity.
Qed.

Lemma hd_grp_intro (ic : bool) (g : string) (r : Re.regex) (bol : bool) (s : string)
    (t : Re.thread) :
  hd_error (Re.exec ic r bol s) = Some t ->
  hd_error (Re.exec ic (Re.Grp g r) bol s)
  = Some (Re.Thread (Re.eaten t) (Re.rest t) (Re.groups t ++ [(g, Re.eaten t)])).
Proof.
  intros H. cbn [Re.exec]. destruct (Re.exec ic r bol s) as [|x xs]; [discriminate|].
  injection H as ->. reflexivity.
Qed.

Lemma hd_star_intro (ic : bool) (p : ascii -> bool) (bol : bool) (a r : string) :
  Re.all_in p a = true -> stops p r = true ->
  hd_error (Re.exec ic (Re.Star p) bol (a +:+ r)) = Some (Re.Thread a r []).
Proof.
  intros Ha Hr. cbn [Re.exec]. rewrite hd_error_map, (star_head_stops p a r Ha Hr).
  reflexivity.
Qed.

(** ** Comments *)

Lemma comments_parse_scan (lines : list string) :
  Comments.parse lines
  = Comments.Comments (fst (comments_scan lines)) (snd (comments_scan lines)).
Proof.
  unfold Comments.parse, comments_scan.
  rewrite <- (rev_involutive lines) at 2 3. rewrite fold_left_rev_right.
  destruct (fold_left _ _ _). reflexivity.
Qed.

(** What a match of the comment pattern looks like: the two groups and the
    text left over, which is empty or one line feed, make up the line. *)
Lemma comment_match_shape (line : string) (m : Re.thread) :
  Re.match_ false Comments.comment_regex line = Some m ->
  Re.group "1" m +:+ Re.group "2" m +:+ Re.rest m = line
  /\ Re.at_eol (Re.rest m) = true.
Proof.
  unfold Re.match_, Comments.comment_regex. intros H. apply hd_error_In in H.
  pose proof (exec_sound _ _ _ _ _ H) as Hsound.
  apply in_exec_cat in H as (t0 & tx & H0 & Hx & ->).
  apply in_exec_bol in H0 as [-> _].
  unfold Re.unit_thread in Hx; cbn [Re.eaten Re.rest andb Py.falsy] in Hx.
  apply in_exec_cat in Hx as (t1 & t2 & H1 & H2 & ->).
  apply in_exec_grp in H1 as (t1' & H1 & ->).
  apply exec_group_free in H1; [|reflexivity].
  apply in_exec_cat in H2 as (t2a & t2b & H2a & H2b & ->).
  apply in_exec_grp in H2a as (t2' & H2a & ->).
  apply exec_group_free in H2a; [|reflexivity].
  apply in_exec_eol in H2b as [-> Heol]. simpl in *.
  rewrite H1, H2a. unfold Re.group. simpl.
  rewrite str_app_nil_r, str_app_assoc in Hsound. split; assumption.
Qed.

Lemma single_line_no_final_LF (line : string) :
  Py.single_line line = true -> no_final_LF line.
Proof.
  intros H a ->. rewrite single_line_app in H. simpl in H.
  rewrite andb_false_r in H. discriminate.
Qed.

Lemma comment_of_line_str (line : string) :
  no_final_LF line -> is_comment_line line = true ->
  Comment.str (comment_of_line line) = line.
Proof.
  unfold is_comment_line, comment_of_line. intros Hnl H.
  apply bool_decide_eq_true in H as [m Hm]. rewrite Hm.
  apply comment_match_shape in Hm as [Hline Heol].
  unfold Comment.str. simpl.
  destruct (Re.rest m) as [|c [|c' r]]; simpl in Heol; try discriminate.
  - rewrite str_app_nil_r in Hline. assumption.
  - apply Ascii.eqb_eq in Heol as ->. exfalso.
    apply (Hnl (Re.group "1" m +:+ Re.group "2" m)).
    rewrite str_app_assoc. symmetry. assumption.
Qed.

Lemma comments_scan_cons (line : string) (lines : list string) :
  comments_scan (line :: lines)
  = match snd (comments_scan lines) with
    | [] => if is_comment_line line
            then (comment_of_line line :: fst (comments_scan lines), [])
            else (fst (comments_scan lines), [line])
    | pl => (fst (comments_scan lines), line :: pl)
    end.
Proof.
  unfold comments_scan at 1. simpl. fold (comments_scan lines).
  destruct (comments_scan lines) as [cs pl]. unfold Comments.parse_step.
  unfold is_comment_line, comment_of_line.
  destruct (Re.match_ false Comments.comment_regex line) as [m|] eqn:E; simpl.
  - destruct pl; reflexivity.
  - destruct pl; reflexivity.
Qed.

Lemma comments_scan_raw (lines : list string) :
  Forall no_final_LF lines ->
  snd (comments_scan lines) ++ map Comment.str (fst (comments_scan lines)) = lines.
Proof.
  induction 1 as [|line lines Hl _ IH]; [reflexivity|].
  rewrite comments_scan_cons.
  destruct (snd (comments_scan lines)) as [|p pl] eqn:Epl.
  - destruct (is_comment_line line) eqn:Ec; simpl.
    + rewrite comment_of_line_str by assumption. f_equal. exact IH.
    + f_equal. exact IH.
  - simpl. f_equal. exact IH.
Qed.

Lemma comments_raw_parse (lines : list string) :
  Forall no_final_LF lines ->
  Comments.get_raw_data (Comments.parse lines) = lines.
Proof.
  intros H. rewrite comments_parse_scan. unfold Comments.get_raw_data. simpl.
  apply comments_scan_raw, H.
Qed.

(** The result of the scan: the comments are the trailing run of comment
    lines, the preceding lines are all the lines before the run, and the
    last of them, if there is one, is not a comment line. *)
Lemma comments_scan_spec (lines : list string) :
  exists run,
    lines = snd (comments_scan lines) ++ run
    /\ Forall (fun l => is_comment_line l = true) run
    /\ fst (comments_scan lines) = map comment_of_line run
    /\ (forall before l, snd (comments_scan lines) = before ++ [l] ->
        is_comment_line l = false).
Proof.
  induction lines as [|line lines (run & Hsplit & Hrun & Hdata & Hlast)].
  - exists []. repeat split; try constructor.
    intros before l H. destruct before; discriminate.
  - rewrite comments_scan_cons.
    destruct (snd (comments_scan lines)) as [|p pl] eqn:Epl.
    + destruct (is_comment_line line) eqn:Ec; simpl.
      * exists (line :: run). simpl in Hsplit. subst lines. repeat split.
        -- constructor; assumption.
        -- rewrite Hdata. reflexivity.
        -- intros before l H. destruct before; discriminate.
      * exists run. simpl in Hsplit. subst lines. repeat split; try assumption.
        intros before l H. destruct before as [|b [|b' before]]; try discriminate.
        injection H as <-. assumption.
    + simpl. exists run. repeat split; try assumption.
      * rewrite Hsplit at 1. reflexivity.
      * intros before l H. destruct before as [|b before].
        -- discriminate.
        -- injection H as <- H. eapply Hlast, H.
Qed.

(** ** Tag lines *)

Lemma first_some_In {A B : Type} (f : A -> option B) (l : list A) (y : B) :
  Py.first_some f l = Some y -> exists x, In x l /\ f x = Some y.
Proof.
  induction l as [|x l IH]; simpl; [discriminate|].
  destruct (f x) as [y'|] eqn:E.
  - intros [= ->]. exists x. split; [left; reflexivity|assumption].
  - intros H. destruct (IH H) as (x' & Hin & Hx'). exists x'. split; [right|]; assumption.
Qed.

Lemma all_in_dot (s : string) : Re.all_in Re.dot s = Py.single_line s.
Proof. induction s as [|c s IH]; simpl; [reflexivity|]. rewrite IH. reflexivity. Qed.

Lemma tag_name_regex_free (t : string) :
  Re.eol_free (get_tag_name_regex t) = true /\ Re.group_free (get_tag_name_regex t) = true.
Proof.
  unfold get_tag_name_regex.
  destruct (str_in t TAGS_WITH_ARG); [split; reflexivity|].
  destruct (str_in t ["source"; "patch"]); split; reflexivity.
Qed.

Lemma tag_names_nonempty (t : string) : In t TAG_NAMES -> Py.falsy t = false.
Proof.
  assert (H : forallb (fun t => negb (Py.falsy t)) TAG_NAMES = true) by reflexivity.
  rewrite forallb_forall in H. intros Hin. apply H in Hin.
  destruct (Py.falsy t); [discriminate|reflexivity].
Qed.

Lemma tag_name_eaten_nonempty (ic bol : bool) (t s : string) (tn : Re.thread) :
  Py.falsy t = false ->
  In tn (Re.exec ic (get_tag_name_regex t) bol s) -> Py.falsy (Re.eaten tn) = false.
Proof.
  intros Ht. destruct t as [|a l]; [discriminate|].
  assert (Hlit : forall x, In x (Re.exec ic (Re.Lit (String a l)) bol s) ->
                           Py.falsy (Re.eaten x) = false).
  { intros x. cbn [Re.exec]. destruct (Re.lit ic (String a l) s) as [[m s']|] eqn:E; [|intros []].
    intros [<-|[]]. simpl. eapply lit_nonempty, E. }
  assert (Hcat : forall r x, In x (Re.exec ic (Re.Cat (Re.Lit (String a l)) r) bol s) ->
                             Py.falsy (Re.eaten x) = false).
  { intros r x Hx. apply in_exec_cat in Hx as (t1 & t2 & H1 & _ & ->). simpl.
    apply Hlit in H1. destruct (Re.eaten t1); [discriminate|reflexivity]. }
  unfold get_tag_name_regex.
  destruct (str_in _ TAGS_WITH_ARG); [apply Hcat|].
  destruct (str_in _ ["source"; "patch"]); [apply Hcat|apply Hlit].
Qed.

(** The name that a tag pattern captures passes the test of
    [Tag.__init__]. *)
Lemma matched_name_ok (t s : string) (tn : Re.thread) :
  In t TAG_NAMES ->
  In tn (Re.exec true (get_tag_name_regex t) true s) ->
  Py.falsy (Re.eaten tn) = false /\ Tag.name_ok (Re.eaten tn) = true.
Proof.
  intros Ht Hin. split.
  - eapply tag_name_eaten_nonempty; [apply tag_names_nonempty, Ht|exact Hin].
  - unfold Tag.name_ok. apply existsb_exists. exists t. split; [assumption|].
    apply bool_decide_eq_true.
    apply (exec_frame _ _ _ _ _ EmptyString) in Hin; [|apply tag_name_regex_free].
    rewrite str_app_nil_r in Hin. unfold Re.match_.
    destruct (Re.exec true (get_tag_name_regex t) true (Re.eaten tn)); [destruct Hin|].
    simpl. eauto.
Qed.

Lemma plus_dot_head (ic bol : bool) (s : string) (t : Re.thread) :
  hd_error (Re.exec ic (Re.Plus Re.dot) bol s) = Some t ->
  Re.groups t = [] /\ (Py.single_line s = true -> Re.rest t = EmptyString).
Proof.
  simpl. destruct s as [|c s]; [discriminate|].
  destruct (Re.dot c) eqn:Hc; [|discriminate].
  rewrite hd_error_map. destruct (hd_error (Re.star Re.dot s)) as [[e r]|] eqn:E; [|discriminate].
  intros [= <-]. simpl. split; [reflexivity|].
  intros H. apply andb_prop in H as [_ H].
  rewrite <- all_in_dot in H. rewrite (star_head _ _ H) in E. injection E as _ <-. reflexivity.
Qed.

(** What a match of a tag pattern looks like: the three groups and the text
    left over make up the line, and nothing is left over of a line without
    line feed. *)
Lemma tag_match_shape (ic : bool) (t line : string) (m : Re.thread) :
  Re.match_ ic (Tags.regex_pattern t) line = Some m ->
  (exists tn, In tn (Re.exec ic (get_tag_name_regex t) true line)
              /\ Re.group "n" m = Re.eaten tn)
  /\ Re.group "n" m +:+ Re.group "s" m +:+ Re.group "v" m +:+ Re.rest m = line
  /\ (Py.single_line line = true -> Re.rest m = EmptyString).
Proof.
  unfold Re.match_, Tags.regex_pattern. intros H.
  pose proof (exec_sound _ _ _ _ _ (hd_error_In _ _ H)) as Hsound.
  apply hd_exec_cat in H as (t0 & tx & H0 & Hx & ->).
  apply in_exec_bol in H0 as [-> _].
  unfold Re.unit_thread in Hx; cbn [Re.eaten Re.rest andb Py.falsy] in Hx.
  apply hd_exec_cat in Hx as (t1 & ty & H1 & Hy & ->).
  apply in_exec_grp in H1 as (tn & Hn & ->). cbn [Re.eaten Re.rest Re.groups] in *.
  pose proof (exec_sound _ _ _ _ _ Hn) as Hsn.
  pose proof (exec_group_free _ _ _ _ _ (proj2 (tag_name_regex_free t)) Hn) as Hgn.
  apply hd_exec_cat in Hy as (t2 & t3 & H2 & H3 & ->).
  apply in_exec_grp in H2 as (ts & Hs & ->). cbn [Re.eaten Re.rest Re.groups] in *.
  pose proof (exec_sound _ _ _ _ _ Hs) as Hss.
  apply exec_group_free in Hs; [|reflexivity].
  cbn [Re.exec] in H3. rewrite hd_error_map in H3.
  destruct (hd_error _) as [tv|] eqn:Hv in H3; [|discriminate].
  injection H3 as <-. cbn [Re.eaten Re.rest Re.groups] in *.
  change (match _ with String c s' => _ | EmptyString => _ end)
    with (Re.exec ic (Re.Plus Re.dot) (andb (andb true (Py.falsy (Re.eaten tn)))
                                            (Py.falsy (Re.eaten ts))) (Re.rest ts)) in Hv.
  apply plus_dot_head in Hv as [Hgv Hrest].
  rewrite Hgn, Hs, Hgv. unfold Re.group. simpl.
  rewrite str_app_nil_l, !str_app_assoc in Hsound.
  split; [eauto|]. split; [assumption|].
  intros Hline. apply Hrest.
  rewrite <- Hsn, single_line_app in Hline. apply andb_prop in Hline as [_ Hline].
  rewrite <- Hss, single_line_app in Hline. apply andb_prop in Hline as [_ Hline].
  assumption.
Qed.

(** ** The loop of [Tags.parse] *)

Section TagsParse.

Variable order : list string.
Hypothesis order_perm : order ≡ₚ TAG_NAMES.
Variable parsed_lines : list string.

Lemma order_In (t : string) : In t order -> In t TAG_NAMES.
Proof using order_perm.
  intros H. apply list_elem_of_In. rewrite <- order_perm. apply list_elem_of_In, H.
Qed.

Lemma parse_step_scan (st : list Tag.t * list string) (line : string) :
  Tags.parse_step order parsed_lines (Ok st) line
  = Ok (tags_scan_step order parsed_lines st line).
Proof using order_perm.
  destruct st as [data buffer]. unfold Tags.parse_step, tags_scan_step. simpl.
  destruct (Py.first_some _ order) as [m|] eqn:E; [|reflexivity].
  apply first_some_In in E as (t & Ht & Hm).
  apply tag_match_shape in Hm as [(tn & Hn & Hname) _].
  destruct (matched_name_ok _ _ _ (order_In _ Ht) Hn) as [Hne Hok].
  unfold Tag.init. rewrite Hname, Hne, Hok. simpl.
  unfold tag_of_match, first_expanded_value. rewrite Hname. reflexivity.
Qed.

Lemma parse_fold_scan (lines : list string) (st : list Tag.t * list string) :
  fold_left (Tags.parse_step order parsed_lines) lines (Ok st)
  = Ok (fold_left (tags_scan_step order parsed_lines) lines st).
Proof using order_perm.
  revert st. induction lines as [|line lines IH]; intros st; cbn [fold_left]; [reflexivity|].
  rewrite parse_step_scan. apply IH.
Qed.

Lemma scan_step_render (st : list Tag.t * list string) (line : string) :
  Forall (fun l => Py.single_line l = true) (snd st) ->
  Py.single_line line = true ->
  render_state (tags_scan_step order parsed_lines st line) = render_state st ++ [line]
  /\ Forall (fun l => Py.single_line l = true) (snd (tags_scan_step order parsed_lines st line)).
Proof.
  intros Hbuf Hline. destruct st as [data buffer]. unfold tags_scan_step, render_state.
  simpl in *. destruct (Py.first_some _ order) as [m|] eqn:E; simpl.
  - split; [|constructor].
    apply first_some_In in E as (t & _ & Hm).
    apply tag_match_shape in Hm as (_ & Hsplit & Hrest).
    rewrite (Hrest Hline), str_app_nil_r in Hsplit.
    unfold Tags.get_raw_section_data. simpl.
    rewrite flat_map_app. simpl. rewrite !app_nil_r, <- app_assoc. f_equal.
    unfold Tag.line. simpl. rewrite Hsplit. f_equal.
    change (Comments.get_raw_data (Comments.copy (Comments.parse buffer)))
      with (Comments.get_raw_data (Comments.parse buffer)).
    apply comments_raw_parse.
    eapply Forall_impl; [exact Hbuf|]. apply single_line_no_final_LF.
  - split.
    + unfold Tags.get_raw_section_data. simpl. rewrite app_assoc. reflexivity.
    + apply Forall_app. split; [assumption|]. constructor; [assumption|constructor].
Qed.

Lemma scan_render (lines : list string) (st : list Tag.t * list string) :
  Forall (fun l => Py.single_line l = true) (snd st) ->
  Forall (fun l => Py.single_line l = true) lines ->
  render_state (fold_left (tags_scan_step order parsed_lines) lines st)
  = render_state st ++ lines.
Proof.
  revert st. induction lines as [|line lines IH]; intros st Hbuf Hlines; simpl.
  - rewrite app_nil_r. reflexivity.
  - inversion Hlines as [|? ? Hline Hrest]; subst.
    destruct (scan_step_render st line Hbuf Hline) as [Hr Hb].
    rewrite IH by assumption. rewrite Hr, <- app_assoc. reflexivity.
Qed.

(** [Tags.parse] returns, and what it returns renders as the lines it
    was given when no line holds a line feed. *)
Lemma tags_parse_render (lines : list string) (parsed_section : option (list string)) :
  default [] parsed_section = parsed_lines ->
  exists tags,
    Tags.parse order lines parsed_section = Ok tags
    /\ (Forall (fun l => Py.single_line l = true) lines ->
        Tags.get_raw_section_data tags = lines).
Proof using order_perm.
  intros Hp. unfold Tags.parse. rewrite Hp, parse_fold_scan. simpl.
  destruct (fold_left _ lines _) as [data buffer] eqn:E.
  exists (Tags.Tags data buffer). split; [reflexivity|].
  intros Hlines.
  pose proof (scan_render lines ([], []) (List.Forall_nil _) Hlines) as H.
  rewrite E in H. exact H.
Qed.

Lemma scan_step_expanded (st : list Tag.t * list string) (line : string) :
  Forall (fun tag => Tag._expanded_value tag
                     = first_expanded_value (Tag.name tag) parsed_lines) (fst st) ->
  Forall (fun tag => Tag._expanded_value tag
                     = first_expanded_value (Tag.name tag) parsed_lines)
         (fst (tags_scan_step order parsed_lines st line)).
Proof.
  intros H. unfold tags_scan_step.
  destruct (Py.first_some _ order) as [m|]; simpl; [|assumption].
  apply Forall_app. split; [assumption|]. constructor; [reflexivity|constructor].
Qed.

Lemma scan_expanded (lines : list string) (st : list Tag.t * list string) :
  Forall (fun tag => Tag._expanded_value tag
                     = first_expanded_value (Tag.name tag) parsed_lines) (fst st) ->
  Forall (fun tag => Tag._expanded_value tag
                     = first_expanded_value (Tag.name tag) parsed_lines)
         (fst (fold_left (tags_scan_step order parsed_lines) lines st)).
Proof.
  revert st. induction lines as [|line lines IH]; intros st H; simpl; [assumption|].
  apply IH, scan_step_expanded, H.
Qed.

End TagsParse.

Lemma first_expanded_value_head (name : string) (parsed_lines : list string) :
  first_expanded_value name parsed_lines = head (matching_values name parsed_lines).
Proof.
  unfold first_expanded_value, matching_values.
  induction parsed_lines as [|pl pls IH]; simpl; [reflexivity|].
  destruct (Re.match_ false (Tags.regex_pattern name) pl); simpl; [reflexivity|exact IH].
Qed.

(** ** The order in which the tag names are tried *)

Lemma lower_letter_fixed (a : ascii) : is_lower_letter a = true -> Py.lower a = a.
Proof.
  destruct a as [[] [] [] [] [] [] [] []]; intros H; try reflexivity; discriminate H.
Qed.

Lemma space_not_letter (c : ascii) :
  Re.space c = true -> is_lower_letter (Py.lower c) = false.
Proof.
  destruct c as [[] [] [] [] [] [] [] []]; intros H; try reflexivity; discriminate H.
Qed.

Lemma digit_not_letter (c : ascii) :
  Re.digit c = true -> is_lower_letter (Py.lower c) = false.
Proof.
  destruct c as [[] [] [] [] [] [] [] []]; intros H; try reflexivity; discriminate H.
Qed.

Lemma punct_not_letter (ic : bool) (a c : ascii) :
  a = ":"%char \/ a = "("%char ->
  Re.chr_eq ic a c = true -> is_lower_letter (Py.lower c) = false.
Proof.
  intros [-> | ->]; destruct ic;
    destruct c as [[] [] [] [] [] [] [] []]; intros H; try reflexivity; discriminate H.
Qed.

Lemma letters_prefix_run (p : ascii -> bool) (e r : string) :
  (forall c, p c = true -> is_lower_letter (Py.lower c) = false) ->
  Re.all_in p e = true ->
  letters_prefix r = EmptyString ->
  letters_prefix (e +:+ r) = EmptyString.
Proof.
  intros Hp Hall Hr. destruct e as [|c e]; [exact Hr|].
  simpl in Hall. apply andb_prop in Hall as [Hc _].
  rewrite str_app_cons. simpl. rewrite (Hp _ Hc). reflexivity.
Qed.

(** A text at whose head white space and then a colon or a parenthesis
    match does not start with a letter. *)
Lemma letters_prefix_punct (ic bol : bool) (a : ascii) (X : Re.regex) (r : string)
    (t : Re.thread) :
  a = ":"%char \/ a = "("%char ->
  In t (Re.exec ic (Re.Cat (Re.Star Re.space)
                      (Re.Cat (Re.Lit (String a EmptyString)) X)) bol r) ->
  letters_prefix r = EmptyString.
Proof.
  intros Ha H. apply in_exec_cat in H as (t1 & t2 & H1 & H2 & _).
  pose proof (exec_sound _ _ _ _ _ H1) as Hs1.
  cbn [Re.exec] in H1. apply in_map_iff in H1 as ([e r1] & <- & H1).
  apply star_spec in H1 as [_ Hall]. cbn [Re.eaten Re.rest fst snd] in *.
  apply in_exec_cat in H2 as (t3 & _ & H3 & _ & _).
  cbn [Re.exec] in H3. destruct (Re.lit ic (String a EmptyString) r1) as [[m r2]|] eqn:E;
    [|destruct H3].
  rewrite <- Hs1. apply (letters_prefix_run Re.space); [apply space_not_letter|exact Hall|].
  simpl in E. destruct r1 as [|c r1]; [discriminate|].
  destruct (Re.chr_eq ic a c) eqn:Ec; [|discriminate].
  simpl. rewrite (punct_not_letter _ _ _ Ha Ec). reflexivity.
Qed.

Lemma lit_letters_prefix (t s m r : string) :
  Re.all_in is_lower_letter t = true ->
  Re.lit true t s = Some (m, r) ->
  letters_prefix s = t +:+ letters_prefix r.
Proof.
  revert s m r. induction t as [|a t IH]; intros s m r Hall; simpl.
  - intros [= <- <-]. reflexivity.
  - simpl in Hall. apply andb_prop in Hall as [Ha Hall].
    destruct s as [|c s]; [discriminate|].
    destruct (Ascii.eqb (Py.lower a) (Py.lower c)) eqn:Ec; [|discriminate].
    destruct (Re.lit true t s) as [[m' r']|] eqn:E; [|discriminate].
    intros [= <- <-]. apply Ascii.eqb_eq in Ec.
    rewrite (lower_letter_fixed _ Ha) in Ec. cbn [letters_prefix]. rewrite <- Ec, Ha.
    rewrite (IH _ _ _ Hall E). reflexivity.
Qed.

Lemma tag_names_letters (t : string) :
  In t TAG_NAMES -> Re.all_in is_lower_letter t = true.
Proof.
  assert (H : forallb (Re.all_in is_lower_letter) TAG_NAMES = true) by reflexivity.
  rewrite forallb_forall in H. apply H.
Qed.

(** A line that the pattern of a tag name matches starts with that name and
    no further letter, letter case aside. *)
Lemma tag_match_letters (t line : string) (m : Re.thread) :
  In t TAG_NAMES ->
  Re.match_ true (Tags.regex_pattern t) line = Some m ->
  letters_prefix line = t.
Proof.
  intros Ht H. apply tag_names_letters in Ht.
  unfold Re.match_, Tags.regex_pattern in H. apply hd_error_In in H.
  apply in_exec_cat in H as (t0 & tx & H0 & Hx & _).
  apply in_exec_bol in H0 as [-> _].
  unfold Re.unit_thread in Hx; cbn [Re.eaten Re.rest andb Py.falsy] in Hx.
  apply in_exec_cat in Hx as (t1 & ty & H1 & Hy & _).
  apply in_exec_grp in H1 as (tn & Hn & ->). cbn [Re.eaten Re.rest] in Hy.
  apply in_exec_cat in Hy as (t2 & _ & H2 & _ & _).
  apply in_exec_grp in H2 as (ts & Hs & _).
  apply letters_prefix_punct in Hs; [|left; reflexivity].
  assert (Hlit : forall x, In x (Re.exec true (Re.Lit t) true line) ->
                           letters_prefix (Re.rest x) = EmptyString ->
                           letters_prefix line = t).
  { intros x Hx Hr. cbn [Re.exec] in Hx.
    destruct (Re.lit true t line) as [[e r]|] eqn:E; [|destruct Hx].
    destruct Hx as [<-|[]]. cbn [Re.rest] in Hr.
    rewrite (lit_letters_prefix _ _ _ _ Ht E), Hr. apply str_app_nil_r. }
  unfold get_tag_name_regex in Hn.
  destruct (str_in t TAGS_WITH_ARG).
  - apply in_exec_cat in Hn as (tl & tsuf & Hl & Hsuf & ->).
    apply (Hlit _ Hl). cbn [Re.rest] in Hs.
    unfold tag_arg_regex in Hsuf.
    apply in_exec_opt in Hsuf as [Harg| ->]; [|exact Hs].
    eapply (letters_prefix_punct _ _ "("%char); [right; reflexivity|exact Harg].
  - destruct (str_in t ["source"; "patch"]).
    + apply in_exec_cat in Hn as (tl & tsuf & Hl & Hsuf & ->).
      apply (Hlit _ Hl). cbn [Re.rest] in Hs.
      pose proof (exec_sound _ _ _ _ _ Hsuf) as Hsound.
      cbn [Re.exec] in Hsuf. apply in_map_iff in Hsuf as ([e r] & <- & Hsuf).
      apply star_spec in Hsuf as [_ Hall]. cbn [Re.eaten Re.rest fst snd] in *.
      rewrite <- Hsound.
      apply (letters_prefix_run Re.digit); [apply digit_not_letter|exact Hall|exact Hs].
    + apply (Hlit _ Hn Hs).
Qed.

Lemma first_some_None {A B : Type} (f : A -> option B) (l : list A) :
  Py.first_some f l = None <-> forall x, In x l -> f x = None.
Proof.
  induction l as [|x l IH]; simpl.
  - split; [intros _ x []|reflexivity].
  - destruct (f x) eqn:E.
    + split; [discriminate|]. intros H. rewrite <- E. apply H. left. reflexivity.
    + rewrite IH. split.
      * intros H y [<-|Hy]; [exact E|apply H, Hy].
      * intros H y Hy. apply H. right. exact Hy.
Qed.

(** Whatever the order in which the set [TAG_NAMES] is iterated, the first
    pattern that matches a line is the same: at most one matches. *)
Lemma first_match_order (order : list string) (line : string) :
  order ≡ₚ TAG_NAMES ->
  Py.first_some (fun t => Re.match_ true (Tags.regex_pattern t) line) order
  = Py.first_some (fun t => Re.match_ true (Tags.regex_pattern t) line) TAG_NAMES.
Proof.
  intros Hperm.
  assert (Hin : forall t, In t order <-> In t TAG_NAMES).
  { intros t. rewrite <- !list_elem_of_In. rewrite Hperm. reflexivity. }
  destruct (Py.first_some _ order) as [m|] eqn:E1;
    destruct (Py.first_some _ TAG_NAMES) as [m'|] eqn:E2; try reflexivity.
  - apply first_some_In in E1 as (t & Ht & Hm).
    apply first_some_In in E2 as (t' & Ht' & Hm').
    apply Hin in Ht.
    pose proof (tag_match_letters _ _ _ Ht Hm) as H1.
    pose proof (tag_match_letters _ _ _ Ht' Hm') as H2.
    assert (t = t') by congruence. subst t'. congruence.
  - apply first_some_In in E1 as (t & Ht & Hm).
    rewrite first_some_None in E2. apply Hin in Ht. rewrite (E2 _ Ht) in Hm. discriminate.
  - apply first_some_In in E2 as (t & Ht & Hm).
    rewrite first_some_None in E1. apply Hin in Ht. rewrite (E1 _ Ht) in Hm. discriminate.
Qed.

(** [Tags.parse] does not depend on the iteration order of [TAG_NAMES]. *)
Lemma tags_parse_order (order raw_section : list string)
    (parsed_section : option (list string)) :
  order ≡ₚ TAG_NAMES ->
  Tags.parse order raw_section parsed_section
  = Tags.parse TAG_NAMES raw_section parsed_section.
Proof.
  intros Hperm. unfold Tags.parse. f_equal.
  generalize (Ok ([], []) : result (list Tag.t * list string)).
  induction raw_section as [|line lines IH]; intros st; [reflexivity|].
  cbn [fold_left]. rewrite <- IH. f_equal.
  unfold Tags.parse_step. rewrite (first_match_order order line Hperm). reflexivity.
Qed.

(** ** The loop of [Sourcelist.parse] *)

Lemma sourcelist_step_render {Specfile : Type} (context : option Specfile)
    (st : list (SourcelistEntry.t Specfile) * list string) (line : string) :
  Forall no_final_LF (snd st) ->
  no_final_LF line ->
  sourcelist_render_state (Sourcelist.parse_step context st line)
  = sourcelist_render_state st ++ [line]
  /\ Forall no_final_LF (snd (Sourcelist.parse_step context st line)).
Proof.
  intros Hbuf Hline. destruct st as [data buffer].
  unfold Sourcelist.parse_step, sourcelist_render_state. cbn [fst snd] in *.
  destruct (negb (Py.falsy line) && negb (Py.startswith "#" (Py.lstrip line)));
    cbn [fst snd].
  - split; [|constructor].
    unfold Sourcelist.get_raw_section_data. simpl.
    rewrite flat_map_app. simpl. rewrite !app_nil_r, <- app_assoc. f_equal. f_equal.
    change (Comments.get_raw_data (Comments.copy (Comments.parse buffer)))
      with (Comments.get_raw_data (Comments.parse buffer)).
    apply comments_raw_parse, Hbuf.
  - split.
    + unfold Sourcelist.get_raw_section_data. simpl. rewrite app_assoc. reflexivity.
    + apply Forall_app. split; [assumption|]. constructor; [assumption|constructor].
Qed.

Lemma sourcelist_fold_render {Specfile : Type} (context : option Specfile)
    (lines : list string) (st : list (SourcelistEntry.t Specfile) * list string) :
  Forall no_final_LF (snd st) ->
  Forall no_final_LF lines ->
  sourcelist_render_state (fold_left (Sourcelist.parse_step context) lines st)
  = sourcelist_render_state st ++ lines.
Proof.
  revert st. induction lines as [|line lines IH]; intros st Hbuf Hlines; simpl.
  - rewrite app_nil_r. reflexivity.
  - inversion Hlines as [|? ? Hline Hrest]; subst.
    destruct (sourcelist_step_render context st line Hbuf Hline) as [Hr Hb].
    rewrite IH by assumption. rewrite Hr, <- app_assoc. reflexivity.
Qed.

Lemma sourcelist_parse_render {Specfile : Type} (context : option Specfile)
    (lines : list string) :
  Forall no_final_LF lines ->
  Sourcelist.get_raw_section_data (Sourcelist.parse lines context) = lines.
Proof.
  intros Hlines. unfold Sourcelist.parse.
  pose proof (sourcelist_fold_render context lines ([], []) (List.Forall_nil _) Hlines) as H.
  destruct (fold_left _ lines _) as [data buffer]. exact H.
Qed.

(** ** [Tags.insert] *)

Lemma endif_index_Some (lines : list string) :
  Exists (fun l => is_endif l = true) lines ->
  exists index marker,
    Tags.endif_index lines = Some index
    /\ lines !! index = Some marker
    /\ is_endif marker = true
    /\ (forall j l, j < index -> lines !! j = Some l -> is_endif l = false).
Proof.
  induction lines as [|line lines IH]; intros H.
  - inversion H.
  - cbn [Tags.endif_index]. fold (is_endif line).
    destruct (is_endif line) eqn:E.
    + exists 0, line. repeat split; try assumption. intros j l Hj. lia.
    + inversion H as [? ? Hl|? ? Hl]; subst; [congruence|].
      destruct (IH Hl) as (index & marker & Hidx & Hm & He & Hbefore).
      exists (S index), marker. rewrite Hidx. repeat split; try assumption.
      intros [|j] l Hj Hlook; simpl in Hlook.
      * injection Hlook as <-. assumption.
      * eapply Hbefore; [|eassumption]. lia.
Qed.

Lemma py_insert_at {A : Type} (l : list A) (i : Z) (x : A) :
  py_insert l i x = take (insert_position (length l) i) l
                    ++ x :: drop (insert_position (length l) i) l.
Proof. reflexivity. Qed.

(** [Tags.insert] returns for every index from [-len] on, and what it
    leaves behind is the collection with the new tag at the position of
    [list.insert], the new tag and the lines above that position having gone
    through [reattach]. *)
Lemma insert_result (i : Z) (item : Tag.t) (self : Tags.t) :
  (- Z.of_nat (length (Tags.data self)) <= i)%Z ->
  let p := insert_position (length (Tags.data self)) i in
  let r := Tags.reattach item (lines_above self p) in
  Tags.insert i item self
  = (Ok tt,
     match Tags.data self !! p with
     | Some next =>
         Tags.Tags (take p (Tags.data self)
                    ++ fst r :: Tag.with_preceding_lines (snd r) next
                    :: drop (S p) (Tags.data self))
                   (Tags._remainder self)
     | None => Tags.Tags (Tags.data self ++ [fst r]) (snd r)
     end).
Proof.
  destruct self as [data remainder]. intros Hi. cbv zeta.
  unfold lines_above, Tags.insert. cbn [Tags.data Tags._remainder] in *.
  assert (Hpos : insert_position (length data) (Z.of_nat (length data)) = length data).
  { unfold insert_position. destruct (Z.ltb_spec (Z.of_nat (length data)) 0); lia. }
  destruct (Z.gtb_spec i (Z.of_nat (length data))) as [Hgt|Hle].
  - (* the index is clipped to the length *)
    assert (Hp : insert_position (length data) i = length data).
    { unfold insert_position. destruct (Z.ltb_spec i 0); lia. }
    rewrite Z.ltb_irrefl, Hp.
    rewrite (lookup_ge_None_2 data (length data)) by lia.
    destruct (Tags.reattach item remainder) as [item' lines'].
    rewrite py_insert_at, Hpos, take_ge, drop_ge by lia. reflexivity.
  - destruct (Z.ltb_spec i (Z.of_nat (length data))) as [Hlt|Hge].
    + set (p := insert_position (length data) i).
      assert (Hpl : p < length data).
      { unfold p, insert_position. destruct (Z.ltb_spec i 0); lia. }
      assert (Hidx : py_index data i = Some p).
      { unfold py_index, p, insert_position.
        destruct (Z.ltb_spec i 0) as [Hneg|Hnn].
        - replace (0 <=? i)%Z with false by lia. simpl.
          replace (- Z.of_nat (length data) <=? i)%Z with true by lia.
          simpl. f_equal. lia.
        - replace (0 <=? i)%Z with true by lia.
          replace (i <? Z.of_nat (length data))%Z with true by lia.
          simpl. f_equal. lia. }
      rewrite Hidx.
      destruct (lookup_lt_is_Some_2 data p Hpl) as [next Hnext]. rewrite Hnext.
      destruct (Tags.reattach item (Tag.preceding_lines next)) as [item' lines'].
      cbn [fst snd]. rewrite py_insert_at, length_insert. fold p.
      rewrite take_insert_ge by lia.
      rewrite (insert_take_drop data p) by assumption.
      rewrite drop_app_length' by (rewrite length_take_le; lia).
      reflexivity.
    + assert (Hi' : i = Z.of_nat (length data)) by lia. subst i.
      rewrite Hpos, (lookup_ge_None_2 data (length data)) by lia.
      destruct (Tags.reattach item remainder) as [item' lines'].
      rewrite py_insert_at, Hpos, take_ge, drop_ge by lia. reflexivity.
Qed.

(** [Tags.insert] at an index [i] that Python accepts (from [-len] on):
    when the lines directly above the insertion point (the preceding lines
    of the tag that will follow the new one, or the remainder when the new
    tag goes last) hold a line that starts with [%endif], the call returns,
    the lines up to and including the first such line are put in front of
    the new tag's preceding lines, the entity below keeps the lines after
    it, and every other tag stays as it was. *)
Lemma insert_moves_endif_lines (i : Z) (item : Tag.t) (self : Tags.t) :
  (- Z.of_nat (length (Tags.data self)) <= i)%Z ->
  let p := insert_position (length (Tags.data self)) i in
  let lines := lines_above self p in
  Exists (fun l => is_endif l = true) lines ->
  exists index marker self',
    lines !! index = Some marker
    /\ is_endif marker = true
    /\ (forall j l, j < index -> lines !! j = Some l -> is_endif l = false)
    /\ Tags.insert i item self = (Ok tt, self')
    /\ Tags.data self' !! p
       = Some (Tag.with_preceding_lines
                 (take (S index) lines ++ Tag.preceding_lines item) item)
    /\ lines_above self' (S p) = drop (S index) lines
    /\ take p (Tags.data self') = take p (Tags.data self)
    /\ drop (S (S p)) (Tags.data self') = drop (S p) (Tags.data self)
    /\ match Tags.data self !! p with
       | Some next =>
           Tags.data self' !! S p
           = Some (Tag.with_preceding_lines (drop (S index) lines) next)
           /\ Tags._remainder self' = Tags._remainder self
       | None => Tags.data self' !! S p = None
       end.
Proof.
  intros Hi p lines Hex.
  destruct (endif_index_Some lines Hex) as (index & marker & Hidx & Hm & He & Hbefore).
  pose proof (insert_result i item self Hi) as Hins. cbv zeta in Hins.
  fold p in Hins. fold lines in Hins.
  unfold Tags.reattach in Hins. rewrite Hidx in Hins. cbn [fst snd] in Hins.
  assert (Hp : p <= length (Tags.data self)).
  { unfold p, insert_position. destruct (Z.ltb_spec i 0); lia. }
  exists index, marker. eexists. split; [exact Hm|]. split; [exact He|].
  split; [exact Hbefore|]. split; [exact Hins|].
  unfold lines_above. subst lines. unfold lines_above in *.
  destruct (Tags.data self !! p) as [next|] eqn:Hnext; cbn [Tags.data Tags._remainder].
  - assert (Hlen : length (take p (Tags.data self)) = p) by (apply length_take_le; lia).
    repeat split.
    + rewrite lookup_app_r by lia. rewrite Hlen, Nat.sub_diag. reflexivity.
    + rewrite lookup_app_r by lia. rewrite Hlen.
      replace (S p - p) with 1 by lia. reflexivity.
    + rewrite take_app_length' by (symmetry; exact Hlen). reflexivity.
    + rewrite drop_app_ge by lia. rewrite Hlen.
      replace (S (S p) - p) with 2 by lia. reflexivity.
    + rewrite lookup_app_r by lia. rewrite Hlen.
      replace (S p - p) with 1 by lia. reflexivity.
  - apply lookup_ge_None in Hnext.
    assert (Hpeq : p = length (Tags.data self)) by lia.
    repeat split.
    + rewrite lookup_app_r by lia. rewrite Hpeq, Nat.sub_diag. reflexivity.
    + rewrite (lookup_ge_None_2 _ (S p)); [reflexivity|]. rewrite length_app. simpl. lia.
    + rewrite Hpeq, take_app_length, take_ge by lia. reflexivity.
    + rewrite !drop_ge; [reflexivity|lia|]. rewrite length_app. simpl. lia.
    + apply lookup_ge_None_2. rewrite length_app. simpl. lia.
Qed.

(** ** The parse pipeline *)

Section ParserFacts.

Variable Spec : Type.
Variable spec_sources : Spec -> gset string.
Variable rpm_spec : gmap string SpecParser.bytes -> string -> SpecParser.flags -> option Spec.
Variable get_filename_from_location : string -> string.
Variable collect_included_sources : string -> gset string.
Variable collect_sources_referenced_from_tags : string -> gset string.

(** With the two variables set before the block or left set by the body,
    the block hands on what the body did and puts the variables back. *)
Lemma sanitize_environment_kept {A : Type} (body : SpecParser.M A) (w : SpecParser.world) :
  (is_Some (SpecParser.environ w !! "LANG")
   \/ is_Some (SpecParser.environ (snd (body (sanitized w))) !! "LANG")) ->
  (is_Some (SpecParser.environ w !! "LC_ALL")
   \/ is_Some (SpecParser.environ (snd (body (sanitized w))) !! "LC_ALL")) ->
  SpecParser._sanitize_environment body w
  = (fst (body (sanitized w)),
     SpecParser.World (SpecParser.files (snd (body (sanitized w))))
                      (restored (SpecParser.environ w)
                                (SpecParser.environ (snd (body (sanitized w)))))
                      (SpecParser.ops (snd (body (sanitized w))))).
Proof.
  unfold sanitized, restored, put_back. destruct w as [fs env ops].
  unfold SpecParser._sanitize_environment, SpecParser.finally, SpecParser.bindM.
  cbn -[insert base.delete lookup].
  destruct (body _) as [r [fs1 env1 ops1]]. cbn -[insert base.delete lookup].
  intros H1 H2. unfold SpecParser.restore. cbn -[insert base.delete lookup].
  unfold SpecParser.bindM, SpecParser.ret. cbn -[insert base.delete lookup].
  destruct (env !! "LANG") as [v1|] eqn:E1.
  - destruct (env !! "LC_ALL") as [v2|] eqn:E2; [reflexivity|].
    cbn -[insert base.delete lookup]. rewrite lookup_insert_ne by discriminate.
    destruct H2 as [[? H2]|[v H2]]; [discriminate|]. rewrite H2. reflexivity.
  - destruct H1 as [[? H1]|[v H1]]; [discriminate|]. rewrite H1.
    destruct (env !! "LC_ALL") as [v2|] eqn:E2; [reflexivity|].
    cbn -[insert base.delete lookup]. rewrite lookup_delete_ne by discriminate.
    destruct H2 as [[? H2]|[v' H2]]; [discriminate|]. rewrite H2. reflexivity.
Qed.

Lemma restore_environ (env : gmap string string) :
  restored env (<["LC_ALL" := "C.UTF-8"]> (<["LANG" := "C.UTF-8"]> env)) = env.
Proof.
  unfold restored, put_back. apply map_eq. intros k.
  destruct (env !! "LANG") eqn:E1, (env !! "LC_ALL") eqn:E2;
    destruct (decide (k = "LANG")), (decide (k = "LC_ALL")); simplify_map_eq; done.
Qed.

(** A call of the oracle leaves the world as it found it. *)
Lemma get_rpm_spec_world (content : string) (fl : SpecParser.flags) (w : SpecParser.world) :
  SpecParser.get_rpm_spec Spec rpm_spec content fl w
  = (match rpm_spec (SpecParser.files w) content fl with
     | Some spec => Ok spec
     | None => Raise RPMException
     end, w).
Proof.
  unfold SpecParser.get_rpm_spec. rewrite sanitize_environment_kept.
  - unfold sanitized. cbn [SpecParser.files].
    destruct (rpm_spec (SpecParser.files w) content fl);
      cbn [fst snd SpecParser.files SpecParser.environ SpecParser.ops];
      rewrite restore_environ; destruct w; reflexivity.
  - right. unfold sanitized. cbn [SpecParser.files].
    destruct (rpm_spec (SpecParser.files w) content fl); cbn [snd SpecParser.environ];
      rewrite lookup_insert_ne by discriminate; rewrite lookup_insert_eq; eauto.
  - right. unfold sanitized. cbn [SpecParser.files].
    destruct (rpm_spec (SpecParser.files w) content fl); cbn [snd SpecParser.environ];
      rewrite lookup_insert_eq; eauto.
Qed.

(** The first loop of [_make_dummy_sources]. *)
Lemma fake_sources_placed (l : list string) (ds : list string) (w : SpecParser.world) :
  exists new w',
    SpecParser.for_each (SpecParser.fake_source get_filename_from_location) l ds w
    = (Ok (ds ++ new), w')
    /\ placed SpecParser.signature new w w'
    /\ SpecParser.ops w'
       = SpecParser.ops w
         ++ map (fun f => SpecParser.WriteBytes f (SpecParser.signature f)) new
    /\ (forall source, In source l ->
          Py.falsy (get_filename_from_location source) = false ->
          is_Some (SpecParser.files w' !! get_filename_from_location source)).
Proof.
  revert ds w. induction l as [|source l IH]; intros ds w.
  - exists [], w. cbn. rewrite !app_nil_r. split; [reflexivity|].
    split; [|split; [reflexivity|intros ? []]].
    split; [constructor|]. split; [intros f Hf; inversion Hf|].
    split; [intros; reflexivity|reflexivity].
  - cbn [SpecParser.for_each]. unfold SpecParser.bindM at 1.
    unfold SpecParser.fake_source at 1.
    set (filename := get_filename_from_location source).
    destruct (Py.falsy filename) eqn:Hfalsy.
    + cbn [SpecParser.ret].
      destruct (IH ds w) as (new & w' & Hrun & Hplaced & Hops & Hall).
      exists new, w'. do 3 (split; [assumption|]).
      intros s [<-|Hs] Hne; [fold filename in Hne; congruence|]. apply Hall; assumption.
    + unfold SpecParser.is_file.
      destruct (SpecParser.files w !! filename) as [b|] eqn:Hfile.
      * rewrite bool_decide_eq_true_2 by eauto.
        destruct (IH ds w) as (new & w' & Hrun & Hplaced & Hops & Hall).
        exists new, w'. do 3 (split; [assumption|]).
        intros s [<-|Hs] Hne; [|apply Hall; assumption]. fold filename.
        destruct Hplaced as (_ & Hin & Hout & _).
        destruct (decide (filename ∈ new)) as [Hd|Hd].
        -- destruct (Hin _ Hd) as [_ ->]. eauto.
        -- rewrite (Hout _ Hd), Hfile. eauto.
      * rewrite bool_decide_eq_false_2 by (intros [? [=]]).
        cbn [SpecParser.bindM SpecParser.write_bytes SpecParser.ret].
        set (w1 := SpecParser.World _ _ _).
        destruct (IH (ds ++ [filename]) w1) as (new & w' & Hrun & Hplaced & Hops & Hall).
        destruct Hplaced as (Hnd & Hin & Hout & Henv).
        assert (Hnotin : filename ∉ new).
        { intros Hd. destruct (Hin _ Hd) as [Hnone _]. unfold w1 in Hnone.
          cbn in Hnone. rewrite lookup_insert_eq in Hnone. discriminate. }
        exists (filename :: new), w'. rewrite Hrun, <- app_assoc. split; [reflexivity|].
        split; [|split].
        -- split; [constructor; assumption|]. split; [|split].
           ++ intros f Hf. apply elem_of_cons in Hf as [->|Hf].
              ** split; [assumption|]. rewrite (Hout _ Hnotin). unfold w1. cbn.
                 apply lookup_insert_eq.
              ** destruct (Hin _ Hf) as [Hnone Hsome]. split; [|assumption].
                 unfold w1 in Hnone. cbn in Hnone.
                 destruct (decide (filename = f)) as [->|Hne]; [contradiction|].
                 rewrite lookup_insert_ne in Hnone by assumption. assumption.
           ++ intros f Hf. apply not_elem_of_cons in Hf as [Hne Hf].
              rewrite (Hout _ Hf). unfold w1. cbn. apply lookup_insert_ne. congruence.
           ++ rewrite Henv. reflexivity.
        -- rewrite Hops. unfold w1. cbn. rewrite <- app_assoc. reflexivity.
        -- intros s [<-|Hs] Hne; [|apply Hall; assumption]. fold filename.
           rewrite (Hout _ Hnotin). unfold w1. cbn. rewrite lookup_insert_eq. eauto.
Qed.

(** The loop after the [yield] removes the files it is given. *)
Lemma remove_dummy_sources_files (ds : list string) (w : SpecParser.world) :
  exists w',
    SpecParser.remove_dummy_sources ds w = (Ok tt, w')
    /\ (forall f, f ∈ ds -> SpecParser.files w' !! f = None)
    /\ (forall f, f ∉ ds -> SpecParser.files w' !! f = SpecParser.files w !! f)
    /\ SpecParser.environ w' = SpecParser.environ w
    /\ SpecParser.ops w' = SpecParser.ops w ++ map SpecParser.Unlink ds.
Proof.
  unfold SpecParser.remove_dummy_sources. revert w.
  induction ds as [|d ds IH]; intros w.
  - exists w. cbn. rewrite app_nil_r. split; [reflexivity|].
    split; [intros f Hf; inversion Hf|]. repeat split.
  - cbn [SpecParser.for_each SpecParser.bindM SpecParser.unlink].
    set (w1 := SpecParser.World _ _ _).
    destruct (IH w1) as (w' & Hrun & Hin & Hout & Henv & Hops).
    exists w'. split; [exact Hrun|]. split; [|split; [|split]].
    + intros f Hf. destruct (decide (f ∈ ds)) as [Hd|Hd]; [apply Hin, Hd|].
      apply elem_of_cons in Hf as [->|Hf]; [|contradiction].
      rewrite (Hout _ Hd). unfold w1. cbn. apply lookup_delete_eq.
    + intros f Hf. apply not_elem_of_cons in Hf as [Hne Hf].
      rewrite (Hout _ Hf). unfold w1. cbn. apply lookup_delete_ne. congruence.
    + rewrite Henv. reflexivity.
    + rewrite Hops. unfold w1. cbn. rewrite <- app_assoc. reflexivity.
Qed.

End ParserFacts.

Section ParserClaims.

Variable Spec : Type.
Variable spec_sources : Spec -> gset string.
Variable rpm_spec : gmap string SpecParser.bytes -> string -> SpecParser.flags -> option Spec.
Variable get_filename_from_location : string -> string.
Variable collect_included_sources : string -> gset string.
Variable collect_sources_referenced_from_tags : string -> gset string.

(** Every file that the first loop of [_make_dummy_sources] writes is the
    file of one of the sources it was given, and has a name. *)
Lemma fake_sources_origin (l : list string) (ds new : list string)
    (w w' : SpecParser.world) :
  SpecParser.for_each (SpecParser.fake_source get_filename_from_location) l ds w
  = (Ok (ds ++ new), w') ->
  forall f, f ∈ new ->
    Py.falsy f = false
    /\ exists source, In source l /\ get_filename_from_location source = f.
Proof.
  revert ds new w w'. induction l as [|source l IH]; intros ds new w w' Hrun f Hf.
  - cbn in Hrun. injection Hrun as Hds _.
    rewrite <- (app_nil_r ds) in Hds at 1. apply app_inv_head in Hds. subst new.
    inversion Hf.
  - cbn [SpecParser.for_each] in Hrun. unfold SpecParser.bindM at 1 in Hrun.
    unfold SpecParser.fake_source at 1 in Hrun.
    set (filename := get_filename_from_location source) in *.
    destruct (Py.falsy filename) eqn:Hfn.
    + cbn [SpecParser.ret] in Hrun.
      destruct (IH _ _ _ _ Hrun f Hf) as (Hne & s & Hs & Hsf).
      split; [exact Hne|]. exists s. split; [right|]; assumption.
    + destruct (SpecParser.is_file filename w).
      * destruct (IH _ _ _ _ Hrun f Hf) as (Hne & s & Hs & Hsf).
        split; [exact Hne|]. exists s. split; [right|]; assumption.
      * cbn [SpecParser.bindM SpecParser.write_bytes SpecParser.ret] in Hrun.
        set (w1 := SpecParser.World _ _ _) in Hrun.
        destruct (fake_sources_placed get_filename_from_location l (ds ++ [filename]) w1)
          as (new2 & w2 & Hrun2 & _).
        rewrite Hrun2 in Hrun. injection Hrun as Hds _.
        rewrite <- app_assoc in Hds. apply app_inv_head in Hds. subst new.
        apply elem_of_cons in Hf as [->|Hf].
        -- split; [exact Hfn|]. exists source. split; [left|]; reflexivity.
        -- destruct (IH _ _ _ _ Hrun2 f Hf) as (Hne & s & Hs & Hsf).
           split; [exact Hne|]. exists s. split; [right|]; assumption.
Qed.

(** C4, as amended.  When the first, non-build parse succeeds, the forced
    branch is not entered, whatever [force_parse] and the static scans
    say.  [_do_parse] then writes one placeholder, by the signature rule,
    for every source the oracle reports whose file is missing, and writes
    nothing else (no text placeholder, no file that exists); the full
    parse runs with these files in place.  When it succeeds the call
    removes the placeholders and returns its result with [tainted] false,
    the files and the environment being what they were; when it fails the
    call raises and the placeholders stay. *)
Theorem C4_first_parse_success (force_parse : bool) (content : string)
    (w : SpecParser.world) (spec0 : Spec) :
  rpm_spec (SpecParser.files w) content SpecParser.non_build = Some spec0 ->
  exists placeholders w1,
    NoDup placeholders
    /\ (forall f, f ∈ placeholders <->
          SpecParser.files w !! f = None /\ Py.falsy f = false
          /\ exists source, source ∈ spec_sources spec0
                            /\ get_filename_from_location source = f)
    /\ (forall f, f ∈ placeholders ->
          SpecParser.files w1 !! f = Some (SpecParser.signature f))
    /\ (forall f, f ∉ placeholders -> SpecParser.files w1 !! f = SpecParser.files w !! f)
    /\ SpecParser.environ w1 = SpecParser.environ w
    /\ SpecParser.ops w1
       = SpecParser.ops w
         ++ map (fun f => SpecParser.WriteBytes f (SpecParser.signature f)) placeholders
    /\ SpecParser._do_parse Spec spec_sources rpm_spec get_filename_from_location
         collect_included_sources collect_sources_referenced_from_tags
         force_parse content w
       = match rpm_spec (SpecParser.files w1) content SpecParser.full with
         | Some spec1 =>
             (Ok (spec1, false),
              SpecParser.World (SpecParser.files w) (SpecParser.environ w)
                               (SpecParser.ops w1 ++ map SpecParser.Unlink placeholders))
         | None => (Raise RPMException, w1)
         end.
Proof.
  intros Hfirst.
  destruct (fake_sources_placed get_filename_from_location
              (elements (spec_sources spec0)) [] w)
    as (new & w1 & Hrun & Hplaced & Hops & Hall).
  assert (Hcreate :
    SpecParser.create_dummy_sources get_filename_from_location (spec_sources spec0) ∅ w
    = (Ok new, w1)).
  { unfold SpecParser.create_dummy_sources, SpecParser.bindM.
    rewrite Hrun, elements_empty. reflexivity. }
  pose proof (fake_sources_origin _ _ _ _ _ Hrun) as Horigin.
  destruct Hplaced as (Hnd & Hin & Hout & Henv).
  exists new, w1. split; [exact Hnd|]. split; [|split; [|split; [exact Hout|]]].
  - intros f. split.
    + intros Hf. split; [apply (Hin _ Hf)|].
      destruct (Horigin f Hf) as (Hne & source & Hs & Hsf). split; [exact Hne|].
      exists source. split; [|exact Hsf].
      apply elem_of_elements, list_elem_of_In, Hs.
    + intros (Hnone & Hne & source & Hsource & <-).
      destruct (decide (get_filename_from_location source ∈ new)) as [Hd|Hd]; [assumption|].
      destruct (Hall source) as [b Hb].
      * apply list_elem_of_In, elem_of_elements, Hsource.
      * exact Hne.
      * rewrite (Hout _ Hd), Hnone in Hb. discriminate.
  - intros f Hf. apply (Hin _ Hf).
  - split; [exact Henv|]. split; [exact Hops|].
    unfold SpecParser._do_parse. rewrite get_rpm_spec_world, Hfirst.
    cbn [SpecParser.spec SpecParser.sources SpecParser.non_empty_sources
         SpecParser.tainted].
    unfold SpecParser._make_dummy_sources, SpecParser.bindM at 1.
    rewrite Hcreate. unfold SpecParser.bindM at 1. unfold SpecParser.bindM at 1.
    rewrite get_rpm_spec_world.
    destruct (rpm_spec (SpecParser.files w1) content SpecParser.full) as [spec1|];
      [|reflexivity].
    cbn [SpecParser.ret].
    destruct (remove_dummy_sources_files new w1) as (w' & Hrm & Hgone & Hkept & Henv' & Hops').
    unfold SpecParser.bindM. rewrite Hrm. cbn [SpecParser.ret]. f_equal.
    destruct w' as [fs' env' ops']. cbn [SpecParser.files SpecParser.environ SpecParser.ops] in *.
    f_equal.
    + apply map_eq. intros f. destruct (decide (f ∈ new)) as [Hd|Hd].
      * rewrite (Hgone _ Hd). symmetry. apply (Hin _ Hd).
      * rewrite (Hkept _ Hd). apply Hout, Hd.
    + rewrite Henv'. exact Henv.
    + exact Hops'.
Qed.

End ParserClaims.

Lemma C4_first_parse_success_witness :
  exists w',
    SpecParser._do_parse Demo.Spec Demo.spec_sources Demo.oracle_ok
      Demo.basename Demo.no_sources Demo.no_sources
      false "Source0: https://example.com/pkg-1.0.tar.gz" Demo.empty_world
    = (Ok ({[ Demo.remote_source ]}, false), w')
    /\ SpecParser.files w' = SpecParser.files Demo.empty_world.
Proof.
  destruct (C4_first_parse_success Demo.Spec Demo.spec_sources Demo.oracle_ok
              Demo.basename Demo.no_sources Demo.no_sources
              false "Source0: https://example.com/pkg-1.0.tar.gz" Demo.empty_world
              {[ Demo.remote_source ]} eq_refl)
    as (placeholders & w1 & _ & _ & _ & _ & _ & _ & Hrun).
  unfold Demo.oracle_ok at 2 in Hrun. eexists. split; [exact Hrun|reflexivity].
Defined.

(** C4, as stated, fails: the first parse of a document with one remote
    source succeeds, the source is not in the source directory, and the
    call writes a placeholder for it (and removes it again). *)
Lemma C4_counterexample :
  Demo.oracle_ok (SpecParser.files Demo.empty_world)
    "Source0: https://example.com/pkg-1.0.tar.gz" SpecParser.non_build
  = Some {[ Demo.remote_source ]}
  /\ exists w',
      SpecParser._do_parse Demo.Spec Demo.spec_sources Demo.oracle_ok
        Demo.basename Demo.no_sources Demo.no_sources
        false "Source0: https://example.com/pkg-1.0.tar.gz" Demo.empty_world
      = (Ok ({[ Demo.remote_source ]}, false), w')
      /\ SpecParser.ops w'
         = [ SpecParser.WriteBytes "pkg-1.0.tar.gz" Demo.gz_placeholder;
             SpecParser.Unlink "pkg-1.0.tar.gz" ].
Proof.
  split; [reflexivity|]. eexists. split; vm_compute; reflexivity.
Qed.

(** C3 at two failing inputs.  With [force_parse] set and an included file
    missing, the placeholder written for it is still in the source
    directory when the forced parse fails and the call raises; and when the
    first parse succeeds but the full parse fails, the placeholder of a
    missing source is left behind in the same way. *)
Theorem C3_placeholder_survives_failed_parse :
  (let '(r, _, w') :=
     SpecParser.parse Demo.Spec Demo.spec_sources Demo.oracle_include
       Demo.basename Demo.includes_macros Demo.no_sources
       Demo.forcing_parser "%include %{_sourcedir}/macros.inc" Demo.empty_world in
   r = Raise RPMException
   /\ SpecParser.files Demo.empty_world !! "macros.inc" = None
   /\ SpecParser.files w' !! "macros.inc" = Some (replicate 13 Byte.x00)
   /\ SpecParser.ops w' = [ SpecParser.WriteBytes "macros.inc" (replicate 13 Byte.x00) ])
  /\
  (let '(r, _, w') :=
     SpecParser.parse Demo.Spec Demo.spec_sources Demo.oracle_non_build_only
       Demo.basename Demo.no_sources Demo.no_sources
       Demo.forcing_parser "Source0: https://example.com/pkg-1.0.tar.gz"
       Demo.empty_world in
   r = Raise RPMException
   /\ SpecParser.files Demo.empty_world !! "pkg-1.0.tar.gz" = None
   /\ SpecParser.files w' !! "pkg-1.0.tar.gz" = Some Demo.gz_placeholder
   /\ SpecParser.ops w' = [ SpecParser.WriteBytes "pkg-1.0.tar.gz" Demo.gz_placeholder ]).
Proof.
  split; vm_compute; repeat split; reflexivity.
Qed.

(** ** The claims on comments *)

Lemma final_LF_app (a : string) : final_LF (a +:+ String Py.LF EmptyString) = true.
Proof.
  induction a as [|c a IH]; [reflexivity|].
  rewrite str_app_cons. cbn [final_LF].
  destruct (a +:+ String Py.LF EmptyString) eqn:E; [|exact IH].
  destruct a; discriminate.
Qed.

Lemma final_LF_false (line : string) : final_LF line = false -> no_final_LF line.
Proof. intros H a ->. rewrite final_LF_app in H. discriminate. Qed.

(** ** The comment pattern, part by part *)

Lemma span_spec (p : ascii -> bool) (s : string) :
  s = fst (span p s) +:+ snd (span p s)
  /\ Re.all_in p (fst (span p s)) = true
  /\ stops p (snd (span p s)) = true.
Proof.
  induction s as [|c s (IH1 & IH2 & IH3)]; [repeat split|].
  cbn [span]. destruct (p c) eqn:Hc; cbn [fst snd].
  - rewrite str_app_cons, <- IH1. cbn [Re.all_in]. rewrite Hc. repeat split; assumption.
  - cbn [stops]. rewrite Hc. repeat split.
Qed.

Lemma span_app (p : ascii -> bool) (a r : string) :
  Re.all_in p a = true ->
  span p (a +:+ r) = (a +:+ fst (span p r), snd (span p r)).
Proof.
  induction a as [|c a IH]; intros Ha.
  - rewrite !str_app_nil_l. destruct (span p r). reflexivity.
  - cbn [Re.all_in] in Ha. apply andb_prop in Ha as [Hc Ha].
    rewrite !str_app_cons. cbn [span]. rewrite Hc, (IH Ha). reflexivity.
Qed.

Lemma span_stops (p : ascii -> bool) (r : string) :
  stops p r = true -> span p r = (EmptyString, r).
Proof.
  destruct r as [|c r]; [reflexivity|]. cbn [stops span]. intros H.
  apply negb_true_iff in H. rewrite H. reflexivity.
Qed.

Lemma chomp_tail (c : ascii) (s : string) :
  Py.single_line (chomp (String c s)) = true -> Py.single_line (chomp s) = true.
Proof.
  destruct s as [|c' s]; [reflexivity|]. cbn [chomp]. fold (chomp (String c' s)).
  cbn [Py.single_line]. intros H. apply andb_prop in H as [_ H]. exact H.
Qed.

Lemma chomp_span (p : ascii -> bool) (s : string) :
  Py.single_line (chomp s) = true -> Py.single_line (chomp (snd (span p s))) = true.
Proof.
  induction s as [|c s IH]; intros H; [reflexivity|].
  cbn [span]. destruct (p c); cbn [snd]; [|exact H]. apply IH. eapply chomp_tail, H.
Qed.

Lemma chomp_eol (t rest : string) :
  Re.all_in Re.dot t = true -> Re.at_eol rest = true ->
  chomp (t +:+ rest) = t.
Proof.
  intros Ht Hr. induction t as [|c t IH].
  - rewrite str_app_nil_l. destruct rest as [|x [|y rest]]; try discriminate; [reflexivity|].
    cbn in Hr |- *. rewrite Hr. reflexivity.
  - cbn [Re.all_in] in Ht. apply andb_prop in Ht as [Hc Ht]. specialize (IH Ht).
    rewrite str_app_cons. cbn [chomp]. fold (chomp (t +:+ rest)).
    destruct (t +:+ rest) as [|x s] eqn:E.
    + destruct t; [|discriminate]. unfold Re.dot in Hc.
      apply negb_true_iff in Hc. rewrite Hc. reflexivity.
    + rewrite IH. reflexivity.
Qed.

Lemma chomp_split (s : string) :
  exists rest, s = chomp s +:+ rest /\ Re.at_eol rest = true.
Proof.
  induction s as [|c s (rest & Hs & Hr)]; [exists EmptyString; split; reflexivity|].
  cbn [chomp]. destruct s as [|c' s].
  - destruct (Ascii.eqb c Py.LF) eqn:Hc.
    + exists (String c EmptyString). split; [reflexivity|]. cbn. exact Hc.
    + exists EmptyString. split; [reflexivity|reflexivity].
  - exists rest. split; [|exact Hr]. rewrite str_app_cons. f_equal. exact Hs.
Qed.

(** A match of the comment pattern of the code, taken apart. *)
Lemma comment_match_parts (line : string) (m : Re.thread) :
  Re.match_ false Comments.comment_regex line = Some m ->
  exists a b t rest,
    line = a +:+ String "#" (b +:+ t +:+ rest)
    /\ Re.all_in Re.space a = true /\ Re.all_in Re.space b = true
    /\ Re.all_in Re.dot t = true /\ Re.at_eol rest = true.
Proof.
  unfold Re.match_, Comments.comment_regex. intros H. apply hd_error_In in H.
  apply in_exec_cat in H as (t0 & tx & H0 & Hx & ->).
  apply in_exec_bol in H0 as [-> _].
  unfold Re.unit_thread in Hx; cbn [Re.eaten Re.rest andb Py.falsy] in Hx.
  apply in_exec_cat in Hx as (t1 & t2 & H1 & H2 & ->).
  apply in_exec_grp in H1 as (t1' & H1 & ->).
  apply in_exec_cat in H1 as (sa & sx & Hsa & Hsx & ->).
  cbn [Re.exec] in Hsa. apply in_map_iff in Hsa as ([a ra] & <- & Hsa).
  apply star_spec in Hsa as [Hline Ha]. cbn [Re.eaten Re.rest fst snd] in *.
  apply in_exec_cat in Hsx as (sc & sb & Hsc & Hsb & ->).
  cbn [Re.exec] in Hsc. destruct ra as [|x ra]; [destruct Hsc|].
  cbn [Re.lit] in Hsc. unfold Re.chr_eq in Hsc.
  destruct (Ascii.eqb "#" x) eqn:Ex; [|destruct Hsc].
  apply Ascii.eqb_eq in Ex as <-. destruct Hsc as [<-|[]].
  cbn [Re.exec Re.eaten Re.rest] in Hsb. apply in_map_iff in Hsb as ([b rb] & <- & Hsb).
  apply star_spec in Hsb as [Hra Hb]. cbn [Re.eaten Re.rest fst snd] in *.
  apply in_exec_cat in H2 as (t2a & t2b & H2a & H2b & ->).
  apply in_exec_grp in H2a as (t2' & H2a & ->).
  cbn [Re.exec] in H2a. apply in_map_iff in H2a as ([t rt] & <- & H2a).
  apply star_spec in H2a as [Hrb Ht]. cbn [Re.eaten Re.rest fst snd] in *.
  apply in_exec_eol in H2b as [_ Heol].
  exists a, b, t, rt. subst ra rb. split; [symmetry; exact Hline|].
  repeat split; assumption.
Qed.

(** The first way in which the pattern of the code matches a line made of
    the parts of a comment. *)
Lemma comment_match_intro (a b t rest : string) :
  Re.all_in Re.space a = true -> Re.all_in Re.space b = true ->
  stops Re.space (t +:+ rest) = true ->
  Re.all_in Re.dot t = true -> Re.at_eol rest = true ->
  exists m,
    Re.match_ false Comments.comment_regex (a +:+ String "#" (b +:+ t +:+ rest)) = Some m
    /\ Re.group "1" m = a +:+ String "#" b /\ Re.group "2" m = t.
Proof.
  intros Ha Hb Hstop Ht Heol. unfold Re.match_, Comments.comment_regex.
  pose proof (hd_star_intro false Re.space true a (String "#" (b +:+ t +:+ rest)) Ha eq_refl)
    as Hs1.
  assert (Hl : hd_error (Re.exec false (Re.Lit "#") (true && Py.falsy a)
                                 (String "#" (b +:+ t +:+ rest)))
               = Some (Re.Thread "#" (b +:+ t +:+ rest) []))
    by (cbn [Re.exec Re.lit]; unfold Re.chr_eq; rewrite Ascii.eqb_refl; reflexivity).
  pose proof (hd_star_intro false Re.space (true && Py.falsy a && Py.falsy "#")
                            b (t +:+ rest) Hb Hstop) as Hs2.
  pose proof (hd_cat_intro false (Re.Lit "#") (Re.Star Re.space) _ _ _ _ Hl Hs2) as Hc2.
  pose proof (hd_cat_intro false (Re.Star Re.space) _ _ _ _ _ Hs1 Hc2) as Hc1.
  apply (hd_grp_intro false "1") in Hc1. cbn [Re.eaten Re.rest Re.groups] in Hc1.
  assert (Hrest : stops Re.dot rest = true).
  { destruct rest as [|x [|y rest]]; try discriminate; [reflexivity|].
    cbn in Heol |- *. unfold Re.dot. rewrite Heol. reflexivity. }
  pose proof (hd_star_intro false Re.dot
                (true && Py.falsy EmptyString && Py.falsy (a +:+ "#" +:+ b))
                t rest Ht Hrest) as Hdot.
  apply (hd_grp_intro false "2") in Hdot. cbn [Re.eaten Re.rest Re.groups] in Hdot.
  assert (He : hd_error (Re.exec false Re.Eol
                 (true && Py.falsy EmptyString && Py.falsy (a +:+ "#" +:+ b) && Py.falsy t)
                 rest) = Some (Re.unit_thread rest))
    by (cbn [Re.exec]; rewrite Heol; reflexivity).
  pose proof (hd_cat_intro false _ Re.Eol _ _ _ _ Hdot He) as Hc3.
  cbn [Re.eaten Re.rest Re.groups] in Hc3.
  pose proof (hd_cat_intro false _ _ (true && Py.falsy EmptyString) _ _ _ Hc1 Hc3) as Hc4.
  cbn [Re.eaten Re.rest Re.groups] in Hc4.
  pose proof (hd_cat_intro false Re.Bol _ true (a +:+ String "#" (b +:+ t +:+ rest))
                           (Re.unit_thread _) _ eq_refl Hc4) as H.
  eexists. split; [exact H|]. split; reflexivity.
Qed.

(** The pattern of the code is the pattern of the specification. *)
Lemma comment_pattern_match (line : string) :
  comment_pattern line
  = option_map (fun m => (Re.group "1" m, Re.group "2" m))
               (Re.match_ false Comments.comment_regex line).
Proof.
  assert (Hnone : forall a b t rest,
            line = a +:+ String "#" (b +:+ t +:+ rest) ->
            Re.all_in Re.space a = true -> Re.all_in Re.space b = true ->
            Re.all_in Re.dot t = true -> Re.at_eol rest = true ->
            is_Some (comment_pattern line)).
  { intros a b t rest -> Ha Hb Ht Hr. unfold comment_pattern.
    rewrite (span_app Py.isspace a _ Ha), (span_stops Py.isspace (String "#" _) eq_refl).
    cbn [fst snd]. rewrite Ascii.eqb_refl.
    rewrite (span_app Py.isspace b _ Hb). cbn [fst snd].
    rewrite (chomp_span Py.isspace); [eauto|].
    rewrite (chomp_eol t rest Ht Hr), <- all_in_dot. exact Ht. }
  destruct (Re.match_ false Comments.comment_regex line) as [m|] eqn:Hm; cbn [option_map].
  - destruct (comment_match_parts line m Hm) as (a & b & t & rest & Hl & Ha & Hb & Ht & Hr).
    destruct (Hnone _ _ _ _ Hl Ha Hb Ht Hr) as [[prefix text] Hp].
    rewrite Hp. revert Hp. unfold comment_pattern.
    destruct (span_spec Py.isspace line) as (Hs1 & Hs2 & Hs3).
    destruct (span Py.isspace line) as [a' r1] eqn:E1. cbn [fst snd] in *.
    destruct r1 as [|c r2]; [discriminate|].
    destruct (Ascii.eqb c "#") eqn:Ec; [|discriminate]. apply Ascii.eqb_eq in Ec as ->.
    destruct (span_spec Py.isspace r2) as (Hs4 & Hs5 & Hs6).
    destruct (span Py.isspace r2) as [b' r3] eqn:E2. cbn [fst snd] in *.
    destruct (Py.single_line (chomp r3)) eqn:Esl; [|discriminate].
    intros [= <- <-].
    destruct (chomp_split r3) as (rest' & Hr3 & Hrest').
    destruct (comment_match_intro a' b' (chomp r3) rest' Hs2 Hs5) as (m' & Hm' & H1 & H2).
    + rewrite <- Hr3. exact Hs6.
    + rewrite all_in_dot. exact Esl.
    + exact Hrest'.
    + rewrite <- Hr3, <- Hs4, <- Hs1, Hm in Hm'. injection Hm' as <-.
      rewrite H1, H2. reflexivity.
  - destruct (comment_pattern line) as [[prefix text]|] eqn:Hp; [|reflexivity].
    exfalso. revert Hp. unfold comment_pattern.
    destruct (span_spec Py.isspace line) as (Hs1 & Hs2 & Hs3).
    destruct (span Py.isspace line) as [a' r1] eqn:E1. cbn [fst snd] in *.
    destruct r1 as [|c r2]; [discriminate|].
    destruct (Ascii.eqb c "#") eqn:Ec; [|discriminate]. apply Ascii.eqb_eq in Ec as ->.
    destruct (span_spec Py.isspace r2) as (Hs4 & Hs5 & Hs6).
    destruct (span Py.isspace r2) as [b' r3] eqn:E2. cbn [fst snd] in *.
    destruct (Py.single_line (chomp r3)) eqn:Esl; [|discriminate].
    intros _.
    destruct (chomp_split r3) as (rest' & Hr3 & Hrest').
    destruct (comment_match_intro a' b' (chomp r3) rest' Hs2 Hs5) as (m' & Hm' & _).
    + rewrite <- Hr3. exact Hs6.
    + rewrite all_in_dot. exact Esl.
    + exact Hrest'.
    + rewrite <- Hr3, <- Hs4, <- Hs1, Hm in Hm'. discriminate.
Qed.

Lemma comment_pattern_line (line : string) :
  is_comment_line line = bool_decide (is_Some (comment_pattern line)).
Proof.
  unfold is_comment_line. rewrite comment_pattern_match.
  destruct (Re.match_ false Comments.comment_regex line); reflexivity.
Qed.

Lemma comment_pattern_parts (line : string) :
  is_comment_line line = true ->
  comment_pattern line
  = Some (Comment.prefix (comment_of_line line), Comment.text (comment_of_line line)).
Proof.
  unfold is_comment_line, comment_of_line. rewrite comment_pattern_match.
  intros H. apply bool_decide_eq_true in H as [m Hm]. rewrite Hm. reflexivity.
Qed.

(** C8.  [Comments.parse] scans from the last line backward.  The comments
    are made of the trailing run of lines that match the comment pattern
    (optional leading white space, the number sign, optional white space,
    free text), each split into its prefix and its text; the preceding
    lines are all the lines before that run, and the last of them (the
    first line met that fails the pattern) does not match; nothing is asked
    of the lines before it, which stay preceding lines even when they match
    the pattern. *)
Theorem C8_comments_parse_backward_scan (lines : list string) :
  exists run,
    lines = Comments._preceding_lines (Comments.parse lines) ++ run
    /\ Forall (fun l => is_Some (comment_pattern l)) run
    /\ map (fun c => Some (Comment.prefix c, Comment.text c))
           (Comments.data (Comments.parse lines))
       = map comment_pattern run
    /\ (forall before l,
          Comments._preceding_lines (Comments.parse lines) = before ++ [l] ->
          comment_pattern l = None).
Proof.
  rewrite comments_parse_scan. cbn [Comments.data Comments._preceding_lines].
  destruct (comments_scan_spec lines) as (run & Hsplit & Hrun & Hdata & Hlast).
  exists run. split; [exact Hsplit|]. split; [|split].
  - eapply Forall_impl; [exact Hrun|]. intros l Hl. cbv beta in Hl.
    rewrite comment_pattern_line in Hl. apply bool_decide_eq_true in Hl. exact Hl.
  - rewrite Hdata. clear -Hrun. induction Hrun as [|l run Hl _ IH]; [reflexivity|].
    cbn [map]. rewrite IH, (comment_pattern_parts l Hl). reflexivity.
  - intros before l H. specialize (Hlast before l H).
    rewrite comment_pattern_line in Hlast. apply bool_decide_eq_false in Hlast.
    destruct (comment_pattern l); [exfalso; eauto|reflexivity].
Qed.

(** C10, as stated, fails on a comment line that ends with a line feed:
    [$] matches before the final line feed, which no group captures. *)
Lemma C10_counterexample :
  Comments.get_raw_data (Comments.parse ["# a" +:+ String Py.LF EmptyString]) = ["# a"]
  /\ Comments.get_raw_data (Comments.parse ["# a" +:+ String Py.LF EmptyString])
     <> ["# a" +:+ String Py.LF EmptyString].
Proof. split; [vm_compute; reflexivity|]. vm_compute. discriminate. Qed.

(** C10, as amended.  For every list of strings none of which ends with a
    line feed, [Comments.parse] followed by [get_raw_data] gives the list
    back. *)
Theorem C10_parse_raw_data_roundtrip (lines : list string) :
  Forall (fun l => final_LF l = false) lines ->
  Comments.get_raw_data (Comments.parse lines) = lines.
Proof.
  intros H. apply comments_raw_parse.
  eapply Forall_impl; [exact H|]. apply final_LF_false.
Qed.

Lemma C10_parse_raw_data_roundtrip_witness :
  Comments.get_raw_data (Comments.parse ["%if 1"; "# old"; ""; "# a"; "  #b"])
  = ["%if 1"; "# old"; ""; "# a"; "  #b"].
Proof.
  apply C10_parse_raw_data_roundtrip. repeat constructor.
Defined.

(** ** The claims on tag blocks *)

(** C1, as stated, fails when a rendered line holds a line feed: [.+] stops
    at it and the rest of the tag's value is lost; in a source list a
    comment that ends with a line feed loses it. *)
Lemma C1_counterexample :
  (exists y,
     Tags.parse TAG_NAMES (Tags.get_raw_section_data Demo.tags_with_LF) None = Ok y
     /\ Tags.get_raw_section_data Demo.tags_with_LF = ["Name: a" +:+ String Py.LF "b"]
     /\ Tags.get_raw_section_data y = ["Name: a"]
     /\ Tags.get_raw_section_data y <> Tags.get_raw_section_data Demo.tags_with_LF)
  /\ Sourcelist.get_raw_section_data Demo.sourcelist_with_LF
     = ["# a" +:+ String Py.LF EmptyString; "pkg.tar.gz"]
  /\ Sourcelist.get_raw_section_data
       (Sourcelist.parse
          (Sourcelist.get_raw_section_data Demo.sourcelist_with_LF) (@None unit))
     = ["# a"; "pkg.tar.gz"]
  /\ Sourcelist.get_raw_section_data
       (Sourcelist.parse
          (Sourcelist.get_raw_section_data Demo.sourcelist_with_LF) (@None unit))
     <> Sourcelist.get_raw_section_data Demo.sourcelist_with_LF.
Proof.
  split.
  - eexists. split; [vm_compute; reflexivity|]. split; [reflexivity|].
    split; [reflexivity|]. vm_compute. discriminate.
  - split; [reflexivity|]. split; [vm_compute; reflexivity|]. vm_compute. discriminate.
Qed.

(** C1, as amended.  For every tag collection and every source list whose
    rendered lines hold no line feed, parsing the rendered lines returns,
    and rendering what it returns gives the same lines, in whatever order
    the set of tag names is iterated. *)
Theorem C1_render_parse_render (order : list string) (x : Tags.t)
    (parsed_section : option (list string))
    (Specfile : Type) (s : Sourcelist.t Specfile) (context : option Specfile) :
  order ≡ₚ TAG_NAMES ->
  Forall (fun l => Py.single_line l = true) (Tags.get_raw_section_data x) ->
  Forall (fun l => Py.single_line l = true) (Sourcelist.get_raw_section_data s) ->
  (exists y, Tags.parse order (Tags.get_raw_section_data x) parsed_section = Ok y
             /\ Tags.get_raw_section_data y = Tags.get_raw_section_data x)
  /\ Sourcelist.get_raw_section_data
       (Sourcelist.parse (Sourcelist.get_raw_section_data s) context)
     = Sourcelist.get_raw_section_data s.
Proof.
  intros Horder Hx Hs. split.
  - destruct (tags_parse_render order Horder (default [] parsed_section)
                (Tags.get_raw_section_data x) parsed_section eq_refl)
      as (y & Hparse & Hrender).
    exists y. split; [exact Hparse|]. apply Hrender, Hx.
  - apply sourcelist_parse_render.
    eapply Forall_impl; [exact Hs|]. apply single_line_no_final_LF.
Qed.

Lemma C1_render_parse_render_witness :
  (exists y,
     Tags.parse TAG_NAMES (Tags.get_raw_section_data Demo.tags_plain) None = Ok y
     /\ Tags.get_raw_section_data y = [""; "# c"; "Name: test"; "%description"])
  /\ Sourcelist.get_raw_section_data
       (Sourcelist.parse
          (Sourcelist.get_raw_section_data Demo.sourcelist_plain) (@None unit))
     = [""; "# c"; "pkg.tar.gz"].
Proof.
  apply (C1_render_parse_render TAG_NAMES Demo.tags_plain None
           unit Demo.sourcelist_plain None).
  - reflexivity.
  - repeat constructor.
  - repeat constructor.
Defined.

(** [Tags.parse] returns, and every tag it returns, the first, the
    second or a later one of its name alike, has as expanded value the
    value of the first expanded line that matches the pattern built from
    the tag's name as written, and no expanded value when no line
    matches. *)
Lemma expanded_value_first_match (order raw_section : list string)
    (parsed_section : option (list string)) :
  order ≡ₚ TAG_NAMES ->
  exists tags,
    Tags.parse order raw_section parsed_section = Ok tags
    /\ forall k tag, Tags.data tags !! k = Some tag ->
         Tag._expanded_value tag
         = head (matching_values (Tag.name tag) (default [] parsed_section)).
Proof.
  intros Horder. unfold Tags.parse. rewrite parse_fold_scan by exact Horder.
  pose proof (scan_expanded order (default [] parsed_section) raw_section ([], [])
                (List.Forall_nil _)) as H.
  destruct (fold_left _ raw_section _) as [data buffer]. cbn [fst] in H.
  exists (Tags.Tags data buffer). split; [reflexivity|].
  intros k tag Hk. cbn [Tags.data] in Hk.
  rewrite List.Forall_forall in H.
  rewrite <- first_expanded_value_head. apply H.
  apply list_elem_of_In. eapply list_elem_of_lookup_2, Hk.
Qed.

(** C2 at failing inputs.  [Tags.parse] looks through the expanded
    section from its first line for every tag and keeps no position.  Of
    two [Requires] lines the second takes the value of the first expanded
    line, not of the second; and when the expansion has dropped the second
    line, the second tag still takes the value of the first and counts as
    valid, where pairing by position leaves it without a value. *)
Theorem C2_pairing_is_not_positional :
  (exists tags,
     Tags.parse TAG_NAMES ["Requires: a"; "Requires: b"]
                          (Some ["Requires: a"; "Requires: b"]) = Ok tags
     /\ (Tag._expanded_value <$> Tags.data tags) = [Some "a"; Some "a"]
     /\ ~ positional_pairing tags ["Requires: a"; "Requires: b"])
  /\ (exists tags,
       Tags.parse TAG_NAMES ["Requires: a"; "Requires: b"] (Some ["Requires: a"]) = Ok tags
       /\ (Tag._expanded_value <$> Tags.data tags) = [Some "a"; Some "a"]
       /\ (Tag.valid <$> Tags.data tags) = [true; true]
       /\ ~ positional_pairing tags ["Requires: a"]).
Proof.
  split.
  - eexists. split; [vm_compute; reflexivity|]. split; [reflexivity|].
    intros H. specialize (H 1 _ eq_refl). vm_compute in H. discriminate.
  - eexists. split; [vm_compute; reflexivity|]. split; [reflexivity|].
    split; [reflexivity|].
    intros H. specialize (H 1 _ eq_refl). vm_compute in H. discriminate.
Qed.

(** C5 at failing inputs.  [Tag.__init__] tests the name with [match],
    which looks for a pattern at the start of the name only: a name that
    merely starts with a recognized key is accepted, and so is a numeric
    suffix where none is permitted. *)
Theorem C5_init_accepts_unrecognized_name :
  recognized "nameless" = false
  /\ Tag.init "nameless" "x" None ": " (Comments.Comments [] [])
     = Ok (Tag.Tag "nameless" "x" None ": " (Comments.Comments [] []))
  /\ recognized "Version7" = false
  /\ Tag.init "Version7" "x" None ": " (Comments.Comments [] [])
     = Ok (Tag.Tag "Version7" "x" None ": " (Comments.Comments [] []))
  /\ recognized "Source7" = true
  /\ recognized "Requires(post)" = true
  /\ Tag.init "Nam" "x" None ": " (Comments.Comments [] []) = Raise ValueError.
Proof. vm_compute. repeat split; reflexivity. Qed.

(** ** [Tags.__delitem__] *)

Lemma dropwhile_falsy (l : list string) :
  exists n l',
    l = replicate n EmptyString ++ l'
    /\ Py.dropwhile Py.falsy l = l'
    /\ (forall x, head l' = Some x -> Py.falsy x = false).
Proof.
  induction l as [|x l (n & l' & Hl & Hd & Hh)].
  - exists 0, []. repeat split. intros x [=].
  - cbn [Py.dropwhile]. destruct (Py.falsy x) eqn:E.
    + apply falsy_true in E as ->. exists (S n), l'. rewrite Hl at 1. repeat split; assumption.
    + exists 0, (x :: l). repeat split. intros y [= <-]. exact E.
Qed.

(** The seam keeps both sides without the empty lines that meet, and puts
    one empty line between them exactly when there was at least one. *)
Lemma seam_spec (a b : list string) :
  exists a' b' n m,
    a = a' ++ replicate n EmptyString
    /\ b = replicate m EmptyString ++ b'
    /\ (forall x, last a' = Some x -> Py.falsy x = false)
    /\ (forall x, head b' = Some x -> Py.falsy x = false)
    /\ Tags.seam a b = a' ++ (if Nat.eqb (n + m) 0 then [] else [EmptyString]) ++ b'.
Proof.
  destruct (dropwhile_falsy (rev a)) as (n & ra & Ha & Hda & Hha).
  destruct (dropwhile_falsy b) as (m & b' & Hb & Hdb & Hhb).
  exists (rev ra), b', n, m.
  assert (Ha' : a = rev ra ++ replicate n EmptyString).
  { rewrite <- (rev_involutive a), Ha, rev_app_distr. f_equal.
    clear. induction n as [|n IH]; [reflexivity|].
    cbn [replicate rev]. rewrite IH. clear.
    induction n as [|n IH]; [reflexivity|]. cbn. rewrite IH. reflexivity. }
  assert (Hla : forall x, last (rev ra) = Some x -> Py.falsy x = false).
  { intros x Hx. apply Hha. rewrite <- Hx. symmetry.
    rewrite <- (reverse_involutive ra) at 2. rewrite head_reverse, rev_alt. reflexivity. }
  split; [exact Ha'|]. split; [exact Hb|]. split; [exact Hla|]. split; [exact Hhb|].
  unfold Tags.seam. rewrite Hda, Hdb. f_equal. f_equal.
  assert (Hlast : match last a with Some l => Py.falsy l | None => false end
                  = negb (Nat.eqb n 0)).
  { rewrite Ha'. destruct n as [|n].
    - cbn [replicate]. rewrite app_nil_r. cbn.
      destruct (last (rev ra)) as [x|]; [apply Hla; reflexivity|reflexivity].
    - replace (replicate (S n) EmptyString) with (replicate n EmptyString ++ [EmptyString]).
      + rewrite app_assoc, last_snoc. reflexivity.
      + clear. induction n as [|n IH]; [reflexivity|]. cbn. cbn in IH. rewrite IH. reflexivity. }
  assert (Hhead : match head b with Some l => Py.falsy l | None => false end
                  = negb (Nat.eqb m 0)).
  { rewrite Hb. destruct m as [|m]; [|reflexivity]. cbn.
    destruct (head b') as [x|]; [apply Hhb; reflexivity|reflexivity]. }
  rewrite Hlast, Hhead. destruct n, m; reflexivity.
Qed.

(** Deleting the tag at a position counted from the front: its preceding
    lines go, through the seam, in front of the preceding lines of the next
    tag, or of the remainder when it was the last tag; its comments and its
    own line go, and every other tag stays as it was. *)
Lemma delete_in_range (k : nat) (self : Tags.t) (tag : Tag.t) :
  Tags.data self !! k = Some tag ->
  Tags.delete (Z.of_nat k) self
  = (Ok tt,
     match Tags.data self !! S k with
     | Some next =>
         Tags.Tags (take k (Tags.data self)
                    ++ Tag.with_preceding_lines
                         (Tags.seam (Tag.preceding_lines tag) (Tag.preceding_lines next))
                         next
                    :: drop (S (S k)) (Tags.data self))
                   (Tags._remainder self)
     | None =>
         Tags.Tags (take k (Tags.data self))
                   (Tags.seam (Tag.preceding_lines tag) (Tags._remainder self))
     end).
Proof.
  destruct self as [data remainder]. cbn [Tags.data Tags._remainder]. intros Hk.
  pose proof (lookup_lt_Some _ _ _ Hk) as Hlt.
  unfold Tags.delete. cbn [Tags.data Tags._remainder].
  assert (Hidx : forall l : list Tag.t, k < length l -> py_index l (Z.of_nat k) = Some k).
  { intros l Hl. unfold py_index.
    replace (0 <=? Z.of_nat k)%Z with true by lia.
    replace (Z.of_nat k <? Z.of_nat (length l))%Z with true by lia.
    simpl. f_equal. lia. }
  rewrite (Hidx data Hlt), Hk.
  assert (Hdel : base.delete k data = take k data ++ drop (S k) data)
    by apply delete_take_drop.
  assert (Hlen : length (base.delete k data) = length data - 1).
  { rewrite length_delete by eauto. reflexivity. }
  assert (Htake : length (take k data) = k) by (apply length_take_le; lia).
  destruct (data !! S k) as [next|] eqn:Hnext.
  - pose proof (lookup_lt_Some _ _ _ Hnext) as Hlt'.
    replace (Z.of_nat k <? Z.of_nat (length (base.delete k data)))%Z with true by lia.
    rewrite Hidx by lia. rewrite Hdel.
    rewrite alter_app_r_alt by lia. rewrite Htake, Nat.sub_diag.
    rewrite (drop_S data next (S k) Hnext). reflexivity.
  - apply lookup_ge_None in Hnext.
    replace (Z.of_nat k <? Z.of_nat (length (base.delete k data)))%Z with false by lia.
    rewrite Hdel, (drop_ge data (S k)) by lia. rewrite app_nil_r. reflexivity.
Qed.

(** C6 at failing inputs.  [del tags[-1]] and [del tags[1]] name the same
    tag of a collection of two, the last one.  With the index 1 its
    preceding lines go in front of the remainder; with the index -1 they go
    in front of the first tag's preceding lines, above the tag they stood
    below.  On a collection of one tag [del tags[-1]] removes the tag,
    raises [IndexError], and the preceding lines are lost. *)
Theorem C6_delete_negative_index :
  Tags.delitem 1
    (Tags.Tags [ Tag.Tag "Name" "test" None ": " (Comments.Comments [] []);
                 Tag.Tag "Url" "u" None ": " (Comments.Comments [] ["%global x 1"; ""]) ]
               [""; "%description"])
  = (Ok tt,
     Tags.Tags [ Tag.Tag "Name" "test" None ": " (Comments.Comments [] []) ]
               ["%global x 1"; ""; "%description"])
  /\ Tags.delitem (-1)
       (Tags.Tags [ Tag.Tag "Name" "test" None ": " (Comments.Comments [] []);
                    Tag.Tag "Url" "u" None ": " (Comments.Comments [] ["%global x 1"; ""]) ]
                  [""; "%description"])
     = (Ok tt,
        Tags.Tags [ Tag.Tag "Name" "test" None ": "
                      (Comments.Comments [] ["%global x 1"; ""]) ]
                  [""; "%description"])
  /\ Tags.delitem (-1)
       (Tags.Tags [ Tag.Tag "Url" "u" None ": " (Comments.Comments [] ["%global x 1"; ""]) ]
                  [""; "%description"])
     = (Raise IndexError, Tags.Tags [] [""; "%description"]).
Proof. vm_compute. repeat split; reflexivity. Qed.

(** ** Equality of comments *)

(** C9 at failing inputs.  Two [Comments] objects that hold equal comments
    in distinct [Comment] objects are structurally equal and compare
    unequal; two that differ in their preceding lines only are not
    structurally equal and compare equal. *)
Theorem C9_comments_eq_not_structural :
  let h : Objects.heap :=
    {[ 0 := Comment.Comment "a" "# "; 1 := Comment.Comment "a" "# " ]} in
  (Objects.structurally_equal h (Objects.CommentsObj [0] []) (Objects.CommentsObj [1] [])
   /\ Objects.Comments_eq (Objects.CommentsObj [0] []) (Objects.CommentsObj [1] []) = false)
  /\ (~ Objects.structurally_equal h (Objects.CommentsObj [0] [""])
                                      (Objects.CommentsObj [0] [])
      /\ Objects.Comments_eq (Objects.CommentsObj [0] [""]) (Objects.CommentsObj [0] [])
         = true).
Proof.
  cbv zeta. split; split.
  - split; [eexists|]; vm_compute; reflexivity.
  - reflexivity.
  - intros [_ H]. vm_compute in H. discriminate.
  - reflexivity.
Qed.

(** C7 at a failing input.  The lines above the insertion point close two
    nested conditional blocks; [Tags.insert] moves the lines up to the
    first marker only, and the new tag is rendered between the two
    markers: one block is still open above its line, so it has become part
    of a conditional block. *)
Theorem C7_insert_inside_outer_block :
  exists self',
    Tags.insert 1
      (Tag.Tag "Epoch" "1" None ": " (Comments.Comments [] []))
      (Tags.Tags
         [ Tag.Tag "Requires" "y" None ": "
             (Comments.Comments [] ["%if 0%{?fedora}"; "%if 0%{?with_y}"]);
           Tag.Tag "Name" "x" None ": " (Comments.Comments [] ["%endif"; "%endif"]) ]
         [])
    = (Ok tt, self')
    /\ Tags.get_raw_section_data self'
       = [ "%if 0%{?fedora}"; "%if 0%{?with_y}"; "Requires: y"; "%endif" ]
         ++ "Epoch: 1" :: [ "%endif"; "Name: x" ]
    /\ conditional_depth
         [ "%if 0%{?fedora}"; "%if 0%{?with_y}"; "Requires: y"; "%endif" ]
       = 1%Z.
Proof. eexists. split; [vm_compute; reflexivity|]. split; reflexivity. Qed.

(** * Further properties of the sources *)

(** ** The parse pipeline, on every path *)

Section DummyLoop.

Variable get_filename_from_location : string -> string.
Variable content : string -> SpecParser.bytes.
Variable op : string -> SpecParser.bytes -> SpecParser.fs_op.
Variable body : list string -> string -> SpecParser.M (list string).
Hypothesis body_eq : forall ds source w,
  body ds source w
  = let filename := get_filename_from_location source in
    if Py.falsy filename then (Ok ds, w)
    else if SpecParser.is_file filename w then (Ok ds, w)
    else (Ok (ds ++ [filename]),
          SpecParser.World (<[filename := content filename]> (SpecParser.files w))
                           (SpecParser.environ w)
                           (SpecParser.ops w ++ [op filename (content filename)])).

(** A loop of [_make_dummy_sources] creates files for names that do not
    exist, once each, and touches nothing else. *)
Lemma dummy_loop_placed (l : list string) (ds : list string) (w : SpecParser.world) :
  exists new w',
    SpecParser.for_each body l ds w = (Ok (ds ++ new), w')
    /\ placed content new w w'.
Proof using body_eq.
  revert ds w. induction l as [|source l IH]; intros ds w.
  - exists [], w. cbn. rewrite app_nil_r. split; [reflexivity|].
    split; [constructor|]. split; [intros f Hf; inversion Hf|].
    split; [intros; reflexivity|reflexivity].
  - cbn [SpecParser.for_each]. unfold SpecParser.bindM at 1. rewrite body_eq. cbv zeta.
    set (filename := get_filename_from_location source).
    destruct (Py.falsy filename); [apply IH|].
    unfold SpecParser.is_file.
    destruct (SpecParser.files w !! filename) as [b|] eqn:Hfile.
    + rewrite bool_decide_eq_true_2 by eauto. apply IH.
    + rewrite bool_decide_eq_false_2 by (intros [? [=]]).
      set (w1 := SpecParser.World _ _ _).
      destruct (IH (ds ++ [filename]) w1) as (new & w' & Hrun & Hnd & Hin & Hout & Henv).
      assert (Hnotin : filename ∉ new).
      { intros Hd. destruct (Hin _ Hd) as [Hnone _]. unfold w1 in Hnone.
        cbn in Hnone. rewrite lookup_insert_eq in Hnone. discriminate. }
      exists (filename :: new), w'. rewrite Hrun, <- app_assoc. split; [reflexivity|].
      split; [constructor; assumption|]. split; [|split].
      * intros f Hf. apply elem_of_cons in Hf as [->|Hf].
        -- split; [assumption|]. rewrite (Hout _ Hnotin). unfold w1. cbn.
           apply lookup_insert_eq.
        -- destruct (Hin _ Hf) as [Hnone Hsome]. split; [|assumption].
           unfold w1 in Hnone. cbn in Hnone.
           destruct (decide (filename = f)) as [->|Hne]; [contradiction|].
           rewrite lookup_insert_ne in Hnone by assumption. assumption.
      * intros f Hf. apply not_elem_of_cons in Hf as [Hne Hf].
        rewrite (Hout _ Hf). unfold w1. cbn. apply lookup_insert_ne. congruence.
      * rewrite Henv. reflexivity.
Qed.

(** When every name is empty or exists already, the loop does nothing. *)
Lemma dummy_loop_idle (l : list string) (ds : list string) (w : SpecParser.world) :
  (forall source, In source l ->
     Py.falsy (get_filename_from_location source) = true
     \/ is_Some (SpecParser.files w !! get_filename_from_location source)) ->
  SpecParser.for_each body l ds w = (Ok ds, w).
Proof using body_eq.
  induction l as [|source l IH]; intros H; [reflexivity|].
  cbn [SpecParser.for_each]. unfold SpecParser.bindM at 1. rewrite body_eq. cbv zeta.
  destruct (H source (or_introl eq_refl)) as [Hf|Hf].
  - rewrite Hf. apply IH. intros s Hs. apply H. right. exact Hs.
  - destruct (Py.falsy _); [apply IH; intros s Hs; apply H; right; exact Hs|].
    unfold SpecParser.is_file. rewrite bool_decide_eq_true_2 by exact Hf.
    apply IH. intros s Hs. apply H. right. exact Hs.
Qed.

End DummyLoop.

Section Pipeline.

Variable Spec : Type.
Variable spec_sources : Spec -> gset string.
Variable rpm_spec : gmap string SpecParser.bytes -> string -> SpecParser.flags -> option Spec.
Variable get_filename_from_location : string -> string.
Variable collect_included_sources : string -> gset string.
Variable collect_sources_referenced_from_tags : string -> gset string.

Lemma fake_source_eq (ds : list string) (source : string) (w : SpecParser.world) :
  SpecParser.fake_source get_filename_from_location ds source w
  = let filename := get_filename_from_location source in
    if Py.falsy filename then (Ok ds, w)
    else if SpecParser.is_file filename w then (Ok ds, w)
    else (Ok (ds ++ [filename]),
          SpecParser.World
            (<[filename := SpecParser.signature filename]> (SpecParser.files w))
            (SpecParser.environ w)
            (SpecParser.ops w
             ++ [SpecParser.WriteBytes filename (SpecParser.signature filename)])).
Proof.
  unfold SpecParser.fake_source. cbv zeta.
  destruct (Py.falsy _); [reflexivity|]. destruct (SpecParser.is_file _ w); reflexivity.
Qed.

Lemma fake_non_empty_source_eq (ds : list string) (source : string) (w : SpecParser.world) :
  SpecParser.fake_non_empty_source get_filename_from_location ds source w
  = let filename := get_filename_from_location source in
    if Py.falsy filename then (Ok ds, w)
    else if SpecParser.is_file filename w then (Ok ds, w)
    else (Ok (ds ++ [filename]),
          SpecParser.World
            (<[filename := (fun _ => SpecParser.DUMMY) filename]> (SpecParser.files w))
            (SpecParser.environ w)
            (SpecParser.ops w
             ++ [SpecParser.WriteText filename ((fun _ => SpecParser.DUMMY) filename)])).
Proof.
  unfold SpecParser.fake_non_empty_source. cbv zeta.
  destruct (Py.falsy _); [reflexivity|]. destruct (SpecParser.is_file _ w); reflexivity.
Qed.

(** [_make_dummy_sources] up to its [yield]: what it creates are
    placeholders for names that did not exist. *)
Lemma create_placeholders (sources non_empty_sources : gset string) (w : SpecParser.world) :
  exists new w1,
    SpecParser.create_dummy_sources get_filename_from_location sources non_empty_sources w
    = (Ok new, w1)
    /\ placeholders new w w1.
Proof.
  unfold SpecParser.create_dummy_sources, SpecParser.bindM.
  destruct (dummy_loop_placed get_filename_from_location SpecParser.signature
              SpecParser.WriteBytes _ fake_source_eq (elements sources) [] w)
    as (new1 & wa & Hrun1 & Hnd1 & Hin1 & Hout1 & Henv1).
  rewrite Hrun1. cbn [app].
  destruct (dummy_loop_placed get_filename_from_location (fun _ => SpecParser.DUMMY)
              SpecParser.WriteText _ fake_non_empty_source_eq
              (elements non_empty_sources) new1 wa)
    as (new2 & w1 & Hrun2 & Hnd2 & Hin2 & Hout2 & Henv2).
  rewrite Hrun2. exists (new1 ++ new2), w1. split; [reflexivity|].
  assert (Hdisj : forall f, f ∈ new1 -> f ∉ new2).
  { intros f H1 H2. destruct (Hin1 _ H1) as [_ Hs]. destruct (Hin2 _ H2) as [Hn _].
    congruence. }
  split; [|split; [|split]].
  - apply NoDup_app. split; [assumption|]. split; assumption.
  - intros f Hf. apply elem_of_app in Hf as [Hf|Hf].
    + destruct (Hin1 _ Hf) as [Hn Hs]. split; [assumption|]. left.
      rewrite (Hout2 _ (Hdisj _ Hf)). assumption.
    + destruct (Hin2 _ Hf) as [Hn Hs]. split; [|right; assumption].
      destruct (decide (f ∈ new1)) as [Hd|Hd]; [exfalso; exact (Hdisj _ Hd Hf)|].
      rewrite <- (Hout1 _ Hd). assumption.
  - intros f Hf. apply not_elem_of_app in Hf as [Hf1 Hf2].
    rewrite (Hout2 _ Hf2). apply Hout1, Hf1.
  - rewrite Henv2. exact Henv1.
Qed.

Lemma placeholders_only_added (new : list string) (w w1 : SpecParser.world) :
  placeholders new w w1 -> only_placeholders_added w w1.
Proof.
  intros (_ & Hin & Hout & _) f. destruct (decide (f ∈ new)) as [Hd|Hd].
  - right. apply Hin, Hd.
  - left. apply Hout, Hd.
Qed.

(** A [with self._make_dummy_sources(...)] block around a body that leaves
    the world alone: when the body returns, the files and the environment
    are what they were before the block; when it raises, the placeholders
    stay. *)
Lemma make_dummy_sources_outcome {A : Type} (sources non_empty_sources : gset string)
    (body : list string -> SpecParser.M A) (w : SpecParser.world) :
  (forall ds w1, snd (body ds w1) = w1) ->
  exists new w1,
    placeholders new w w1
    /\ ((exists a w',
           SpecParser._make_dummy_sources get_filename_from_location
             sources non_empty_sources body w = (Ok a, w')
           /\ body new w1 = (Ok a, w1)
           /\ SpecParser.files w' = SpecParser.files w
           /\ SpecParser.environ w' = SpecParser.environ w)
        \/ (exists e,
              SpecParser._make_dummy_sources get_filename_from_location
                sources non_empty_sources body w = (Raise e, w1)
              /\ body new w1 = (Raise e, w1))).
Proof.
  intros Hbody.
  destruct (create_placeholders sources non_empty_sources w) as (new & w1 & Hcreate & Hph).
  exists new, w1. split; [exact Hph|].
  unfold SpecParser._make_dummy_sources, SpecParser.bindM. rewrite Hcreate.
  pose proof (Hbody new w1) as Hw. destruct (body new w1) as [[a|e] w1'] eqn:Eb;
    cbn [snd] in Hw; subst w1'.
  - left. destruct (remove_dummy_sources_files new w1) as (w' & Hrm & Hgone & Hkept & Henv & _).
    exists a, w'. rewrite Hrm. cbn [SpecParser.ret].
    destruct Hph as (_ & Hin & Hout & Henv1).
    split; [reflexivity|]. split; [reflexivity|]. split.
    + apply map_eq. intros f. destruct (decide (f ∈ new)) as [Hd|Hd].
      * rewrite (Hgone _ Hd). symmetry. apply (Hin _ Hd).
      * rewrite (Hkept _ Hd). apply Hout, Hd.
    + rewrite Henv. exact Henv1.
  - right. exists e. split; reflexivity.
Qed.

End Pipeline.

Section PipelinePaths.

Variable Spec : Type.
Variable spec_sources : Spec -> gset string.
Variable rpm_spec : gmap string SpecParser.bytes -> string -> SpecParser.flags -> option Spec.
Variable get_filename_from_location : string -> string.
Variable collect_included_sources : string -> gset string.
Variable collect_sources_referenced_from_tags : string -> gset string.

Lemma same_files_placeholders_left (w w1 w2 : SpecParser.world) (new : list string) :
  same_files w w1 -> placeholders new w1 w2 -> placeholders_left w w2.
Proof.
  intros [Hf He] Hph. split.
  - intros f. destruct (placeholders_only_added _ _ _ Hph f) as [H|H].
    + left. rewrite H, Hf. reflexivity.
    + right. rewrite <- Hf. exact H.
  - destruct Hph as (_ & _ & _ & Henv). rewrite Henv. exact He.
Qed.

Lemma same_files_refl (w : SpecParser.world) : same_files w w.
Proof. split; reflexivity. Qed.

Lemma same_files_left (w w' : SpecParser.world) : same_files w w' -> placeholders_left w w'.
Proof. intros [Hf He]. split; [|exact He]. intros f. left. rewrite Hf. reflexivity. Qed.

(** The last block of [_do_parse]: the full parse between placeholders. *)
Lemma full_parse_outcome (content : string) (l : SpecParser.locals Spec)
    (w0 w : SpecParser.world) :
  same_files w0 w ->
  let run :=
    SpecParser._make_dummy_sources get_filename_from_location
      (SpecParser.sources Spec l) (SpecParser.non_empty_sources Spec l)
      (fun _ => SpecParser.bindM (SpecParser.get_rpm_spec Spec rpm_spec content SpecParser.full)
                  (fun spec => SpecParser.ret (spec, SpecParser.tainted Spec l))) w in
  (exists s w', run = (Ok (s, SpecParser.tainted Spec l), w') /\ same_files w0 w')
  \/ (exists w', run = (Raise RPMException, w') /\ placeholders_left w0 w').
Proof.
  intros Hsame run.
  destruct (make_dummy_sources_outcome get_filename_from_location
              (SpecParser.sources Spec l) (SpecParser.non_empty_sources Spec l)
              (fun _ => SpecParser.bindM
                          (SpecParser.get_rpm_spec Spec rpm_spec content SpecParser.full)
                          (fun spec => SpecParser.ret (spec, SpecParser.tainted Spec l))) w)
    as (new & w1 & Hph & [(a & w' & Hrun & Hb & Hf & He)|(e & Hrun & Hb)]).
  - intros ds w1. unfold SpecParser.bindM. rewrite get_rpm_spec_world.
    destruct (rpm_spec _ _ _); reflexivity.
  - left. unfold SpecParser.bindM in Hb. rewrite get_rpm_spec_world in Hb.
    destruct (rpm_spec _ _ _) as [s|]; [|discriminate]. injection Hb as <-.
    exists s, w'. split; [exact Hrun|]. destruct Hsame as [Hf0 He0].
    split; [rewrite Hf; exact Hf0|rewrite He; exact He0].
  - right. unfold SpecParser.bindM in Hb. rewrite get_rpm_spec_world in Hb.
    destruct (rpm_spec _ _ _) as [s|]; [discriminate|]. injection Hb as <-.
    exists w1. split; [exact Hrun|]. eapply same_files_placeholders_left; eassumption.
Qed.

(** Every path of [_do_parse]. *)
Lemma do_parse_paths (force_parse : bool) (content : string) (w : SpecParser.world) :
  let run :=
    SpecParser._do_parse Spec spec_sources rpm_spec get_filename_from_location
      collect_included_sources collect_sources_referenced_from_tags
      force_parse content w in
  let first := rpm_spec (SpecParser.files w) content SpecParser.non_build in
  (exists w', is_Some first
              /\ ((exists s, run = (Ok (s, false), w') /\ same_files w w')
                  \/ (run = (Raise RPMException, w') /\ placeholders_left w w')))
  \/ (first = None
      /\ (force_parse = false
          \/ (collect_included_sources content = ∅
              /\ collect_sources_referenced_from_tags content = ∅))
      /\ run = (Raise RPMException, w))
  \/ (exists w', first = None /\ force_parse = true
                 /\ ((exists s, run = (Ok (s, true), w') /\ same_files w w')
                     \/ (run = (Raise RPMException, w') /\ placeholders_left w w')
                     \/ (run = (Raise UnboundLocalError, w') /\ same_files w w'))).
Proof.
  intros run first. subst run first. unfold SpecParser._do_parse.
  rewrite get_rpm_spec_world.
  destruct (rpm_spec (SpecParser.files w) content SpecParser.non_build)
    as [spec0|] eqn:Hfirst.
  - (* the first parse succeeds *)
    left. cbn [SpecParser.spec].
    destruct (full_parse_outcome content
                (SpecParser.Locals Spec (Some spec0) (spec_sources spec0) ∅ false) w w
                (same_files_refl w))
      as [(s & w' & Hrun & Hs)|(w' & Hrun & Hl)]; cbn [SpecParser.tainted] in Hrun;
      exists w'; (split; [eauto|]).
    + left. exists s. split; assumption.
    + right. split; assumption.
  - unfold SpecParser.forced.
    destruct force_parse; cbn [negb].
    2:{ right. left. split; [reflexivity|]. split; [left; reflexivity|reflexivity]. }
    destruct (bool_decide (collect_included_sources content = ∅)
              && bool_decide (collect_sources_referenced_from_tags content = ∅)) eqn:Hscan.
    { right. left. split; [reflexivity|]. split; [|reflexivity]. right.
      apply andb_prop in Hscan as [H1 H2].
      split; [exact (bool_decide_eq_true_1 _ H1)|exact (bool_decide_eq_true_1 _ H2)]. }
    right. right.
    set (bodyB := fun dummy_sources : list string =>
                    match dummy_sources with
                    | [] => SpecParser.ret _
                    | _ :: _ => _
                    end).
    destruct (make_dummy_sources_outcome get_filename_from_location
                (collect_included_sources content)
                (collect_sources_referenced_from_tags content) bodyB w)
      as (new & w1 & Hph & [(l & w2 & Hrun & Hb & Hf & He)|(e & Hrun & Hb)]).
    + intros ds w1. unfold bodyB. destruct ds; [reflexivity|].
      unfold SpecParser.bindM. rewrite get_rpm_spec_world.
      destruct (rpm_spec (SpecParser.files w1) _ _); reflexivity.
    + rewrite Hrun.
      assert (Hsame : same_files w w2) by (split; assumption).
      destruct (SpecParser.spec Spec l) as [specB|] eqn:Hspec.
      * assert (Ht : SpecParser.tainted Spec l = true).
        { unfold bodyB in Hb. destruct new; [injection Hb as <-; discriminate|].
          unfold SpecParser.bindM in Hb. rewrite get_rpm_spec_world in Hb.
          destruct (rpm_spec (SpecParser.files w1) _ _); [|discriminate].
          injection Hb as <-. reflexivity. }
        rewrite Ht.
        destruct (full_parse_outcome content l w w2 Hsame)
          as [(s & w' & Hrun' & Hs)|(w' & Hrun' & Hl)]; rewrite Ht in Hrun';
          exists w'; (split; [reflexivity|]); (split; [reflexivity|]).
        -- left. exists s. split; assumption.
        -- right. left. split; assumption.
      * exists w2. split; [reflexivity|]. split; [reflexivity|].
        right. right. split; [reflexivity|exact Hsame].
    + rewrite Hrun. exists w1. split; [reflexivity|]. split; [reflexivity|].
      right. left.
      assert (He : e = RPMException).
      { unfold bodyB in Hb. destruct new; [discriminate|].
        unfold SpecParser.bindM in Hb. rewrite get_rpm_spec_world in Hb.
        destruct (rpm_spec (SpecParser.files w1) _ _); [discriminate|].
        injection Hb as <-. reflexivity. }
      subst e. split; [reflexivity|].
      eapply same_files_placeholders_left; [apply same_files_refl|exact Hph].
Qed.

End PipelinePaths.

Section PipelineProperties.

Variable Spec : Type.
Variable spec_sources : Spec -> gset string.
Variable rpm_spec : gmap string SpecParser.bytes -> string -> SpecParser.flags -> option Spec.
Variable get_filename_from_location : string -> string.
Variable collect_included_sources : string -> gset string.
Variable collect_sources_referenced_from_tags : string -> gset string.

(** X1.  Whatever [_do_parse] does, returning or raising, it changes no
    file that was in the source directory before the call and no environment
    variable, and any file that is there afterwards and was not there before
    is a placeholder: its content is the signature of its name or the dummy
    text. *)
Theorem X1_do_parse_keeps_existing_files (force_parse : bool) (content : string)
    (w w' : SpecParser.world) (outcome : result (Spec * bool)) :
  SpecParser._do_parse Spec spec_sources rpm_spec get_filename_from_location
    collect_included_sources collect_sources_referenced_from_tags
    force_parse content w = (outcome, w') ->
  (forall f b, SpecParser.files w !! f = Some b -> SpecParser.files w' !! f = Some b)
  /\ (forall f b, SpecParser.files w' !! f = Some b ->
        SpecParser.files w !! f = Some b
        \/ (SpecParser.files w !! f = None
            /\ (b = SpecParser.signature f \/ b = SpecParser.DUMMY)))
  /\ SpecParser.environ w' = SpecParser.environ w.
Proof.
  intros Hrun.
  assert (Hleft : placeholders_left w w').
  { destruct (do_parse_paths Spec spec_sources rpm_spec get_filename_from_location
                collect_included_sources collect_sources_referenced_from_tags
                force_parse content w)
      as [(w1 & _ & [(s & H & Hs)|(H & Hl)])
         |[(_ & _ & H)
          |(w1 & _ & _ & [(s & H & Hs)|[(H & Hl)|(H & Hs)]])]];
      rewrite H in Hrun; injection Hrun as <- <-;
      try assumption; try (apply same_files_left; assumption).
    apply same_files_left, same_files_refl. }
  destruct Hleft as [Hadd Henv]. split; [|split; [|exact Henv]].
  - intros f b Hf. destruct (Hadd f) as [H|[H _]]; congruence.
  - intros f b Hf. destruct (Hadd f) as [H|[Hn [H|H]]].
    + left. congruence.
    + right. split; [exact Hn|]. left. congruence.
    + right. split; [exact Hn|]. right. congruence.
Qed.

(** X2.  When [_do_parse] returns, on the first-parse path or on the forced
    path, the files of the source directory and the environment are exactly
    what they were before the call: every placeholder has been removed. *)
Theorem X2_do_parse_success_restores_files (force_parse : bool) (content : string)
    (w w' : SpecParser.world) (spec : Spec) (tainted : bool) :
  SpecParser._do_parse Spec spec_sources rpm_spec get_filename_from_location
    collect_included_sources collect_sources_referenced_from_tags
    force_parse content w = (Ok (spec, tainted), w') ->
  SpecParser.files w' = SpecParser.files w
  /\ SpecParser.environ w' = SpecParser.environ w.
Proof.
  intros Hrun.
  destruct (do_parse_paths Spec spec_sources rpm_spec get_filename_from_location
              collect_included_sources collect_sources_referenced_from_tags
              force_parse content w)
    as [(w1 & _ & [(s & H & Hs)|(H & Hl)])
       |[(_ & _ & H)
        |(w1 & _ & _ & [(s & H & Hs)|[(H & Hl)|(H & Hs)]])]];
    rewrite H in Hrun; try discriminate Hrun; injection Hrun as <- <- <-; exact Hs.
Qed.

(** X3.  The flag that [_do_parse] returns tells whether the first,
    non-build parse failed: a result is tainted exactly when the oracle
    rejected the document before any placeholder was written. *)
Theorem X3_tainted_iff_first_parse_failed (force_parse : bool) (content : string)
    (w w' : SpecParser.world) (spec : Spec) (tainted : bool) :
  SpecParser._do_parse Spec spec_sources rpm_spec get_filename_from_location
    collect_included_sources collect_sources_referenced_from_tags
    force_parse content w = (Ok (spec, tainted), w') ->
  (tainted = true <->
   rpm_spec (SpecParser.files w) content SpecParser.non_build = None).
Proof.
  intros Hrun.
  destruct (do_parse_paths Spec spec_sources rpm_spec get_filename_from_location
              collect_included_sources collect_sources_referenced_from_tags
              force_parse content w)
    as [(w1 & [s0 Hfirst] & [(s & H & Hs)|(H & Hl)])
       |[(_ & _ & H)
        |(w1 & Hfirst & _ & [(s & H & Hs)|[(H & Hl)|(H & Hs)]])]];
    rewrite H in Hrun; try discriminate Hrun; injection Hrun as <- <- <-.
  - rewrite Hfirst. split; discriminate.
  - split; [intros _; exact Hfirst|reflexivity].
Qed.

(** X4.  When the first parse fails and forcing is off, or both static
    scans find nothing, [_do_parse] raises [RPMException] and has written
    nothing: the world is the one it was given. *)
Theorem X4_no_forcing_reraises (force_parse : bool) (content : string)
    (w : SpecParser.world) :
  rpm_spec (SpecParser.files w) content SpecParser.non_build = None ->
  force_parse = false
  \/ (collect_included_sources content = ∅
      /\ collect_sources_referenced_from_tags content = ∅) ->
  SpecParser._do_parse Spec spec_sources rpm_spec get_filename_from_location
    collect_included_sources collect_sources_referenced_from_tags
    force_parse content w = (Raise RPMException, w).
Proof.
  intros Hfirst Hcase. unfold SpecParser._do_parse.
  rewrite get_rpm_spec_world, Hfirst. unfold SpecParser.forced.
  destruct Hcase as [-> | [-> ->]]; [reflexivity|].
  destruct force_parse; reflexivity.
Qed.

(** X5.  When the first parse fails, forcing is on, the scans find
    references, and every referenced file has an empty name or exists
    already, no placeholder is written, no second parse is attempted, and
    [del spec] raises [UnboundLocalError] in place of the parse error. *)
Theorem X5_unbound_spec_when_nothing_missing (content : string) (w : SpecParser.world) :
  rpm_spec (SpecParser.files w) content SpecParser.non_build = None ->
  ~ (collect_included_sources content = ∅
     /\ collect_sources_referenced_from_tags content = ∅) ->
  (forall source,
     source ∈ collect_included_sources content
                ∪ collect_sources_referenced_from_tags content ->
     Py.falsy (get_filename_from_location source) = true
     \/ is_Some (SpecParser.files w !! get_filename_from_location source)) ->
  SpecParser._do_parse Spec spec_sources rpm_spec get_filename_from_location
    collect_included_sources collect_sources_referenced_from_tags
    true content w = (Raise UnboundLocalError, w).
Proof.
  intros Hfirst Hscan Hexist. unfold SpecParser._do_parse.
  rewrite get_rpm_spec_world, Hfirst. unfold SpecParser.forced. cbn [negb].
  destruct (bool_decide (collect_included_sources content = ∅)
            && bool_decide (collect_sources_referenced_from_tags content = ∅)) eqn:E.
  { exfalso. apply Hscan. apply andb_prop in E as [H1 H2].
    split; [exact (bool_decide_eq_true_1 _ H1)|exact (bool_decide_eq_true_1 _ H2)]. }
  unfold SpecParser._make_dummy_sources, SpecParser.create_dummy_sources.
  unfold SpecParser.bindM at 1. unfold SpecParser.bindM at 1.
  rewrite (dummy_loop_idle get_filename_from_location SpecParser.signature
             SpecParser.WriteBytes _ (fake_source_eq get_filename_from_location)).
  2:{ intros source Hs. apply Hexist, elem_of_union_l, elem_of_elements, list_elem_of_In, Hs. }
  rewrite (dummy_loop_idle get_filename_from_location (fun _ => SpecParser.DUMMY)
             SpecParser.WriteText _ (fake_non_empty_source_eq get_filename_from_location)).
  2:{ intros source Hs. apply Hexist, elem_of_union_r, elem_of_elements, list_elem_of_In, Hs. }
  reflexivity.
Qed.

End PipelineProperties.

Lemma X1_do_parse_keeps_existing_files_witness :
  SpecParser.environ
    (snd (SpecParser._do_parse Demo.Spec Demo.spec_sources Demo.oracle_include
            Demo.basename Demo.includes_macros Demo.no_sources
            true "%include %{_sourcedir}/macros.inc" Demo.empty_world))
  = SpecParser.environ Demo.empty_world.
Proof.
  eapply (X1_do_parse_keeps_existing_files Demo.Spec Demo.spec_sources Demo.oracle_include
            Demo.basename Demo.includes_macros Demo.no_sources
            true "%include %{_sourcedir}/macros.inc" Demo.empty_world).
  vm_compute. reflexivity.
Defined.

Lemma X2_do_parse_success_restores_files_witness :
  SpecParser.files
    (snd (SpecParser._do_parse Demo.Spec Demo.spec_sources Demo.oracle_ok
            Demo.basename Demo.no_sources Demo.no_sources
            false "Source0: https://example.com/pkg-1.0.tar.gz" Demo.empty_world))
  = SpecParser.files Demo.empty_world.
Proof.
  eapply (X2_do_parse_success_restores_files Demo.Spec Demo.spec_sources Demo.oracle_ok
            Demo.basename Demo.no_sources Demo.no_sources
            false "Source0: https://example.com/pkg-1.0.tar.gz" Demo.empty_world).
  vm_compute. reflexivity.
Defined.

Lemma X3_tainted_iff_first_parse_failed_witness :
  false = true <->
  Demo.oracle_ok (SpecParser.files Demo.empty_world)
    "Source0: https://example.com/pkg-1.0.tar.gz" SpecParser.non_build = None.
Proof.
  eapply (X3_tainted_iff_first_parse_failed Demo.Spec Demo.spec_sources Demo.oracle_ok
            Demo.basename Demo.no_sources Demo.no_sources
            false "Source0: https://example.com/pkg-1.0.tar.gz" Demo.empty_world).
  vm_compute. reflexivity.
Defined.

Lemma X4_no_forcing_reraises_witness :
  SpecParser._do_parse Demo.Spec Demo.spec_sources Demo.oracle_include
    Demo.basename Demo.includes_macros Demo.no_sources
    false "%include %{_sourcedir}/macros.inc" Demo.empty_world
  = (Raise RPMException, Demo.empty_world).
Proof.
  apply (X4_no_forcing_reraises Demo.Spec Demo.spec_sources Demo.oracle_include
           Demo.basename Demo.includes_macros Demo.no_sources).
  - reflexivity.
  - left. reflexivity.
Defined.

Lemma X5_unbound_spec_when_nothing_missing_witness :
  SpecParser._do_parse Demo.Spec Demo.spec_sources Demo.oracle_include
    Demo.basename Demo.includes_macros Demo.no_sources
    true "%include %{_sourcedir}/macros.inc"
    (SpecParser.World {[ "macros.inc" := replicate 13 Byte.x00 ]} ∅ [])
  = (Raise UnboundLocalError,
     SpecParser.World {[ "macros.inc" := replicate 13 Byte.x00 ]} ∅ []).
Proof.
  apply (X5_unbound_spec_when_nothing_missing Demo.Spec Demo.spec_sources
           Demo.oracle_include Demo.basename Demo.includes_macros Demo.no_sources).
  - reflexivity.
  - intros [H _]. unfold Demo.includes_macros in H.
    assert (E : "macros.inc" ∈ (∅ : gset string))
      by (rewrite <- H; apply elem_of_singleton; reflexivity).
    exact (not_elem_of_empty _ E).
  - intros source Hs. right. unfold Demo.includes_macros, Demo.no_sources in Hs.
    apply elem_of_union in Hs as [Hs|Hs]; [|destruct (not_elem_of_empty _ Hs)].
    apply elem_of_singleton in Hs. rewrite Hs. vm_compute. eauto.
Defined.

(** X6.  Every binary placeholder is exactly [MAGIC_LENGTH] bytes long,
    whatever the file name: a signature of the table padded with zero bytes,
    or zero bytes only. *)
Theorem X6_signature_length (filename : string) :
  length (SpecParser.signature filename) = SpecParser.MAGIC_LENGTH.
Proof.
  unfold SpecParser.signature.
  destruct (find _ SpecParser.SIGNATURES) as [sig|] eqn:E; [|reflexivity].
  apply find_some in E as [Hin _].
  assert (H : forallb (fun sig => Nat.eqb (length (SpecParser.ljust SpecParser.MAGIC_LENGTH
                                                     Byte.x00 (snd sig)))
                                          SpecParser.MAGIC_LENGTH)
                      SpecParser.SIGNATURES = true) by reflexivity.
  rewrite forallb_forall in H. apply Nat.eqb_eq, H, Hin.
Qed.

(** ** Deleting and inserting tags, seen in the rendered lines *)

Lemma render_tags_app (l1 l2 : list Tag.t) :
  render_tags (l1 ++ l2) = render_tags l1 ++ render_tags l2.
Proof. apply flat_map_app. Qed.

Lemma render_tag_with_lines (lines : list string) (tag : Tag.t) :
  render_tag (Tag.with_preceding_lines lines tag)
  = lines ++ map Comment.str (Comments.data (Tag.comments tag)) ++ [Tag.line tag].
Proof. unfold render_tag, Comments.get_raw_data. simpl. rewrite <- app_assoc. reflexivity. Qed.

Lemma render_tag_lines (tag : Tag.t) :
  render_tag tag
  = Tag.preceding_lines tag
    ++ map Comment.str (Comments.data (Tag.comments tag)) ++ [Tag.line tag].
Proof. unfold render_tag, Comments.get_raw_data, Tag.preceding_lines. rewrite <- app_assoc. reflexivity. Qed.

Lemma render_at (self : Tags.t) (p : nat) :
  Tags.get_raw_section_data self
  = render_tags (take p (Tags.data self))
    ++ lines_above self p
    ++ match Tags.data self !! p with
       | Some next =>
           map Comment.str (Comments.data (Tag.comments next)) ++ [Tag.line next]
           ++ render_tags (drop (S p) (Tags.data self)) ++ Tags._remainder self
       | None => []
       end.
Proof.
  unfold lines_above. change (Tags.get_raw_section_data self)
    with (render_tags (Tags.data self) ++ Tags._remainder self).
  destruct (Tags.data self !! p) as [next|] eqn:Hp.
  - rewrite <- (take_drop_middle _ _ _ Hp) at 1.
    rewrite render_tags_app. cbn [render_tags flat_map]. fold (render_tags (drop (S p) (Tags.data self))).
    rewrite render_tag_lines, <- !app_assoc. reflexivity.
  - apply lookup_ge_None in Hp. rewrite take_ge by lia. rewrite app_nil_r. reflexivity.
Qed.

(** X7.  Deleting the tag at a position counted from the front removes
    from the rendered lines the tag's comments and its own line, and joins
    its preceding lines with the lines directly below through the seam;
    every line before and every line after is kept, in order. *)
Theorem X7_delete_rendering (k : nat) (self : Tags.t) (tag : Tag.t) :
  Tags.data self !! k = Some tag ->
  exists self' before after,
    Tags.delitem (Z.of_nat k) self = (Ok tt, self')
    /\ Tags.get_raw_section_data self
       = before
         ++ (Tag.preceding_lines tag
             ++ map Comment.str (Comments.data (Tag.comments tag)) ++ [Tag.line tag])
         ++ lines_above self (S k) ++ after
    /\ Tags.get_raw_section_data self'
       = before ++ Tags.seam (Tag.preceding_lines tag) (lines_above self (S k)) ++ after.
Proof.
  intros Hk. unfold Tags.delitem. rewrite (delete_in_range k self tag Hk).
  pose proof (render_at self k) as Hr. unfold lines_above in Hr at 1. rewrite Hk in Hr.
  unfold lines_above.
  destruct (Tags.data self !! S k) as [next|] eqn:Hnext.
  - eexists. exists (render_tags (take k (Tags.data self))).
    exists (map Comment.str (Comments.data (Tag.comments next)) ++ [Tag.line next]
            ++ render_tags (drop (S (S k)) (Tags.data self)) ++ Tags._remainder self).
    split; [reflexivity|]. split.
    + rewrite Hr. f_equal. rewrite <- !app_assoc. do 3 f_equal.
      rewrite (drop_S _ _ _ Hnext). cbn [render_tags flat_map].
      fold (render_tags (drop (S (S k)) (Tags.data self))).
      rewrite render_tag_lines, <- !app_assoc. reflexivity.
    + change (Tags.get_raw_section_data ?t)
        with (render_tags (Tags.data t) ++ Tags._remainder t).
      cbn [Tags.data Tags._remainder]. rewrite render_tags_app.
      cbn [render_tags flat_map]. fold (render_tags (drop (S (S k)) (Tags.data self))).
      rewrite render_tag_with_lines, <- !app_assoc. reflexivity.
  - eexists. exists (render_tags (take k (Tags.data self))), [].
    split; [reflexivity|]. split.
    + rewrite Hr. f_equal. rewrite <- !app_assoc. do 3 f_equal.
      apply lookup_ge_None in Hnext. rewrite drop_ge by lia. rewrite app_nil_r. reflexivity.
    + change (Tags.get_raw_section_data ?t)
        with (render_tags (Tags.data t) ++ Tags._remainder t).
      cbn [Tags.data Tags._remainder]. rewrite app_nil_r. reflexivity.
Qed.

Lemma X7_delete_rendering_witness :
  exists self' before after,
    Tags.delitem 0
      (Tags.Tags
         [ Tag.Tag "Source0" "a.tar.gz" None ": "
             (Comments.Comments [Comment.Comment "first" "# "] ["%global x 1"; ""]);
           Tag.Tag "Source1" "b.tar.gz" None ": " (Comments.Comments [] [""]) ]
         [])
    = (Ok tt, self')
    /\ [ "%global x 1"; ""; "# first"; "Source0: a.tar.gz"; ""; "Source1: b.tar.gz" ]
       = before ++ ([ "%global x 1"; "" ] ++ [ "# first" ] ++ [ "Source0: a.tar.gz" ])
         ++ [ "" ] ++ after
    /\ Tags.get_raw_section_data self'
       = before ++ Tags.seam [ "%global x 1"; "" ] [ "" ] ++ after.
Proof.
  apply (X7_delete_rendering 0
           (Tags.Tags
              [ Tag.Tag "Source0" "a.tar.gz" None ": "
                  (Comments.Comments [Comment.Comment "first" "# "] ["%global x 1"; ""]);
                Tag.Tag "Source1" "b.tar.gz" None ": " (Comments.Comments [] [""]) ]
              [])
           (Tag.Tag "Source0" "a.tar.gz" None ": "
              (Comments.Comments [Comment.Comment "first" "# "] ["%global x 1"; ""]))).
  reflexivity.
Defined.

(** X8.  The seam of a deletion loses no line that is not empty: it keeps
    the upper lines up to their last non-empty one and the lower lines from
    their first non-empty one, and puts one empty line between them exactly
    when an empty line stood at the end of the upper or at the start of the
    lower lines. *)
Theorem X8_seam_collapses_empty_lines (upper lower : list string) :
  exists upper' lower' n m,
    upper = upper' ++ replicate n EmptyString
    /\ lower = replicate m EmptyString ++ lower'
    /\ (forall x, last upper' = Some x -> Py.falsy x = false)
    /\ (forall x, head lower' = Some x -> Py.falsy x = false)
    /\ Tags.seam upper lower
       = upper' ++ (if Nat.eqb (n + m) 0 then [] else [EmptyString]) ++ lower'.
Proof. apply seam_spec. Qed.

(** X9.  An index outside [-len, len) makes [Tags.__delitem__] raise
    [IndexError] and leaves the collection as it was. *)
Theorem X9_delete_out_of_range (i : Z) (self : Tags.t) :
  (i < - Z.of_nat (length (Tags.data self)) \/ Z.of_nat (length (Tags.data self)) <= i)%Z ->
  Tags.delitem i self = (Raise IndexError, self).
Proof.
  intros Hi. unfold Tags.delitem, Tags.delete, py_index.
  destruct Hi as [Hi|Hi].
  - replace (0 <=? i)%Z with false by lia. cbn [andb].
    replace (- Z.of_nat (length (Tags.data self)) <=? i)%Z with false by lia. reflexivity.
  - replace (i <? Z.of_nat (length (Tags.data self)))%Z with false by lia.
    rewrite andb_false_r.
    replace (i <? 0)%Z with false by lia. rewrite andb_false_r. reflexivity.
Qed.

Lemma X9_delete_out_of_range_witness :
  Tags.delitem 0 (Tags.Tags [] ["%description"]) = (Raise IndexError, Tags.Tags [] ["%description"]).
Proof. apply X9_delete_out_of_range. right. simpl. lia. Defined.

Lemma with_preceding_lines_id (tag : Tag.t) :
  Tag.with_preceding_lines (Tag.preceding_lines tag) tag = tag.
Proof. destruct tag as [n v e s [d pl]]. reflexivity. Qed.

(** X10.  [Tags.insert] at an index from [-len] on returns, and the
    rendered lines afterwards are the rendered lines before with the lines of
    the new tag (its preceding lines, its comments, its own line) put in at
    one place: no existing line is changed, dropped or moved past another. *)
Theorem X10_insert_rendering (i : Z) (item : Tag.t) (self : Tags.t) :
  (- Z.of_nat (length (Tags.data self)) <= i)%Z ->
  exists self' before after,
    Tags.insert i item self = (Ok tt, self')
    /\ Tags.get_raw_section_data self = before ++ after
    /\ Tags.get_raw_section_data self' = before ++ render_tag item ++ after.
Proof.
  intros Hi. pose proof (insert_result i item self Hi) as Hins. cbv zeta in Hins.
  set (p := insert_position (length (Tags.data self)) i) in *.
  set (lines := lines_above self p) in *.
  assert (Hre : exists k, Tags.reattach item lines
                          = (Tag.with_preceding_lines
                               (take k lines ++ Tag.preceding_lines item) item,
                             drop k lines)).
  { unfold Tags.reattach. destruct (Tags.endif_index lines) as [index|].
    - exists (S index). reflexivity.
    - exists 0. simpl. rewrite with_preceding_lines_id. reflexivity. }
  destruct Hre as [k Hre]. rewrite Hre in Hins. cbn [fst snd] in Hins.
  pose proof (render_at self p) as Hr. fold lines in Hr.
  destruct (Tags.data self !! p) as [next|] eqn:Hnext.
  - eexists. exists (render_tags (take p (Tags.data self)) ++ take k lines).
    exists (drop k lines
            ++ map Comment.str (Comments.data (Tag.comments next)) ++ [Tag.line next]
            ++ render_tags (drop (S p) (Tags.data self)) ++ Tags._remainder self).
    split; [exact Hins|]. split.
    + rewrite Hr. rewrite <- (take_drop k lines) at 1. rewrite <- !app_assoc. reflexivity.
    + change (Tags.get_raw_section_data ?t)
        with (render_tags (Tags.data t) ++ Tags._remainder t).
      cbn [Tags.data Tags._remainder]. rewrite render_tags_app.
      cbn [render_tags flat_map]. fold (render_tags (drop (S p) (Tags.data self))).
      rewrite !render_tag_with_lines, render_tag_lines, <- !app_assoc. reflexivity.
  - eexists. exists (render_tags (take p (Tags.data self)) ++ take k lines).
    exists (drop k lines). split; [exact Hins|]. split.
    + rewrite Hr, app_nil_r, <- app_assoc, take_drop. reflexivity.
    + change (Tags.get_raw_section_data ?t)
        with (render_tags (Tags.data t) ++ Tags._remainder t).
      cbn [Tags.data Tags._remainder]. rewrite render_tags_app.
      cbn [render_tags flat_map]. rewrite app_nil_r.
      apply lookup_ge_None in Hnext. rewrite (take_ge (Tags.data self) p) by lia.
      rewrite render_tag_with_lines, render_tag_lines, <- !app_assoc. reflexivity.
Qed.

Lemma X10_insert_rendering_witness :
  exists self' before after,
    Tags.insert (-1)
      (Tag.Tag "Epoch" "1" None ": " (Comments.Comments [Comment.Comment "new" "# "] []))
      (Tags.Tags
         [ Tag.Tag "Name" "x" None ": " (Comments.Comments [] ["%if 1"]);
           Tag.Tag "Url" "u" None ": " (Comments.Comments [] ["%endif"; ""]) ]
         ["%description"])
    = (Ok tt, self')
    /\ [ "%if 1"; "Name: x"; "%endif"; ""; "Url: u"; "%description" ] = before ++ after
    /\ Tags.get_raw_section_data self' = before ++ [ "# new"; "Epoch: 1" ] ++ after.
Proof.
  apply (X10_insert_rendering (-1)
           (Tag.Tag "Epoch" "1" None ": " (Comments.Comments [Comment.Comment "new" "# "] []))
           (Tags.Tags
              [ Tag.Tag "Name" "x" None ": " (Comments.Comments [] ["%if 1"]);
                Tag.Tag "Url" "u" None ": " (Comments.Comments [] ["%endif"; ""]) ]
              ["%description"])).
  simpl. lia.
Defined.

Lemma insert_plain (i : Z) (item : Tag.t) (self : Tags.t) :
  (- Z.of_nat (length (Tags.data self)) <= i)%Z ->
  Forall (fun l => is_endif l = false)
         (lines_above self (insert_position (length (Tags.data self)) i)) ->
  Tags.insert i item self
  = (Ok tt, Tags.Tags (py_insert (Tags.data self) i item) (Tags._remainder self)).
Proof.
  intros Hi Hno. rewrite (insert_result i item self Hi). cbv zeta.
  set (p := insert_position (length (Tags.data self)) i) in *.
  assert (Hidx : Tags.endif_index (lines_above self p) = None).
  { induction (lines_above self p) as [|l ls IH]; [reflexivity|].
    inversion Hno as [|? ? Hl Hls]; subst. cbn [Tags.endif_index].
    unfold is_endif in Hl. rewrite Hl, (IH Hls). reflexivity. }
  unfold Tags.reattach. rewrite Hidx. cbn [fst snd]. rewrite py_insert_at. fold p.
  unfold lines_above. f_equal.
  destruct (Tags.data self !! p) as [next|] eqn:Hnext.
  - rewrite with_preceding_lines_id. f_equal. f_equal. f_equal.
    symmetry. apply drop_S, Hnext.
  - apply lookup_ge_None in Hnext. rewrite take_ge, drop_ge by lia. reflexivity.
Qed.

(** X11.  When no line directly above the insertion point starts with
    [%endif], [Tags.insert] is [list.insert]: the new tag goes in as it is
    and nothing else changes. *)
Theorem X11_insert_without_marker (i : Z) (item : Tag.t) (self : Tags.t) :
  (- Z.of_nat (length (Tags.data self)) <= i)%Z ->
  Forall (fun l => is_endif l = false)
         (lines_above self (insert_position (length (Tags.data self)) i)) ->
  Tags.insert i item self
  = (Ok tt, Tags.Tags (py_insert (Tags.data self) i item) (Tags._remainder self)).
Proof. apply insert_plain. Qed.

Lemma X11_insert_without_marker_witness :
  Tags.insert 0 (Tag.Tag "Epoch" "1" None ": " (Comments.Comments [] []))
    (Tags.Tags [ Tag.Tag "Name" "x" None ": " (Comments.Comments [] [""]) ] [])
  = (Ok tt,
     Tags.Tags [ Tag.Tag "Epoch" "1" None ": " (Comments.Comments [] []);
                 Tag.Tag "Name" "x" None ": " (Comments.Comments [] [""]) ] []).
Proof.
  apply (X11_insert_without_marker 0 (Tag.Tag "Epoch" "1" None ": " (Comments.Comments [] []))
           (Tags.Tags [ Tag.Tag "Name" "x" None ": " (Comments.Comments [] [""]) ] [])).
  - simpl. lia.
  - repeat constructor.
Defined.

(** X12.  Below [-len] (and so for every negative index on an empty
    collection) [Tags.insert] raises [IndexError] and inserts nothing, where
    [list.insert] would put the item first. *)
Theorem X12_insert_below_range (i : Z) (item : Tag.t) (self : Tags.t) :
  (i < - Z.of_nat (length (Tags.data self)))%Z ->
  Tags.insert i item self = (Raise IndexError, self).
Proof.
  intros Hi. unfold Tags.insert.
  replace (i >? Z.of_nat (length (Tags.data self)))%Z with false by lia.
  replace (i <? Z.of_nat (length (Tags.data self)))%Z with true by lia.
  unfold py_index.
  replace (0 <=? i)%Z with false by lia. cbn [andb].
  replace (- Z.of_nat (length (Tags.data self)) <=? i)%Z with false by lia. reflexivity.
Qed.

Lemma X12_insert_below_range_witness :
  Tags.insert (-1) (Tag.Tag "Epoch" "1" None ": " (Comments.Comments [] []))
    (Tags.Tags [] ["%description"])
  = (Raise IndexError, Tags.Tags [] ["%description"]).
Proof. apply X12_insert_below_range. simpl. lia. Defined.

(** ** What [Tags.parse] and [Sourcelist.parse] return *)

(** X13.  At most one pattern of [TAG_NAMES] matches a line, so
    [Tags.parse] returns the same result whatever the order in which the
    set is iterated. *)
Theorem X13_parse_order_irrelevant (order raw_section : list string)
    (parsed_section : option (list string)) :
  order ≡ₚ TAG_NAMES ->
  Tags.parse order raw_section parsed_section
  = Tags.parse TAG_NAMES raw_section parsed_section.
Proof. apply tags_parse_order. Qed.

Lemma X13_parse_order_irrelevant_witness :
  Tags.parse (rev TAG_NAMES) ["Prefixes: /usr"; "Prefix: /opt"] None
  = Tags.parse TAG_NAMES ["Prefixes: /usr"; "Prefix: /opt"] None.
Proof.
  apply X13_parse_order_irrelevant. symmetry. apply Permutation_rev.
Defined.

Lemma first_some_is_Some {A B : Type} (f : A -> option B) (l : list A) :
  is_Some (Py.first_some f l) <-> exists x, In x l /\ is_Some (f x).
Proof.
  split.
  - intros [y Hy]. apply first_some_In in Hy as (x & Hx & Hfx). exists x. split; eauto.
  - intros (x & Hx & Hfx). destruct (Py.first_some f l) eqn:E; [eauto|].
    rewrite first_some_None in E. rewrite (E _ Hx) in Hfx. destruct Hfx as [? [=]].
Qed.

(** X14.  A tag that [Tags.parse] returns is valid exactly when some line
    of the expanded section matches the pattern built from the tag's name as
    written; in particular no tag is valid when the expanded section is
    absent or empty. *)
Theorem X14_valid_iff_expanded_line_matches (order raw_section : list string)
    (parsed_section : option (list string)) (tags : Tags.t) (tag : Tag.t) :
  order ≡ₚ TAG_NAMES ->
  Tags.parse order raw_section parsed_section = Ok tags ->
  In tag (Tags.data tags) ->
  (Tag.valid tag = true <->
   exists pl, In pl (default [] parsed_section)
              /\ is_Some (Re.match_ false (Tags.regex_pattern (Tag.name tag)) pl)).
Proof.
  intros Horder Hparse Hin. unfold Tags.parse in Hparse.
  rewrite parse_fold_scan in Hparse by exact Horder.
  pose proof (scan_expanded order (default [] parsed_section) raw_section ([], [])
                (List.Forall_nil _)) as H.
  destruct (fold_left _ raw_section _) as [data buffer]. cbn [fst] in H.
  injection Hparse as <-. cbn [Tags.data] in Hin.
  rewrite List.Forall_forall in H. specialize (H _ Hin).
  unfold Tag.valid. rewrite H. unfold first_expanded_value.
  rewrite <- first_some_is_Some.
  destruct (Py.first_some _ _); simpl; split; intros Hx; try reflexivity; eauto.
  - discriminate.
  - destruct Hx as [? [=]].
Qed.

Lemma X14_valid_iff_expanded_line_matches_witness :
  Tag.valid (Tag.Tag "Name" "test" None ": " (Comments.Comments [] [])) = true <->
  exists pl, In pl []
             /\ is_Some (Re.match_ false (Tags.regex_pattern "Name") pl).
Proof.
  apply (X14_valid_iff_expanded_line_matches TAG_NAMES ["Name: test"] None
           (Tags.Tags [Tag.Tag "Name" "test" None ": " (Comments.Comments [] [])] [])
           (Tag.Tag "Name" "test" None ": " (Comments.Comments [] []))).
  - reflexivity.
  - vm_compute. reflexivity.
  - left. reflexivity.
Defined.

Lemma sourcelist_fold_locations {Specfile : Type} (context : option Specfile)
    (lines : list string) (st : list (SourcelistEntry.t Specfile) * list string) :
  let st' := fold_left (Sourcelist.parse_step context) lines st in
  map SourcelistEntry.location (fst st')
  = map SourcelistEntry.location (fst st) ++ List.filter is_source_line lines
  /\ (Forall (fun e => SourcelistEntry._context e = context) (fst st) ->
      Forall (fun e => SourcelistEntry._context e = context) (fst st'))
  /\ (Forall (fun l => is_source_line l = false) (snd st) ->
      Forall (fun l => is_source_line l = false) (snd st'))
  /\ exists before, snd st ++ lines = before ++ snd st'.
Proof.
  revert st. induction lines as [|line lines IH]; intros st; cbn [fold_left List.filter].
  - rewrite app_nil_r. repeat split; try (intros H; exact H).
    exists []. rewrite app_nil_r. reflexivity.
  - specialize (IH (Sourcelist.parse_step context st line)). cbv zeta in IH.
    destruct IH as (IH1 & IH2 & IH3 & before & IH4).
    destruct st as [data buffer]. unfold Sourcelist.parse_step in *.
    fold (is_source_line line) in *. cbn [fst snd] in *.
    destruct (is_source_line line) eqn:E; cbn [fst snd] in *.
    + rewrite IH1, map_app. cbn [map SourcelistEntry.location SourcelistEntry.init].
      rewrite <- app_assoc. split; [reflexivity|]. split; [|split].
      * intros H. apply IH2. apply Forall_app. split; [exact H|].
        constructor; [reflexivity|constructor].
      * intros _. apply IH3. constructor.
      * exists (buffer ++ line :: before). rewrite <- app_assoc. cbn [app].
        rewrite <- IH4. reflexivity.
    + split; [exact IH1|]. split; [exact IH2|]. split.
      * intros H. apply IH3. apply Forall_app. split; [exact H|].
        constructor; [exact E|constructor].
      * exists before. rewrite <- IH4, <- app_assoc. reflexivity.
Qed.

(** X15.  The entries that [Sourcelist.parse] returns are, in order, the
    lines that are not empty and do not start, white space aside, with a
    hash, each taken verbatim as location and given the context of the call;
    the remainder is the end of the section after the last such line. *)
Theorem X15_sourcelist_entries {Specfile : Type} (section : list string)
    (context : option Specfile) :
  map SourcelistEntry.location (Sourcelist.data (Sourcelist.parse section context))
  = List.filter is_source_line section
  /\ Forall (fun e => SourcelistEntry._context e = context)
            (Sourcelist.data (Sourcelist.parse section context))
  /\ Forall (fun l => is_source_line l = false)
            (Sourcelist._remainder (Sourcelist.parse section context))
  /\ exists before,
       section = before ++ Sourcelist._remainder (Sourcelist.parse section context).
Proof.
  unfold Sourcelist.parse.
  pose proof (sourcelist_fold_locations context section ([], [])) as H. cbv zeta in H.
  destruct (fold_left _ section _) as [data buffer]. cbn [fst snd] in *.
  destruct H as (H1 & H2 & H3 & H4). cbn [Sourcelist.data Sourcelist._remainder].
  split; [exact H1|]. split; [apply H2; constructor|]. split; [apply H3; constructor|exact H4].
Qed.

Lemma star_head_rest (p : ascii -> bool) (s e r : string) :
  hd_error (Re.star p s) = Some (e, r) ->
  r = EmptyString \/ exists c r', r = String c r' /\ p c = false.
Proof.
  revert e r. induction s as [|c s IH]; intros e r; simpl.
  - intros [= <- <-]. left. reflexivity.
  - destruct (p c) eqn:Hp.
    + destruct (Re.star p s) as [|[e' r'] xs] eqn:E; simpl.
      * intros [= <- <-]. specialize (IH EmptyString EmptyString).
        assert (H : In (EmptyString, s) (Re.star p s))
          by (apply star_spec; split; reflexivity).
        rewrite E in H. destruct H.
      * intros [= <- <-]. apply (IH e' r'). reflexivity.
    + intros [= <- <-]. right. eauto.
Qed.

Lemma colon_only (ic : bool) (c : ascii) : Re.chr_eq ic ":"%char c = true -> c = ":"%char.
Proof.
  destruct ic; destruct c as [[] [] [] [] [] [] [] []]; intros H;
    try reflexivity; discriminate H.
Qed.

(** The parts of a match of a tag pattern. *)
Lemma tag_match_parts (ic : bool) (t line : string) (m : Re.thread) :
  Re.match_ ic (Tags.regex_pattern t) line = Some m ->
  exists tn a b c v,
    In tn (Re.exec ic (get_tag_name_regex t) true line)
    /\ Re.group "n" m = Re.eaten tn
    /\ Re.group "s" m = a +:+ ":" +:+ b
    /\ Re.all_in Re.space a = true /\ Re.all_in Re.space b = true
    /\ Re.group "v" m = String c v
    /\ Re.all_in Re.dot (String c v) = true
    /\ line = Re.group "n" m +:+ Re.group "s" m +:+ Re.group "v" m +:+ Re.rest m
    /\ (Re.rest m = EmptyString \/ exists r, Re.rest m = String Py.LF r).
Proof.
  unfold Re.match_, Tags.regex_pattern. intros H.
  pose proof (exec_sound _ _ _ _ _ (hd_error_In _ _ H)) as Hsound.
  apply hd_exec_cat in H as (t0 & tx & H0 & Hx & ->).
  apply in_exec_bol in H0 as [-> _].
  unfold Re.unit_thread in Hx; cbn [Re.eaten Re.rest andb Py.falsy] in Hx.
  apply hd_exec_cat in Hx as (t1 & ty & H1 & Hy & ->).
  apply in_exec_grp in H1 as (tn & Hn & ->). cbn [Re.eaten Re.rest Re.groups] in *.
  pose proof (exec_group_free _ _ _ _ _ (proj2 (tag_name_regex_free t)) Hn) as Hgn.
  apply hd_exec_cat in Hy as (t2 & t3 & H2 & H3 & ->).
  apply in_exec_grp in H2 as (ts & Hs & ->). cbn [Re.eaten Re.rest Re.groups] in *.
  pose proof Hs as Hgs. apply exec_group_free in Hgs; [|reflexivity].
  (* the separator *)
  apply in_exec_cat in Hs as (sa & sx & Hsa & Hsx & ->).
  cbn [Re.exec] in Hsa. apply in_map_iff in Hsa as ([a ra] & <- & Hsa).
  apply star_spec in Hsa as [_ Ha]. cbn [Re.eaten Re.rest Re.groups fst snd] in *.
  apply in_exec_cat in Hsx as (sc & sb & Hsc & Hsb & ->).
  cbn [Re.exec] in Hsc. destruct (Re.lit ic ":" ra) as [[mc rc]|] eqn:Ec; [|destruct Hsc].
  destruct Hsc as [<-|[]]. cbn [Re.eaten Re.rest Re.groups] in *.
  assert (Hmc : mc = ":"%string).
  { simpl in Ec. destruct ra as [|x ra]; [discriminate|].
    destruct (Re.chr_eq ic ":" x) eqn:Ex; [|discriminate].
    injection Ec as <- _. apply colon_only in Ex as ->. reflexivity. }
  subst mc.
  cbn [Re.exec] in Hsb. apply in_map_iff in Hsb as ([b rb] & <- & Hsb).
  apply star_spec in Hsb as [_ Hb]. cbn [Re.eaten Re.rest Re.groups fst snd] in *.
  (* the value *)
  cbn [Re.exec] in H3. rewrite hd_error_map in H3.
  destruct (hd_error _) as [tv|] eqn:Hv in H3; [|discriminate].
  injection H3 as <-. cbn [Re.eaten Re.rest Re.groups] in *.
  destruct rb as [|c rb']; [discriminate|].
  destruct (Re.dot c) eqn:Hc; [|discriminate].
  rewrite hd_error_map in Hv.
  destruct (hd_error (Re.star Re.dot rb')) as [[v rv]|] eqn:Hstar; [|discriminate].
  injection Hv as <-. cbn [Re.eaten Re.rest Re.groups fst snd] in *.
  pose proof (star_head_rest _ _ _ _ Hstar) as Hrest.
  apply hd_error_In, star_spec in Hstar as [_ Hallv].
  exists tn, a, b, c, v. rewrite Hgn. unfold Re.group. cbn [Re.groups app Re.lookup].
  simpl (Re.lookup _ _).
  split; [exact Hn|]. split; [reflexivity|]. split; [reflexivity|].
  split; [exact Ha|]. split; [exact Hb|]. split; [reflexivity|].
  split; [simpl; rewrite Hc, Hallv; reflexivity|]. split.
  - rewrite <- Hsound. rewrite str_app_nil_l, !str_app_assoc. reflexivity.
  - destruct Hrest as [->|(x & r' & -> & Hx)]; [left; reflexivity|].
    right. exists r'. unfold Re.dot in Hx. apply negb_false_iff, Ascii.eqb_eq in Hx.
    subst x. reflexivity.
Qed.

(** ** Lines with line feeds *)

Lemma comment_of_line_cut (line : string) :
  is_comment_line line = true ->
  line = Comment.str (comment_of_line line)
  \/ line = Comment.str (comment_of_line line) +:+ String Py.LF EmptyString.
Proof.
  unfold is_comment_line, comment_of_line. intros H.
  apply bool_decide_eq_true in H as [m Hm]. rewrite Hm.
  apply comment_match_shape in Hm as [Hline Heol].
  unfold Comment.str. simpl.
  destruct (Re.rest m) as [|c [|c' r]]; simpl in Heol; try discriminate.
  - left. rewrite str_app_nil_r in Hline. symmetry. assumption.
  - right. apply Ascii.eqb_eq in Heol as ->. rewrite str_app_assoc. symmetry. assumption.
Qed.

Lemma comments_scan_lines (lines : list string) :
  Forall2 raw_data_line
          (snd (comments_scan lines) ++ map Comment.str (fst (comments_scan lines)))
          lines.
Proof.
  induction lines as [|line lines IH]; [constructor|].
  rewrite comments_scan_cons.
  destruct (snd (comments_scan lines)) as [|p pl] eqn:Epl.
  - destruct (is_comment_line line) eqn:Ec; simpl.
    + constructor; [|exact IH].
      destruct (comment_of_line_cut line Ec) as [H|H]; [left|right; split]; auto.
    + constructor; [left; reflexivity|exact IH].
  - simpl. constructor; [left; reflexivity|exact IH].
Qed.

(** X16. Whatever the lines, [Comments.parse] followed by
    [Comments.get_raw_data] gives as many lines as it was given; each is
    the line given, but for a comment line that ends with a line feed,
    which comes back without that line feed. *)
Theorem X16_comments_raw_data_lines (lines : list string) :
  Forall2 raw_data_line
          (Comments.get_raw_data (Comments.parse lines)) lines.
Proof.
  rewrite comments_parse_scan. unfold Comments.get_raw_data. simpl.
  apply comments_scan_lines.
Qed.

Lemma comments_raw_data_lines (lines : list string) :
  Forall2 raw_data_line (Comments.get_raw_data (Comments.parse lines)) lines.
Proof.
  rewrite comments_parse_scan. unfold Comments.get_raw_data. simpl.
  apply comments_scan_lines.
Qed.

Lemma comments_raw_cut (lines : list string) :
  Forall2 cut_at_LF (Comments.get_raw_data (Comments.parse lines)) lines.
Proof.
  rewrite comments_parse_scan. unfold Comments.get_raw_data. simpl.
  eapply Forall2_impl; [apply comments_scan_lines|].
  intros out inp [H|[_ H]]; [left; assumption|right; eauto].
Qed.

Lemma tags_scan_step_cut (order parsed_lines : list string)
    (st : list Tag.t * list string) (line : string) (done : list string) :
  Forall2 cut_at_LF (render_tags (fst st)) done ->
  exists done',
    done ++ snd st ++ [line]
    = done' ++ snd (tags_scan_step order parsed_lines st line)
    /\ Forall2 cut_at_LF (render_tags (fst (tags_scan_step order parsed_lines st line)))
                         done'.
Proof.
  intros H. destruct st as [data buffer]. unfold tags_scan_step. cbn [fst snd].
  destruct (Py.first_some _ order) as [m|] eqn:E; cbn [fst snd].
  - exists (done ++ buffer ++ [line]). split; [rewrite app_nil_r; reflexivity|].
    unfold render_tags. rewrite flat_map_app. apply Forall2_app; [exact H|].
    simpl. rewrite app_nil_r. unfold render_tag, tag_of_match. cbn [Tag.comments].
    apply Forall2_app; [apply comments_raw_cut|].
    constructor; [|constructor].
    apply first_some_In in E as (t & _ & Hm).
    apply tag_match_parts in Hm as (tn & a & b & c & v & _ & _ & _ & _ & _ & _ & _ & Hl & Hr).
    unfold Tag.line. cbn [Tag.name Tag._separator Tag.value].
    destruct Hr as [Hr|[r Hr]]; rewrite Hr in Hl.
    + left. etransitivity; [exact Hl|]. rewrite str_app_nil_r. reflexivity.
    + right. exists r. etransitivity; [exact Hl|]. rewrite !str_app_assoc. reflexivity.
  - exists done. split; [reflexivity|exact H].
Qed.

Lemma tags_scan_cut (order parsed_lines lines : list string)
    (st : list Tag.t * list string) (done : list string) :
  Forall2 cut_at_LF (render_tags (fst st)) done ->
  Forall2 cut_at_LF
          (render_state (fold_left (tags_scan_step order parsed_lines) lines st))
          (done ++ snd st ++ lines).
Proof.
  revert st done. induction lines as [|line lines IH]; intros st done H; cbn [fold_left].
  - rewrite app_nil_r. unfold render_state, Tags.get_raw_section_data. simpl.
    apply Forall2_app; [exact H|]. apply Forall2_same_length_lookup_2; [reflexivity|].
    intros i x y Hx Hy. left. congruence.
  - destruct (tags_scan_step_cut order parsed_lines st line done H) as (done' & Heq & H').
    specialize (IH _ _ H').
    replace (done ++ snd st ++ line :: lines)
      with (done' ++ snd (tags_scan_step order parsed_lines st line) ++ lines); [exact IH|].
    rewrite app_assoc, <- Heq, <- !app_assoc. reflexivity.
Qed.

(** X17. Whatever the lines of a section, [Tags.parse] returns, and
    [Tags.get_raw_section_data] of what it returns has as many lines as
    the section; each is the line of the section, or that line cut before
    one of its line feeds. *)
Theorem X17_tags_render_lines (order raw_section : list string)
    (parsed_section : option (list string)) :
  order ≡ₚ TAG_NAMES ->
  exists tags,
    Tags.parse order raw_section parsed_section = Ok tags
    /\ Forall2 cut_at_LF (Tags.get_raw_section_data tags) raw_section.
Proof.
  intros Hperm. unfold Tags.parse. rewrite (parse_fold_scan order Hperm). simpl.
  pose proof (tags_scan_cut order (default [] parsed_section) raw_section ([], []) []
                            (List.Forall2_nil _)) as H.
  destruct (fold_left _ raw_section _) as [data buffer].
  exists (Tags.Tags data buffer). split; [reflexivity|exact H].
Qed.

Lemma X17_tags_render_lines_witness :
  exists tags,
    Tags.parse TAG_NAMES ["# c" +:+ String Py.LF EmptyString;
                          "Name: x" +:+ String Py.LF "y"] None = Ok tags
    /\ Forall2 cut_at_LF (Tags.get_raw_section_data tags)
                         ["# c" +:+ String Py.LF EmptyString;
                          "Name: x" +:+ String Py.LF "y"].
Proof.
  apply (X17_tags_render_lines TAG_NAMES _ None). reflexivity.
Defined.

(** ** The fields of the tags that [Tags.parse] builds *)

Lemma tags_scan_step_fields (order parsed_lines : list string)
    (st : list Tag.t * list string) (line : string) :
  (forall t, In t order -> In t TAG_NAMES) ->
  Forall parsed_tag_fields (fst st) ->
  Forall parsed_tag_fields (fst (tags_scan_step order parsed_lines st line)).
Proof.
  intros Horder H. unfold tags_scan_step.
  destruct (Py.first_some _ order) as [m|] eqn:E; cbn [fst]; [|exact H].
  apply Forall_app. split; [exact H|]. constructor; [|constructor].
  apply first_some_In in E as (t & Ht & Hm).
  apply tag_match_parts in Hm
    as (tn & a & b & c & v & Hn & Hname & Hsep & Ha & Hb & Hval & Hdot & _ & _).
  destruct (matched_name_ok _ _ _ (Horder _ Ht) Hn) as [Hne Hok].
  unfold parsed_tag_fields, tag_of_match.
  cbn [Tag.name Tag.value Tag._separator].
  rewrite Hname, Hval, Hsep. split; [exact Hne|]. split; [exact Hok|].
  split; [reflexivity|]. split; [rewrite <- all_in_dot; exact Hdot|].
  exists a, b. split; [reflexivity|]. split; assumption.
Qed.

Lemma tags_scan_fields (order parsed_lines lines : list string)
    (st : list Tag.t * list string) :
  (forall t, In t order -> In t TAG_NAMES) ->
  Forall parsed_tag_fields (fst st) ->
  Forall parsed_tag_fields (fst (fold_left (tags_scan_step order parsed_lines) lines st)).
Proof.
  intros Horder. revert st.
  induction lines as [|line lines IH]; intros st H; cbn [fold_left]; [exact H|].
  apply IH, tags_scan_step_fields; assumption.
Qed.

(** X18. Every tag that [Tags.parse] returns has a non-empty name that
    the constructor of [Tag] accepts, a non-empty value without line
    feed, and a separator made of one colon with nothing but whitespace
    around it. *)
Theorem X18_parsed_tag_fields (order raw_section : list string)
    (parsed_section : option (list string)) (tags : Tags.t) :
  order ≡ₚ TAG_NAMES ->
  Tags.parse order raw_section parsed_section = Ok tags ->
  Forall parsed_tag_fields (Tags.data tags).
Proof.
  intros Hperm. unfold Tags.parse. rewrite (parse_fold_scan order Hperm). simpl.
  pose proof (tags_scan_fields order (default [] parsed_section) raw_section ([], [])
                (order_In order Hperm) (List.Forall_nil _)) as H.
  destruct (fold_left _ raw_section _) as [data buffer].
  intros [= <-]. exact H.
Qed.

Lemma X18_parsed_tag_fields_witness :
  Forall parsed_tag_fields
         [Tag.Tag "Name" "x" None " :  " (Comments.Comments [] []);
          Tag.Tag "Source0" "a.tar.gz" None ":" (Comments.Comments [] ["%if 1"])].
Proof.
  apply (X18_parsed_tag_fields TAG_NAMES ["Name :  x"; "%if 1"; "Source0:a.tar.gz"] None
           (Tags.Tags [Tag.Tag "Name" "x" None " :  " (Comments.Comments [] []);
                       Tag.Tag "Source0" "a.tar.gz" None ":"
                               (Comments.Comments [] ["%if 1"])] []));
    reflexivity.
Defined.

(** ** The names that [Tag.__init__] accepts *)

Lemma lit_startswith (l s : string) :
  bool_decide (is_Some (Re.lit true l s)) = Py.startswith (lower_str l) (lower_str s).
Proof.
  revert s. induction l as [|a l IH]; intros s; [reflexivity|].
  destruct s as [|c s]; [reflexivity|]. cbn [Re.lit lower_str Py.startswith].
  unfold Re.chr_eq. destruct (Ascii.eqb (Py.lower a) (Py.lower c)); [|reflexivity].
  rewrite andb_true_l, <- IH.
  destruct (Re.lit true l s) as [[m r]|]; reflexivity.
Qed.

Lemma tag_name_tail (t : string) (bol : bool) (s : string) :
  get_tag_name_regex t = Re.Lit t
  \/ exists r, get_tag_name_regex t = Re.Cat (Re.Lit t) r
               /\ forall b s', Re.exec true r b s' <> [].
Proof.
  unfold get_tag_name_regex.
  destruct (str_in t TAGS_WITH_ARG).
  - right. eexists. split; [reflexivity|]. intros b s' H.
    assert (Hin : In (Re.unit_thread s') (Re.exec true tag_arg_regex b s'))
      by (apply in_exec_opt; right; reflexivity).
    rewrite H in Hin. destruct Hin.
  - destruct (str_in t ["source"; "patch"]); [|left; reflexivity].
    right. eexists. split; [reflexivity|]. intros b s' H.
    assert (Hin : In (Re.Thread EmptyString s' []) (Re.exec true (Re.Star Re.digit) b s')).
    { cbn [Re.exec]. apply in_map_iff. exists (EmptyString, s'). split; [reflexivity|].
      apply star_spec. split; reflexivity. }
    rewrite H in Hin. destruct Hin.
Qed.

Lemma tag_name_match_startswith (t name : string) :
  bool_decide (is_Some (Re.match_ true (get_tag_name_regex t) name))
  = Py.startswith (lower_str t) (lower_str name).
Proof.
  rewrite <- lit_startswith. unfold Re.match_.
  destruct (tag_name_tail t true name) as [->|(r & -> & Hr)].
  - cbn [Re.exec]. destruct (Re.lit true t name) as [[m s']|]; reflexivity.
  - cbn [Re.exec]. destruct (Re.lit true t name) as [[m s']|]; [|reflexivity].
    cbn [flat_map Re.eaten Re.rest]. rewrite app_nil_r.
    specialize (Hr (true && Py.falsy m) s').
    destruct (Re.exec true r (true && Py.falsy m) s'); [contradiction|reflexivity].
Qed.

Lemma existsb_ext_all {A : Type} (f g : A -> bool) (l : list A) :
  (forall x, f x = g x) -> existsb f l = existsb g l.
Proof. intros H. induction l as [|x l IH]; simpl; [reflexivity|]. rewrite H, IH. reflexivity. Qed.

(** X19. The constructor of [Tag] accepts a name exactly when, letter
    case aside, the name begins with one of [TAG_NAMES], whatever
    follows; any other name, the empty one among them, raises
    [ValueError].  An accepted tag holds the arguments, with a copy of
    the comments. *)
Theorem X19_init_accepts_prefixed_names (name value : string)
    (expanded_value : option string) (separator : string) (comments : Comments.t) :
  Tag.init name value expanded_value separator comments
  = if existsb (fun t => Py.startswith t (lower_str name)) TAG_NAMES
    then Ok (Tag.Tag name value expanded_value separator (Comments.copy comments))
    else Raise ValueError.
Proof.
  unfold Tag.init, Tag.name_ok.
  rewrite (existsb_ext_all _ (fun t => Py.startswith (lower_str t) (lower_str name)))
    by (intros t; apply tag_name_match_startswith).
  destruct name as [|c name]; [reflexivity|]. cbn [Py.falsy orb].
  change (existsb (fun t => Py.startswith (lower_str t) (lower_str (String c name))) TAG_NAMES)
    with (existsb (fun t => Py.startswith t (lower_str (String c name)))
                  (map lower_str TAG_NAMES)) at 1.
  replace (map lower_str TAG_NAMES) with TAG_NAMES by reflexivity.
  destruct (existsb _ TAG_NAMES); reflexivity.
Qed.

(** ** Comment lines *)

Lemma lstrip_split (line : string) :
  exists a, line = a +:+ Py.lstrip line /\ Re.all_in Re.space a = true.
Proof.
  induction line as [|c line (a & Hl & Ha)]; [exists EmptyString; split; reflexivity|].
  cbn [Py.lstrip]. destruct (Py.isspace c) eqn:Hc.
  - exists (String c a). split.
    + rewrite str_app_cons. f_equal. exact Hl.
    + cbn [Re.all_in]. unfold Re.space at 1. rewrite Hc. exact Ha.
  - exists EmptyString. split; reflexivity.
Qed.

Lemma lstrip_spaces (a r : string) :
  Re.all_in Re.space a = true -> Py.lstrip (a +:+ String "#" r) = String "#" r.
Proof.
  induction a as [|c a IH]; intros H; [reflexivity|].
  cbn [Re.all_in] in H. apply andb_prop in H as [Hc Ha].
  rewrite str_app_cons. cbn [Py.lstrip]. unfold Re.space in Hc. rewrite Hc. apply IH, Ha.
Qed.

Lemma comment_line_lstrip (line : string) :
  is_comment_line line = true -> Py.startswith "#" (Py.lstrip line) = true.
Proof.
  unfold is_comment_line, Re.match_, Comments.comment_regex. intros H.
  apply bool_decide_eq_true in H as [m Hm]. apply hd_error_In in Hm.
  apply in_exec_cat in Hm as (t0 & tx & H0 & Hx & ->).
  apply in_exec_bol in H0 as [-> _].
  unfold Re.unit_thread in Hx; cbn [Re.eaten Re.rest andb Py.falsy] in Hx.
  apply in_exec_cat in Hx as (t1 & t2 & H1 & _ & ->).
  apply in_exec_grp in H1 as (t1' & H1 & ->).
  apply in_exec_cat in H1 as (sa & sx & Hsa & Hsx & ->).
  cbn [Re.exec] in Hsa. apply in_map_iff in Hsa as ([a ra] & <- & Hsa).
  apply star_spec in Hsa as [Hline Ha]. cbn [Re.eaten Re.rest fst snd] in *.
  apply in_exec_cat in Hsx as (sc & _ & Hsc & _ & _).
  cbn [Re.exec] in Hsc. destruct ra as [|x ra]; [destruct Hsc|].
  cbn [Re.lit] in Hsc. unfold Re.chr_eq in Hsc.
  destruct (Ascii.eqb "#" x) eqn:Ex; [|destruct Hsc].
  apply Ascii.eqb_eq in Ex as <-. rewrite <- Hline, lstrip_spaces by exact Ha. reflexivity.
Qed.

Lemma lstrip_comment_line (line : string) :
  Py.single_line line = true ->
  Py.startswith "#" (Py.lstrip line) = true -> is_comment_line line = true.
Proof.
  intros Hsl H. destruct (lstrip_split line) as (a & Hline & Ha).
  destruct (Py.lstrip line) as [|x r]; [discriminate|].
  cbn [Py.startswith] in H. apply andb_prop in H as [Hx _].
  apply Ascii.eqb_eq in Hx as <-.
  assert (Hr : Re.all_in Re.dot r = true).
  { rewrite all_in_dot. rewrite Hline, single_line_app in Hsl.
    apply andb_prop in Hsl as [_ Hsl]. cbn [Py.single_line] in Hsl.
    apply andb_prop in Hsl as [_ Hsl]. exact Hsl. }
  unfold is_comment_line, Re.match_. apply bool_decide_eq_true.
  assert (Hin : In (Re.Thread (EmptyString +:+ (a +:+ "#" +:+ EmptyString) +:+ r +:+ EmptyString)
                              EmptyString
                              ([] ++ ([] ++ [] ++ [] ++ [("1", a +:+ "#" +:+ EmptyString)])
                                  ++ ([] ++ [("2", r)]) ++ []))
                   (Re.exec false Comments.comment_regex true line)).
  { unfold Comments.comment_regex. apply in_exec_cat.
    exists (Re.unit_thread line), (Re.Thread ((a +:+ "#" +:+ EmptyString) +:+ r +:+ EmptyString)
                                             EmptyString
                                             (([] ++ [] ++ [] ++ [("1", a +:+ "#" +:+ EmptyString)])
                                              ++ ([] ++ [("2", r)]) ++ [])).
    split; [left; reflexivity|]. split; [|reflexivity].
    unfold Re.unit_thread; cbn [Re.eaten Re.rest andb Py.falsy].
    apply in_exec_cat.
    exists (Re.Thread (a +:+ "#" +:+ EmptyString) r
                      (([] ++ [] ++ []) ++ [("1", a +:+ "#" +:+ EmptyString)])),
           (Re.Thread (r +:+ EmptyString) EmptyString (([] ++ [("2", r)]) ++ [])).
    split; [|split; [|reflexivity]].
    - apply in_exec_grp.
      exists (Re.Thread (a +:+ "#" +:+ EmptyString) r ([] ++ [] ++ [])).
      split; [|reflexivity]. apply in_exec_cat.
      exists (Re.Thread a (String "#" r) []), (Re.Thread ("#" +:+ EmptyString) r ([] ++ [])).
      split; [|split; [|reflexivity]].
      + cbn [Re.exec]. apply in_map_iff. exists (a, String "#" r).
        split; [reflexivity|]. apply star_spec. split; [symmetry; exact Hline|exact Ha].
      + cbn [Re.eaten Re.rest]. apply in_exec_cat.
        exists (Re.Thread "#" r []), (Re.Thread EmptyString r []).
        split; [|split; [|reflexivity]].
        * cbn [Re.exec Re.lit]. unfold Re.chr_eq. rewrite Ascii.eqb_refl. left. reflexivity.
        * cbn [Re.exec Re.eaten Re.rest]. apply in_map_iff. exists (EmptyString, r).
          split; [reflexivity|]. apply star_spec. split; reflexivity.
    - cbn [Re.eaten Re.rest]. apply in_exec_cat.
      exists (Re.Thread r EmptyString ([] ++ [("2", r)])), (Re.unit_thread EmptyString).
      split; [|split; [|reflexivity]].
      + apply in_exec_grp. exists (Re.Thread r EmptyString []). split; [|reflexivity].
        cbn [Re.exec]. apply in_map_iff. exists (r, EmptyString).
        split; [reflexivity|]. apply star_spec. split; [apply str_app_nil_r|exact Hr].
      + cbn [Re.exec Re.eaten Re.rest Re.at_eol]. left. reflexivity. }
  destruct (Re.exec false Comments.comment_regex true line) as [|m ms]; [destruct Hin|].
  simpl. eauto.
Qed.

(** X20. On a line without line feed the two tests for a comment line
    agree: the pattern of [Comments.parse] matches the line exactly when
    the line, stripped of leading whitespace, starts with the number
    sign, which is the test of [Sourcelist.parse]. *)
Theorem X20_comment_line_tests_agree (line : string) :
  Py.single_line line = true ->
  is_comment_line line = Py.startswith "#" (Py.lstrip line).
Proof.
  intros Hsl. destruct (Py.startswith "#" (Py.lstrip line)) eqn:E.
  - apply lstrip_comment_line; assumption.
  - destruct (is_comment_line line) eqn:Ec; [|reflexivity].
    apply comment_line_lstrip in Ec. congruence.
Qed.

Lemma X20_comment_line_tests_agree_witness :
  is_comment_line "  # note" = Py.startswith "#" (Py.lstrip "  # note").
Proof.
  apply (X20_comment_line_tests_agree "  # note"). reflexivity.
Defined.

(** ** Sections of sources with line feeds *)

Lemma sourcelist_step_lines {Specfile : Type} (context : option Specfile)
    (st : list (SourcelistEntry.t Specfile) * list string) (line : string)
    (done : list string) :
  Forall2 raw_data_line
          (flat_map (fun source => Comments.get_raw_data (SourcelistEntry.comments source)
                                   ++ [SourcelistEntry.location source]) (fst st))
          done ->
  exists done',
    done ++ snd st ++ [line] = done' ++ snd (Sourcelist.parse_step context st line)
    /\ Forall2 raw_data_line
         (flat_map (fun source => Comments.get_raw_data (SourcelistEntry.comments source)
                                  ++ [SourcelistEntry.location source])
                   (fst (Sourcelist.parse_step context st line)))
         done'.
Proof.
  intros H. destruct st as [data buffer]. unfold Sourcelist.parse_step. cbn [fst snd].
  destruct (negb (Py.falsy line) && negb (Py.startswith "#" (Py.lstrip line)));
    cbn [fst snd].
  - exists (done ++ buffer ++ [line]). split; [rewrite app_nil_r; reflexivity|].
    rewrite flat_map_app. apply Forall2_app; [exact H|].
    simpl. rewrite app_nil_r. apply Forall2_app; [apply comments_raw_data_lines|].
    constructor; [left; reflexivity|constructor].
  - exists done. split; [reflexivity|exact H].
Qed.

Lemma sourcelist_fold_lines {Specfile : Type} (context : option Specfile)
    (lines : list string) (st : list (SourcelistEntry.t Specfile) * list string)
    (done : list string) :
  Forall2 raw_data_line
          (flat_map (fun source => Comments.get_raw_data (SourcelistEntry.comments source)
                                   ++ [SourcelistEntry.location source]) (fst st))
          done ->
  Forall2 raw_data_line
          (sourcelist_render_state (fold_left (Sourcelist.parse_step context) lines st))
          (done ++ snd st ++ lines).
Proof.
  revert st done. induction lines as [|line lines IH]; intros st done H; cbn [fold_left].
  - rewrite app_nil_r. unfold sourcelist_render_state, Sourcelist.get_raw_section_data.
    simpl. apply Forall2_app; [exact H|]. apply Forall2_same_length_lookup_2; [reflexivity|].
    intros i x y Hx Hy. left. congruence.
  - destruct (sourcelist_step_lines context st line done H) as (done' & Heq & H').
    specialize (IH _ _ H').
    replace (done ++ snd st ++ line :: lines)
      with (done' ++ snd (Sourcelist.parse_step context st line) ++ lines); [exact IH|].
    rewrite app_assoc, <- Heq, <- !app_assoc. reflexivity.
Qed.

(** X21. Whatever the lines of a section of sources,
    [Sourcelist.parse] followed by [Sourcelist.get_raw_section_data]
    gives as many lines as the section; each is the line of the section,
    but for a comment line that ends with a line feed, which comes back
    without that line feed. *)
Theorem X21_sourcelist_render_lines {Specfile : Type} (section : list string)
    (context : option Specfile) :
  Forall2 raw_data_line
          (Sourcelist.get_raw_section_data (Sourcelist.parse section context)) section.
Proof.
  unfold Sourcelist.parse.
  pose proof (sourcelist_fold_lines context section ([], []) [] (List.Forall2_nil _)) as H.
  destruct (fold_left _ section _) as [data buffer]. exact H.
Qed.

(** ** The environment around a parse *)

(** X22. [_sanitize_environment] runs its body with [LANG] and [LC_ALL]
    set to [C.UTF-8].  When each of the two variables was set before the
    block or is still set when the body ends, the block hands on what the
    body returns or raises, the two variables are afterwards what they
    were before the block, unset if they were unset, and everything else
    is as the body left it.  When a variable that was unset before the
    block has been removed by the body, putting it back raises
    [KeyError] in place of the body's outcome: for [LANG] nothing is put
    back, for [LC_ALL] only [LANG] is. *)
Theorem X22_sanitize_environment_restores {A : Type} (body : SpecParser.M A)
    (w : SpecParser.world) :
  let r := fst (body (sanitized w)) in
  let w1 := snd (body (sanitized w)) in
  ((is_Some (SpecParser.environ w !! "LANG") \/ is_Some (SpecParser.environ w1 !! "LANG")) ->
   (is_Some (SpecParser.environ w !! "LC_ALL")
    \/ is_Some (SpecParser.environ w1 !! "LC_ALL")) ->
   exists w',
     SpecParser._sanitize_environment body w = (r, w')
     /\ SpecParser.files w' = SpecParser.files w1
     /\ SpecParser.ops w' = SpecParser.ops w1
     /\ SpecParser.environ w' !! "LANG" = SpecParser.environ w !! "LANG"
     /\ SpecParser.environ w' !! "LC_ALL" = SpecParser.environ w !! "LC_ALL"
     /\ forall key, key <> "LANG" -> key <> "LC_ALL" ->
          SpecParser.environ w' !! key = SpecParser.environ w1 !! key)
  /\ (SpecParser.environ w !! "LANG" = None -> SpecParser.environ w1 !! "LANG" = None ->
      SpecParser._sanitize_environment body w = (Raise KeyError, w1))
  /\ ((is_Some (SpecParser.environ w !! "LANG")
       \/ is_Some (SpecParser.environ w1 !! "LANG")) ->
      SpecParser.environ w !! "LC_ALL" = None ->
      SpecParser.environ w1 !! "LC_ALL" = None ->
      SpecParser._sanitize_environment body w
      = (Raise KeyError,
         SpecParser.World (SpecParser.files w1)
                          (put_back (SpecParser.environ w) "LANG" (SpecParser.environ w1))
                          (SpecParser.ops w1))).
Proof.
  cbv zeta. split; [|split].
  - intros H1 H2. rewrite (sanitize_environment_kept body w H1 H2).
    eexists. split; [reflexivity|]. cbn [SpecParser.files SpecParser.ops SpecParser.environ].
    split; [reflexivity|]. split; [reflexivity|]. unfold restored, put_back.
    destruct (SpecParser.environ w !! "LANG") eqn:E1,
             (SpecParser.environ w !! "LC_ALL") eqn:E2;
      (split; [simplify_map_eq; done|]); (split; [simplify_map_eq; done|]);
      intros key Hk1 Hk2; simplify_map_eq; done.
  - intros E1 E2. destruct w as [fs env ops].
    unfold SpecParser._sanitize_environment, SpecParser.finally, SpecParser.bindM.
    unfold sanitized in *. cbn -[insert base.delete lookup] in *.
    destruct (body _) as [r [fs1 env1 ops1]]. cbn -[insert base.delete lookup] in *.
    unfold SpecParser.restore, SpecParser.bindM, SpecParser.ret.
    cbn -[insert base.delete lookup]. rewrite E1, E2. reflexivity.
  - intros H1 E2 E3. destruct w as [fs env ops].
    unfold SpecParser._sanitize_environment, SpecParser.finally, SpecParser.bindM.
    unfold sanitized, put_back in *. cbn -[insert base.delete lookup] in *.
    destruct (body _) as [r [fs1 env1 ops1]]. cbn -[insert base.delete lookup] in *.
    unfold SpecParser.restore, SpecParser.bindM, SpecParser.ret.
    cbn -[insert base.delete lookup]. rewrite E2.
    destruct (env !! "LANG") as [v1|] eqn:E1.
    + cbn -[insert base.delete lookup]. rewrite lookup_insert_ne by discriminate.
      rewrite E3. reflexivity.
    + destruct H1 as [[? H1]|[v H1]]; [discriminate|]. rewrite H1.
      cbn -[insert base.delete lookup]. rewrite lookup_delete_ne by discriminate.
      rewrite E3. reflexivity.
Qed.

Lemma X22_sanitize_environment_restores_witness :
  (exists w',
     SpecParser._sanitize_environment (SpecParser.setenv "LANG" "de_DE.UTF-8")
       (SpecParser.World ∅ {[ "LC_ALL" := "C" ]} []) = (Ok tt, w')
     /\ SpecParser.environ w' !! "LANG" = None
     /\ SpecParser.environ w' !! "LC_ALL" = Some "C")
  /\ SpecParser._sanitize_environment
       (fun w => (Ok tt, SpecParser.World (SpecParser.files w)
                           (base.delete "LANG" (SpecParser.environ w)) (SpecParser.ops w)))
       (SpecParser.World ∅ ∅ [])
     = (Raise KeyError, SpecParser.World ∅ {[ "LC_ALL" := "C.UTF-8" ]} []).
Proof.
  split.
  - destruct (proj1 (X22_sanitize_environment_restores
                       (SpecParser.setenv "LANG" "de_DE.UTF-8")
                       (SpecParser.World ∅ {[ "LC_ALL" := "C" ]} [])))
      as (w' & Hrun & _ & _ & H1 & H2 & _).
    + right. vm_compute. eauto.
    + left. vm_compute. eauto.
    + exists w'. split; [exact Hrun|]. split; [exact H1|exact H2].
  - etransitivity.
    + apply (proj1 (proj2 (X22_sanitize_environment_restores
                      (fun w => (Ok tt, SpecParser.World (SpecParser.files w)
                                          (base.delete "LANG" (SpecParser.environ w))
                                          (SpecParser.ops w)))
                      (SpecParser.World ∅ ∅ [])))).
      * reflexivity.
      * apply lookup_delete_eq.
    + reflexivity.
Defined.


(** ** Comments that parse back *)

Lemma parsed_comment_match (c : Comment.t) :
  parsed_comment c ->
  exists m, Re.match_ false Comments.comment_regex (Comment.str c) = Some m
            /\ Re.group "1" m = Comment.prefix c /\ Re.group "2" m = Comment.text c.
Proof.
  destruct c as [text prefix]. unfold parsed_comment, Comment.str.
  cbn [Comment.text Comment.prefix]. intros ((a & b & -> & Ha & Hb) & Hsl & Hstop).
  unfold Re.match_, Comments.comment_regex.
  assert (Hline : (a +:+ "#" +:+ b) +:+ text = a +:+ String "#" (b +:+ text))
    by (rewrite str_app_assoc; reflexivity).
  rewrite Hline.
  pose proof (hd_star_intro false Re.space true a (String "#" (b +:+ text)) Ha eq_refl)
    as Hs1.
  assert (Hl : hd_error (Re.exec false (Re.Lit "#") (true && Py.falsy a)
                                 (String "#" (b +:+ text)))
               = Some (Re.Thread "#" (b +:+ text) []))
    by (cbn [Re.exec Re.lit]; unfold Re.chr_eq; rewrite Ascii.eqb_refl; reflexivity).
  pose proof (hd_star_intro false Re.space (true && Py.falsy a && Py.falsy "#")
                            b text Hb Hstop) as Hs2.
  pose proof (hd_cat_intro false (Re.Lit "#") (Re.Star Re.space) _ _ _ _ Hl Hs2) as Hc2.
  pose proof (hd_cat_intro false (Re.Star Re.space) _ _ _ _ _ Hs1 Hc2) as Hc1.
  apply (hd_grp_intro false "1") in Hc1. cbn [Re.eaten Re.rest Re.groups] in Hc1.
  assert (Hdot : hd_error (Re.exec false (Re.Star Re.dot)
                                   (true && Py.falsy EmptyString
                                    && Py.falsy (a +:+ "#" +:+ b)) text)
                 = Some (Re.Thread text EmptyString [])).
  { rewrite <- (str_app_nil_r text) at 1.
    apply hd_star_intro; [rewrite all_in_dot; exact Hsl|reflexivity]. }
  apply (hd_grp_intro false "2") in Hdot. cbn [Re.eaten Re.rest Re.groups] in Hdot.
  pose proof (hd_cat_intro false _ Re.Eol _ _ _ (Re.unit_thread EmptyString) Hdot eq_refl)
    as Hc3.
  cbn [Re.eaten Re.rest Re.groups] in Hc3.
  pose proof (hd_cat_intro false _ _ (true && Py.falsy EmptyString) _ _ _ Hc1 Hc3) as Hc4.
  cbn [Re.eaten Re.rest Re.groups] in Hc4.
  pose proof (hd_cat_intro false Re.Bol _ true (a +:+ String "#" (b +:+ text))
                           (Re.unit_thread _) _ eq_refl Hc4) as H.
  eexists. split; [exact H|]. split; reflexivity.
Qed.

Lemma comments_scan_parsed (data : list Comment.t) :
  Forall parsed_comment data ->
  comments_scan (map Comment.str data) = (data, []).
Proof.
  induction 1 as [|c data Hc _ IH]; [reflexivity|].
  cbn [map]. rewrite comments_scan_cons, IH. cbn [fst snd].
  destruct (parsed_comment_match c Hc) as (m & Hm & H1 & H2).
  unfold is_comment_line, comment_of_line. rewrite Hm.
  rewrite bool_decide_eq_true_2 by eauto. rewrite H1, H2. destruct c. reflexivity.
Qed.

Lemma comments_scan_preceding (pl run : list string) (data : list Comment.t) :
  comments_scan run = (data, []) ->
  (forall before l, pl = before ++ [l] -> is_comment_line l = false) ->
  comments_scan (pl ++ run) = (data, pl).
Proof.
  intros Hrun. induction pl as [|x pl IH]; intros Hlast; [exact Hrun|].
  cbn [app]. rewrite comments_scan_cons, IH.
  - cbn [fst snd]. destruct pl as [|y pl]; [|reflexivity].
    rewrite (Hlast [] x eq_refl). reflexivity.
  - intros before l ->. apply (Hlast (x :: before) l). reflexivity.
Qed.

(** X23. Comments made of a prefix that is the number sign with
    whitespace around it and of a text without line feed that does not
    start with whitespace, below preceding lines of which the last is
    not a comment line, come back unchanged from [Comments.get_raw_data]
    followed by [Comments.parse]. *)
Theorem X23_comments_parse_raw_data (c : Comments.t) :
  Forall parsed_comment (Comments.data c) ->
  from_option is_comment_line false (last (Comments._preceding_lines c)) = false ->
  Comments.parse (Comments.get_raw_data c) = c.
Proof.
  intros Hdata Hlast. rewrite comments_parse_scan. unfold Comments.get_raw_data.
  rewrite (comments_scan_preceding _ _ _ (comments_scan_parsed _ Hdata)).
  - destruct c. reflexivity.
  - intros before l Heq. rewrite Heq, last_snoc in Hlast. exact Hlast.
Qed.

Lemma X23_comments_parse_raw_data_witness :
  Comments.parse
    (Comments.get_raw_data
       (Comments.Comments [Comment.Comment "first" "# "; Comment.Comment "" "  #"]
                          ["# above"; "%global x 1"]))
  = Comments.Comments [Comment.Comment "first" "# "; Comment.Comment "" "  #"]
                      ["# above"; "%global x 1"].
Proof.
  apply (X23_comments_parse_raw_data
           (Comments.Comments [Comment.Comment "first" "# "; Comment.Comment "" "  #"]
                              ["# above"; "%global x 1"])).
  - repeat constructor.
    + exists EmptyString, " "%string. repeat split.
    + exists "  "%string, EmptyString. repeat split.
  - reflexivity.
Defined.

(** ** Inserting a tag and deleting it again *)

Lemma seam_nil (lines : list string) :
  starts_with_two_empty lines = false -> Tags.seam [] lines = lines.
Proof.
  unfold Tags.seam. destruct lines as [|a [|b lines]]; cbn.
  - reflexivity.
  - destruct a; reflexivity.
  - destruct a; [|reflexivity]. destruct b; [discriminate|reflexivity].
Qed.

(** X24. A tag without preceding lines that is inserted at a position
    of the collection and deleted again leaves the collection as it was,
    when no line directly above the position starts with [%endif] and
    those lines do not start with two empty lines. *)
Theorem X24_insert_then_delete (k : nat) (item : Tag.t) (self : Tags.t) :
  k <= length (Tags.data self) ->
  Tag.preceding_lines item = [] ->
  Forall (fun l => is_endif l = false) (lines_above self k) ->
  starts_with_two_empty (lines_above self k) = false ->
  exists self',
    Tags.insert (Z.of_nat k) item self = (Ok tt, self')
    /\ Tags.delitem (Z.of_nat k) self' = (Ok tt, self).
Proof.
  intros Hk Hpl Hno Htwo.
  assert (Hp : insert_position (length (Tags.data self)) (Z.of_nat k) = k).
  { unfold insert_position. destruct (Z.ltb_spec (Z.of_nat k) 0); lia. }
  eexists. split.
  - apply insert_plain; [lia|]. rewrite Hp. exact Hno.
  - rewrite py_insert_at, Hp. unfold Tags.delitem.
    assert (Hlen : length (take k (Tags.data self)) = k) by (rewrite length_take; lia).
    assert (Hitem : (take k (Tags.data self) ++ item :: drop k (Tags.data self)) !! k
                    = Some item).
    { rewrite lookup_app_r by lia. rewrite Hlen, Nat.sub_diag. reflexivity. }
    rewrite (delete_in_range k
               (Tags.Tags (take k (Tags.data self) ++ item :: drop k (Tags.data self))
                          (Tags._remainder self)) item Hitem).
    cbn [Tags.data Tags._remainder]. rewrite Hpl.
    assert (Hnext : (take k (Tags.data self) ++ item :: drop k (Tags.data self)) !! S k
                    = Tags.data self !! k).
    { rewrite lookup_app_r by lia. rewrite Hlen.
      replace (S k - k) with 1 by lia.
      change ((item :: drop k (Tags.data self)) !! 1) with (drop k (Tags.data self) !! 0).
      rewrite lookup_drop. f_equal. lia. }
    rewrite Hnext.
    assert (Htake : take k (take k (Tags.data self) ++ item :: drop k (Tags.data self))
                    = take k (Tags.data self)).
    { rewrite take_app_le by lia. apply take_ge. lia. }
    rewrite Htake. unfold lines_above in Htwo.
    destruct self as [data remainder]. cbn [Tags.data Tags._remainder] in *.
    destruct (data !! k) as [next|] eqn:Hn.
    + unfold Tag.preceding_lines in *. rewrite (seam_nil _ Htwo).
      fold (Tag.preceding_lines next). rewrite with_preceding_lines_id.
      f_equal. f_equal.
      replace (drop (S (S k)) (take k data ++ item :: drop k data))
        with (drop (S k) data).
      * apply take_drop_middle, Hn.
      * rewrite drop_app_ge by lia. rewrite Hlen.
        replace (S (S k) - k) with 2 by lia. cbn [drop].
        destruct (drop k data) as [|x xs] eqn:Hd.
        -- apply lookup_lt_Some in Hn. apply (f_equal length) in Hd.
           rewrite length_drop in Hd. simpl in Hd. lia.
        -- rewrite (drop_S _ _ _ Hn) in Hd. injection Hd as _ <-. reflexivity.
    + apply lookup_ge_None in Hn. rewrite (seam_nil _ Htwo).
      rewrite take_ge by lia. reflexivity.
Qed.

Lemma X24_insert_then_delete_witness :
  exists self',
    Tags.insert 1 (Tag.Tag "Epoch" "1" None ": " (Comments.Comments [] []))
      (Tags.Tags [Tag.Tag "Name" "x" None ": " (Comments.Comments [] []);
                  Tag.Tag "Url" "u" None ": " (Comments.Comments [] [""; "# home"])]
                 ["%description"])
    = (Ok tt, self')
    /\ Tags.delitem 1 self'
       = (Ok tt,
          Tags.Tags [Tag.Tag "Name" "x" None ": " (Comments.Comments [] []);
                     Tag.Tag "Url" "u" None ": " (Comments.Comments [] [""; "# home"])]
                    ["%description"]).
Proof.
  apply (X24_insert_then_delete 1
           (Tag.Tag "Epoch" "1" None ": " (Comments.Comments [] []))
           (Tags.Tags [Tag.Tag "Name" "x" None ": " (Comments.Comments [] []);
                       Tag.Tag "Url" "u" None ": " (Comments.Comments [] [""; "# home"])]
                      ["%description"])).
  - simpl. lia.
  - reflexivity.
  - repeat constructor.
  - reflexivity.
Defined.

(** ** A parser after a failed parse *)

Section ParserObjectFacts.

Variable Spec : Type.
Variable spec_sources : Spec -> gset string.
Variable rpm_spec : gmap string SpecParser.bytes -> string -> SpecParser.flags -> option Spec.
Variable get_filename_from_location : string -> string.
Variable collect_included_sources : string -> gset string.
Variable collect_sources_referenced_from_tags : string -> gset string.
Variable truthy : Spec -> bool.

(** X25. When a parser that holds a spec from an earlier parse is asked
    to parse again and [_do_parse] raises, the exception comes through
    and the attribute [spec] is gone: it was deleted before the parse and
    is not set again.  Every later call of [parse] then raises
    [AttributeError] on reading it, before anything is parsed, and
    changes nothing. *)
Theorem X25_parse_after_failed_parse (self : ParserObject.t Spec) (s : Spec)
    (content : string) (w w' : SpecParser.world) (e : exn) :
  ParserObject.spec self = ParserObject.Bound (Some s) ->
  truthy s = true ->
  SpecParser._do_parse Spec spec_sources rpm_spec get_filename_from_location
    collect_included_sources collect_sources_referenced_from_tags
    (ParserObject.force_parse self) content w = (Raise e, w') ->
  let self' := ParserObject.ParserObject (ParserObject.force_parse self)
                 ParserObject.Absent (ParserObject.tainted self) in
  ParserObject.parse Spec spec_sources rpm_spec get_filename_from_location
    collect_included_sources collect_sources_referenced_from_tags truthy
    self content w = (ParserObject.Raised (ParserObject.Propagated e), self', w')
  /\ forall content2 w2,
       ParserObject.parse Spec spec_sources rpm_spec get_filename_from_location
         collect_included_sources collect_sources_referenced_from_tags truthy
         self' content2 w2 = (ParserObject.Raised ParserObject.AttributeError, self', w2).
Proof.
  intros Hspec Ht Hfail. cbv zeta. split.
  - unfold ParserObject.parse. rewrite Hspec, Ht, Hfail. reflexivity.
  - intros content2 w2. reflexivity.
Qed.

End ParserObjectFacts.

Lemma X25_parse_after_failed_parse_witness :
  let self := ParserObject.ParserObject false
                (ParserObject.Bound (Some ({[ Demo.remote_source ]} : Demo.Spec))) false in
  let self' := ParserObject.ParserObject (Spec := Demo.Spec) false ParserObject.Absent false in
  let parse := ParserObject.parse Demo.Spec Demo.spec_sources Demo.oracle_include
                 Demo.basename Demo.includes_macros Demo.no_sources (fun _ => true) in
  parse self "%include %{_sourcedir}/macros.inc" Demo.empty_world
  = (ParserObject.Raised (ParserObject.Propagated RPMException), self', Demo.empty_world)
  /\ forall content2 w2,
       parse self' content2 w2 = (ParserObject.Raised ParserObject.AttributeError, self', w2).
Proof.
  apply (X25_parse_after_failed_parse Demo.Spec Demo.spec_sources Demo.oracle_include
           Demo.basename Demo.includes_macros Demo.no_sources (fun _ => true)
           (ParserObject.ParserObject false
              (ParserObject.Bound (Some ({[ Demo.remote_source ]} : Demo.Spec))) false)
           {[ Demo.remote_source ]} "%include %{_sourcedir}/macros.inc"
           Demo.empty_world Demo.empty_world RPMException).
  - reflexivity.
  - reflexivity.
  - vm_compute. reflexivity.
Defined.
